(** * Katiba254: the constitution parser (parse_constitution.py)

    A shallow embedding of [parse_constitution.py] and the properties of
    its document tree.

    Python strings are sequences of Unicode code points: a character is a
    code point ([N]) and a [str] is a list of them.  The predicates of the
    Unicode database that the program reaches through [str.strip], [\s],
    [\d] and [int] are written out; [str.lower] is the only runtime
    function kept abstract (a variable of the sections that need it).
    Python integers are unbounded and are modelled by [Z].  The conversion
    [int] of a decimal string raises [ValueError] when the string has more
    than [int_max_str_digits] digits (4300, the default of CPython 3.11 and
    later, which the program does not change). *)

From Stdlib Require Import String Ascii.
From Stdlib Require Import List NArith ZArith Bool Lia Sorted.
From Stdlib Require Decimal DecimalString DecimalPos.
Set Warnings "-register-all,-abstract-large-number".
Import ListNotations.
Local Open Scope list_scope.

(** ** Strings *)

Definition char := N.
Definition str := list char.

(** An ASCII literal as a Python string. *)
Definition u (s : string) : str := map N_of_ascii (list_ascii_of_string s).
Arguments u s%_string.

Definition LF : char := 10%N.
Definition SPACE : char := 32%N.
Definition LPAREN : char := 40%N.
Definition RPAREN : char := 41%N.
Definition HYPHEN : char := 45%N.
Definition DOT : char := 46%N.
Definition EM_DASH : char := 8212%N.
Definition EN_DASH : char := 8211%N.
Definition APOSTROPHE : char := 39%N.
Definition LIGATURE_FI : char := 64257%N.
Definition LIGATURE_FL : char := 64258%N.

Fixpoint str_eqb (a b : str) : bool :=
  match a, b with
  | [], [] => true
  | x :: a', y :: b' => (x =? y)%N && str_eqb a' b'
  | _, _ => false
  end.

(** [str.isspace] of one character, which is also the class [\s] of a
    Unicode pattern. *)
Definition whitespace : list char :=
  [9; 10; 11; 12; 13; 28; 29; 30; 31; 32; 133; 160; 5760;
   8192; 8193; 8194; 8195; 8196; 8197; 8198; 8199; 8200; 8201; 8202;
   8232; 8233; 8239; 8287; 12288]%N.

Definition isspace (c : char) : bool := existsb (N.eqb c) whitespace.

(** The decimal digits of the Unicode database (category Nd, Unicode 14):
    each entry is the code point of a digit zero, followed by the digits one
    to nine of the same script.  This is the class [\d] of a Unicode pattern
    and the digits [int] accepts. *)
Definition decimal_zeros : list char :=
  [48; 1632; 1776; 1984; 2406; 2534; 2662; 2790; 2918; 3046; 3174; 3302;
   3430; 3558; 3664; 3792; 3872; 4160; 4240; 6112; 6160; 6470; 6608; 6784;
   6800; 6992; 7088; 7232; 7248; 42528; 43216; 43264; 43472; 43504; 43600;
   44016; 65296; 66720; 68912; 69734; 69872; 69942; 70096; 70384; 70736;
   70864; 71248; 71360; 71472; 71904; 72016; 72784; 73040; 73120; 92768;
   92864; 93008; 120782; 120792; 120802; 120812; 120822; 123200; 123632;
   125264; 130032]%N.

Definition todecimal (c : char) : option Z :=
  match find (fun z => (z <=? c)%N && (c <? z + 10)%N) decimal_zeros with
  | Some z => Some (Z.of_N (c - z))
  | None => None
  end.

Definition isdecimal (c : char) : bool :=
  match todecimal c with Some _ => true | None => false end.

Definition is_empty (s : str) : bool :=
  match s with [] => true | _ => false end.

Fixpoint takewhile (f : char -> bool) (s : str) : str :=
  match s with
  | c :: r => if f c then c :: takewhile f r else []
  | [] => []
  end.

Fixpoint dropwhile (f : char -> bool) (s : str) : str :=
  match s with
  | c :: r => if f c then dropwhile f r else s
  | [] => []
  end.

(** [s.strip()] *)
Definition lstrip (s : str) : str := dropwhile isspace s.
Definition rstrip (s : str) : str := rev (dropwhile isspace (rev s)).
Definition strip (s : str) : str := rstrip (lstrip s).

(** [s.startswith(p)] and [s.endswith(p)] *)
Fixpoint startswith (p s : str) : bool :=
  match p, s with
  | [], _ => true
  | x :: p', y :: s' => (x =? y)%N && startswith p' s'
  | _ :: _, [] => false
  end.

Definition endswith (p s : str) : bool := startswith (rev p) (rev s).

(** [sep.join(parts)] *)
Fixpoint join (sep : str) (parts : list str) : str :=
  match parts with
  | [] => []
  | [p] => p
  | p :: rest => p ++ sep ++ join sep rest
  end.

(** [s.split('\n')]: never empty. *)
Fixpoint split_nl (s : str) : list str :=
  match s with
  | [] => [[]]
  | c :: r =>
      if (c =? LF)%N then [] :: split_nl r
      else match split_nl r with
           | l :: ls => (c :: l) :: ls
           | [] => [[c]]
           end
  end.

(** [s.replace(old, new)] for a one-character [old]. *)
Definition replace (old : char) (new : str) (s : str) : str :=
  flat_map (fun c => if (c =? old)%N then new else [c]) s.

(** [s[:-1]] *)
Definition drop_last (s : str) : str := removelast s.

(** Index of the first occurrence of a literal: [re.search(lit, s).start()]. *)
Fixpoint find_sub (lit s : str) (i : nat) : option nat :=
  if startswith lit s then Some i
  else match s with
       | [] => None
       | _ :: r => find_sub lit r (S i)
       end.

(** ** Exceptions *)

Inductive exn := KeyError | IndexError | ValueError.

Inductive result (A : Type) : Type :=
| Ok (a : A)
| Raise (e : exn).
Arguments Ok {A} a.
Arguments Raise {A} e.

Definition bind {A B} (m : result A) (k : A -> result B) : result B :=
  match m with
  | Ok a => k a
  | Raise e => Raise e
  end.

Notation "x <- m ;; k" := (bind m (fun x => k))
  (at level 61, m at next level, right associativity).

Fixpoint mapM {A B} (f : A -> result B) (l : list A) : result (list B) :=
  match l with
  | [] => Ok []
  | a :: r => b <- f a ;; bs <- mapM f r ;; Ok (b :: bs)
  end.

Fixpoint foldM {A S} (f : S -> A -> result S) (l : list A) (s : S) : result S :=
  match l with
  | [] => Ok s
  | a :: r => s' <- f s a ;; foldM f r s'
  end.

(** ** Integers and their decimal form *)

(** The value of a string of decimal digits read after the digits of value
    [acc]. *)
Fixpoint int_digits (s : str) (acc : Z) : result Z :=
  match s with
  | [] => Ok acc
  | c :: r =>
      match todecimal c with
      | Some d => int_digits r (10 * acc + d)%Z
      | None => Raise ValueError
      end
  end.

(** [sys.get_int_max_str_digits()]: the longest decimal string that [int]
    converts.  Every digit counts, leading zeros too. *)
Definition int_max_str_digits : nat := 4300.

(** [int(s)] on a string of decimal digits.  The program calls [int] on
    group 1 of a [(\d+)] pattern only; on any other string this model raises
    [ValueError], and so it does, as the interpreter, on a string of more than
    [int_max_str_digits] digits. *)
Definition py_int (s : str) : result Z :=
  match s with
  | [] => Raise ValueError
  | _ =>
      if int_max_str_digits <? length s then Raise ValueError
      else int_digits s 0%Z
  end.

(** [str(n)] for an integer [n].  The interpreter applies the same limit to
    [str]; the program calls [str] on the results of [int] and on the
    counter 1 only, whose decimal forms stay within the limit (lemma
    [py_int_str_length]). *)
Definition py_str (n : Z) : str := u (DecimalString.NilZero.string_of_int (Z.to_int n)).

(** ** Regular expressions of the program

    Each pattern is matched by a function that follows the backtracking
    order of Python's [re]: greedy quantifiers try the longest repetition
    first, lazy ones the shortest, alternatives are tried left to right. *)

(** Tries [k j] for [j] from [hi] down to [lo]. *)
Fixpoint try_down {A} (k : nat -> option A) (hi lo : nat) : option A :=
  if hi <? lo then None
  else match k hi with
       | Some a => Some a
       | None => match hi with
                 | 0 => None
                 | S hi' => try_down k hi' lo
                 end
       end.

(** A greedy [\s*] ([lo = 0]) or [\s+] ([lo = 1]) followed by the rest of the
    pattern [k], which receives the number of whitespace characters consumed
    and the remaining input. *)
Definition spaces_then {A} (lo : nat) (k : nat -> str -> option A) (s : str) : option A :=
  try_down (fun j => k j (skipn j s)) (length (takewhile isspace s)) lo.

Definition not_lf (c : char) : bool := negb (c =? LF)%N.

(** [$] without the MULTILINE flag: the end of the string, or just before
    a newline that ends the string. *)
Definition at_dollar (s : str) : bool :=
  match s with
  | [] => true
  | [c] => (c =? LF)%N
  | _ => false
  end.

(** A greedy captured run of dots (zero or more) followed by [$]; the dot
    does not match a newline. *)
Definition dot_star_eol (s : str) : option str :=
  if at_dollar (dropwhile not_lf s) then Some (takewhile not_lf s) else None.

(** The same with one dot or more. *)
Definition dot_plus_eol (s : str) : option str :=
  match takewhile not_lf s with
  | [] => None
  | w => if at_dollar (dropwhile not_lf s) then Some w else None
  end.

(** The explicit clause marker, [re.match] of
    [^ \( (\d+) \) \s* ( .* ) $] (written here with spaces): groups 1 and 2. *)
Definition clause_match (line : str) : option (str * str) :=
  match line with
  | c :: r =>
      if (c =? LPAREN)%N then
        match takewhile isdecimal r, dropwhile isdecimal r with
        | d :: ds, c2 :: r2 =>
            if (c2 =? RPAREN)%N then
              spaces_then 0 (fun _ rest =>
                match dot_star_eol rest with
                | Some g2 => Some (d :: ds, g2)
                | None => None
                end) r2
            else None
        | _, _ => None
        end
      else None
  | [] => None
  end.

Definition is_lower_az (c : char) : bool := (97 <=? c)%N && (c <=? 122)%N.

(** [re.match(r'^(?:\()?([a-z])(?:\))?\s+(.+)$', line)]: groups 1 and 2. *)
Definition subclause_match (line : str) : option (str * str) :=
  let after_open :=
    match line with
    | c :: r => if (c =? LPAREN)%N then r else line
    | [] => line
    end in
  match after_open with
  | c :: r =>
      if is_lower_az c then
        let after_close :=
          match r with
          | c2 :: r2 => if (c2 =? RPAREN)%N then r2 else r
          | [] => r
          end in
        spaces_then 1 (fun _ rest =>
          match dot_plus_eol rest with
          | Some g2 => Some ([c], g2)
          | None => None
          end) after_close
      else None
  | [] => None
  end.

Definition is_ivx (c : char) : bool :=
  (c =? 105)%N || (c =? 118)%N || (c =? 120)%N.

(** The sub-sub-clause marker, [re.match] of
    [^ \( ([ivx]+) \) \s* ( .* ) $] (written here with spaces): groups 1 and 2. *)
Definition subsubclause_match (line : str) : option (str * str) :=
  match line with
  | c :: r =>
      if (c =? LPAREN)%N then
        match takewhile is_ivx r, dropwhile is_ivx r with
        | d :: ds, c2 :: r2 =>
            if (c2 =? RPAREN)%N then
              spaces_then 0 (fun _ rest =>
                match dot_star_eol rest with
                | Some g2 => Some (d :: ds, g2)
                | None => None
                end) r2
            else None
        | _, _ => None
        end
      else None
  | [] => None
  end.

(** ** The document tree *)

Module SubClause.
Record t := mk { label : str; text : str }.
End SubClause.

Module Clause.
Record t := mk { number : str; text : str; subClauses : list SubClause.t }.
End Clause.

Module Article.
Record t := mk { number : Z; title : str; clauses : list Clause.t }.
End Article.

Module Chapter.
Record t := mk { number : Z; title : str; articles : list Article.t }.
End Chapter.

(** ** parse_clauses *)

Record clause_state := mkState {
  clauses : list Clause.t;
  current_clause_num : option Z;
  current_clause_text : list str;
  current_subclauses : list SubClause.t;
  implicit_clause_num : Z
}.

Definition initial_state : clause_state :=
  mkState [] None [] [] 1%Z.

(** The clause appended when the clause in progress is saved. *)
Definition flush (st : clause_state) : list Clause.t :=
  match current_clause_num st with
  | Some n =>
      clauses st ++
      [Clause.mk (py_str n) (strip (join [SPACE] (current_clause_text st)))
                 (current_subclauses st)]
  | None => clauses st
  end.

(** [subs[-1]["text"] += suffix] on a non-empty list. *)
Fixpoint append_to_last (subs : list SubClause.t) (suffix : str) : list SubClause.t :=
  match subs with
  | [] => []
  | [s] => [SubClause.mk (SubClause.label s) (SubClause.text s ++ suffix)]
  | s :: rest => s :: append_to_last rest suffix
  end.

(** One iteration of the loop over [article_lines]. *)
Definition clause_step (st : clause_state) (raw : str) : result clause_state :=
  let line := strip raw in
  if is_empty line then Ok st
  else if startswith (u "Constitution of Kenya") line then Ok st
  else
    match clause_match line with
    | Some (g1, g2) =>
        n <- py_int g1 ;;
        Ok (mkState (flush st) (Some n)
                    (if is_empty g2 then [] else [g2]) [] (n + 1)%Z)
    | None =>
        match subclause_match line, current_clause_num st with
        | Some (label, text), Some _ =>
            Ok (mkState (clauses st) (current_clause_num st) (current_clause_text st)
                        (current_subclauses st ++ [SubClause.mk label text])
                        (implicit_clause_num st))
        | _, _ =>
            match subsubclause_match line, current_subclauses st with
            | Some (g1, g2), _ :: _ =>
                Ok (mkState (clauses st) (current_clause_num st) (current_clause_text st)
                            (append_to_last (current_subclauses st)
                               (u " (" ++ g1 ++ u ") " ++ g2))
                            (implicit_clause_num st))
            | _, _ =>
                match current_clause_num st with
                | None =>
                    Ok (mkState (clauses st) (Some (implicit_clause_num st)) [line] []
                                (implicit_clause_num st + 1)%Z)
                | Some _ =>
                    Ok (mkState (clauses st) (current_clause_num st)
                                (current_clause_text st ++ [line])
                                (current_subclauses st) (implicit_clause_num st))
                end
            end
        end
    end.

Definition parse_clauses (article_lines : list str) : result (list Clause.t) :=
  st <- foldM clause_step article_lines initial_state ;;
  Ok (flush st).

(** ** The table of article titles *)

(** A Python [dict] keeps its keys in the order of their first insertion;
    writing an existing key replaces the value and keeps the position. *)
Definition dict := list (str * Z).

Fixpoint dict_set (d : dict) (k : str) (v : Z) : dict :=
  match d with
  | [] => [(k, v)]
  | (k', v') :: r =>
      if str_eqb k' k then (k', v) :: r else (k', v') :: dict_set r k v
  end.

(** A dict display [{k1: v1, k2: v2, ...}]. *)
Definition dict_of (entries : list (str * Z)) : dict :=
  fold_left (fun d e => dict_set d (fst e) (snd e)) entries [].

(** [d.get(k)] *)
Fixpoint dict_get (d : dict) (k : str) : option Z :=
  match d with
  | [] => None
  | (k', v) :: r => if str_eqb k' k then Some v else dict_get r k
  end.

(** [d[k]] *)
Definition dict_index (d : dict) (k : str) : result Z :=
  match dict_get d k with
  | Some v => Ok v
  | None => Raise KeyError
  end.

(** The entries of the display in [get_article_number_map], as written. *)
Definition articles_literal : list (str * Z) :=
  [
   (* Chapter 1 *)
   (u "sovereignty of the people", 1);
   (u "supremacy of this constitution", 2);
   (u "defence of this constitution", 3);
   (* Chapter 2 *)
   (u "declaration of the republic", 4);
   (u "territory of kenya", 5);
   (u "devolution and access to services", 6);
   (u "national, official and other languages", 7);
   (u "national, of" ++ [LIGATURE_FI] ++ u "cial and other languages", 7);
   (u "state and religion", 8);
   (u "national symbols and national days", 9);
   (u "national values and principles of governance", 10);
   (u "culture", 11);
   (* Chapter 3 *)
   (u "entitlements of citizens", 12);
   (u "retention and acquisition of citizenship", 13);
   (u "citizenship by birth", 14);
   (u "citizenship by registration", 15);
   (u "dual citizenship", 16);
   (u "revocation of citizenship", 17);
   (u "legislation on citizenship", 18);
   (* Chapter 4 *)
   (u "rights and fundamental freedoms", 19);
   (u "application of bill of rights", 20);
   (u "implementation of rights and fundamental freedoms", 21);
   (u "enforcement of bill of rights", 22);
   (u "authority of courts to uphold and enforce the bill of rights", 23);
   (u "limitation of rights and fundamental freedoms", 24);
   (u "limitation of rights or fundamental freedoms", 24);
   (u "fundamental rights and freedoms that may not be limited", 25);
   (u "right to life", 26);
   (u "equality and freedom from discrimination", 27);
   (u "human dignity", 28);
   (u "freedom and security of the person", 29);
   (u "slavery, servitude and forced labour", 30);
   (u "privacy", 31);
   (u "freedom of conscience, religion, belief and opinion", 32);
   (u "freedom of expression", 33);
   (u "freedom of the media", 34);
   (u "access to information", 35);
   (u "freedom of association", 36);
   (u "assembly, demonstration, picketing and petition", 37);
   (u "political rights", 38);
   (u "freedom of movement and residence", 39);
   (u "protection of right to property", 40);
   (u "labour relations", 41);
   (u "environment", 42);
   (u "economic and social rights", 43);
   (u "language and culture", 44);
   (u "family", 45);
   (u "consumer rights", 46);
   (u "fair administrative action", 47);
   (u "access to justice", 48);
   (u "rights of arrested persons", 49);
   (u "fair hearing", 50);
   (u "rights of persons detained, held in custody or imprisoned", 51);
   (u "interpretation of this part", 52);
   (u "interpretation of part", 52);
   (u "children", 53);
   (u "persons with disabilities", 54);
   (u "youth", 55);
   (u "minorities and marginalised groups", 56);
   (u "older members of society", 57);
   (u "state of emergency", 58);
   (u "kenya national human rights and equality commission", 59);
   (* Chapter 5 *)
   (u "principles of land policy", 60);
   (u "classification of land", 61);
   (u "public land", 62);
   (u "community land", 63);
   (u "private land", 64);
   (u "landholding by non-citizens", 65);
   (u "regulation of land use and property", 66);
   (u "national land commission", 67);
   (u "legislation on land", 68);
   (u "obligations in respect of the environment", 69);
   (u "enforcement of environmental rights", 70);
   (u "agreements relating to natural resources", 71);
   (u "legislation relating to the environment", 72);
   (* Chapter 6 *)
   (u "responsibilities of leadership", 73);
   (u "oath of office of state officers", 74);
   (u "conduct of state officers", 75);
   (u "financial probity of state officers", 76);
   (u "restriction on activities of state officers", 77);
   (u "citizenship and leadership", 78);
   (u "legislation to establish the ethics and anti-corruption commission", 79);
   (u "legislation on leadership", 80);
   (* Chapter 7 *)
   (u "general principles for the electoral system", 81);
   (u "legislation on elections", 82);
   (u "registration as a voter", 83);
   (u "candidates for election and political parties to comply with code of conduct", 84);
   (u "eligibility to stand as an independent candidate", 85);
   (u "voting", 86);
   (u "electoral disputes", 87);
   (u "independent electoral and boundaries commission", 88);
   (u "delimitation of electoral units", 89);
   (u "allocation of party list seats", 90);
   (u "basic requirements for political parties", 91);
   (u "legislation on political parties", 92);
   (* Chapter 8 *)
   (u "establishment of parliament", 93);
   (u "role of parliament", 94);
   (u "role of the national assembly", 95);
   (u "role of the senate", 96);
   (u "membership of the national assembly", 97);
   (u "membership of the senate", 98);
   (u "qualifications and disqualifications for election as member of parliament", 99);
   (u "promotion of representation of marginalised groups", 100);
   (u "election of members of parliament", 101);
   (u "term of parliament", 102);
   (u "vacation of office of member of parliament", 103);
   (u "right of recall", 104);
   (u "determination of questions of membership", 105);
   (u "speakers and deputy speakers of parliament", 106);
   (u "presiding in parliament", 107);
   (u "party leaders", 108);
   (u "exercise of legislative powers", 109);
   (u "bills concerning county government", 110);
   (u "special bills concerning county governments", 111);
   (u "ordinary bills concerning county governments", 112);
   (u "mediation committees", 113);
   (u "money bills", 114);
   (u "presidential assent and referral", 115);
   (u "coming into force of laws", 116);
   (u "powers, privileges and immunities", 117);
   (u "public access and participation", 118);
   (u "right to petition parliament", 119);
   (u "official languages of parliament", 120);
   (u "quorum", 121);
   (u "voting in parliament", 122);
   (u "decisions of senate", 123);
   (u "committees and standing orders", 124);
   (u "power to call for evidence", 125);
   (u "location of sittings of parliament", 126);
   (u "parliamentary service commission", 127);
   (u "clerks and staff of parliament", 128);
   (* Chapter 9 *)
   (u "principles of executive authority", 129);
   (u "the national executive", 130);
   (u "authority of the president", 131);
   (u "functions of the president", 132);
   (u "power of mercy", 133);
   (u "exercise of presidential powers during temporary incumbency", 134);
   (u "decisions of the president", 135);
   (u "election of the president", 136);
   (u "qualifications and disqualifications for election as president", 137);
   (u "procedure at presidential election", 138);
   (u "death before assuming office", 139);
   (u "questions as to validity of presidential election", 140);
   (u "assumption of office of president", 141);
   (u "term of office of president", 142);
   (u "protection from legal proceedings", 143);
   (u "removal of president on grounds of incapacity", 144);
   (u "removal of president by impeachment", 145);
   (u "vacancy in the office of president", 146);
   (u "functions of the deputy president", 147);
   (u "election and swearing-in of deputy president", 148);
   (u "vacancy in the office of deputy president", 149);
   (u "removal of deputy president", 150);
   (u "remuneration and benefits of president and deputy president", 151);
   (u "cabinet", 152);
   (u "decisions, responsibility and accountability of the cabinet", 153);
   (u "secretary to the cabinet", 154);
   (u "principal secretaries", 155);
   (u "attorney-general", 156);
   (u "director of public prosecutions", 157);
   (u "removal and resignation of director of public prosecutions", 158);
   (* Chapter 10 *)
   (u "judicial authority", 159);
   (u "independence of the judiciary", 160);
   (u "judicial offices and officers", 161);
   (u "system of courts", 162);
   (u "supreme court", 163);
   (u "court of appeal", 164);
   (u "high court", 165);
   (u "appointment of chief justice, deputy chief justice and other judges", 166);
   (u "tenure of office of the chief justice and other judges", 167);
   (u "removal from office", 168);
   (u "subordinate courts", 169);
   (u "kadhis' courts", 170);
   (u "kadhis' courts", 170);
   (u "establishment of the judicial service commission", 171);
   (u "functions of the judicial service commission", 172);
   (u "judiciary fund", 173);
   (* Chapter 11 *)
   (u "objects of devolution", 174);
   (u "principles of devolved government", 175);
   (u "county governments", 176);
   (u "membership of county assembly", 177);
   (u "speaker of a county assembly", 178);
   (u "county executive committees", 179);
   (u "election of county governor and deputy county governor", 180);
   (u "removal of a county governor", 181);
   (u "vacancy in the office of county governor", 182);
   (u "functions of county executive committees", 183);
   (u "urban areas and cities", 184);
   (u "legislative authority of county assemblies", 185);
   (u "respective functions and powers of national and county governments", 186);
   (u "transfer of functions and powers between levels of government", 187);
   (u "boundaries of counties", 188);
   (u "cooperation between national and county governments", 189);
   (u "support for county governments", 190);
   (u "conflict of laws", 191);
   (u "suspension of a county government", 192);
   (u "suspension of county government", 192);
   (u "qualifications for election as member of county assembly", 193);
   (u "vacation of office of member of county assembly", 194);
   (u "county assembly power to summon witnesses", 195);
   (u "public participation and county assembly powers, privileges and immunities", 196);
   (u "county assembly gender balance and diversity", 197);
   (u "county government during transition", 198);
   (u "publication of county legislation", 199);
   (u "legislation on chapter", 200);
   (* Chapter 12 *)
   (u "principles of public finance", 201);
   (u "equitable sharing of national revenue", 202);
   (u "equitable share and other financial laws", 203);
   (u "equalisation fund", 204);
   (u "consultation on financial legislation affecting counties", 205);
   (u "consolidated fund and other public funds", 206);
   (u "revenue funds for county governments", 207);
   (u "contingencies fund", 208);
   (u "power to impose taxes and charges", 209);
   (u "imposition of tax", 210);
   (u "borrowing by national government", 211);
   (u "borrowing by counties", 212);
   (u "loan guarantees by national government", 213);
   (u "public debt", 214);
   (u "commission on revenue allocation", 215);
   (u "functions of the commission on revenue allocation", 216);
   (u "division of revenue", 217);
   (u "annual division and allocation of revenue bills", 218);
   (u "transfer of equitable share", 219);
   (u "form, content and timing of budgets", 220);
   (u "budget estimates and annual appropriation bill", 221);
   (u "expenditure before annual budget is passed", 222);
   (u "supplementary appropriation", 223);
   (u "county appropriation bills", 224);
   (u "financial control", 225);
   (u "accounts and audit of public entities", 226);
   (u "procurement of public goods and services", 227);
   (u "controller of budget", 228);
   (u "auditor-general", 229);
   (u "salaries and remuneration commission", 230);
   (u "central bank of kenya", 231);
   (* Chapter 13 *)
   (u "values and principles of public service", 232);
   (u "the public service commission", 233);
   (u "functions and powers of the public service commission", 234);
   (u "staffing of county governments", 235);
   (u "protection of public officers", 236);
   (u "teachers service commission", 237);
   (* Chapter 14 *)
   (u "principles of national security", 238);
   (u "national security organs", 239);
   (u "establishment of the national security council", 240);
   (u "establishment of defence forces and defence council", 241);
   (u "establishment of kenya defence forces and defence council", 241);
   (u "establishment of national intelligence service", 242);
   (u "establishment of the national police service", 243);
   (u "objects and functions of the national police service", 244);
   (u "command of the national police service", 245);
   (u "national police service commission", 246);
   (u "other police services", 247);
   (* Chapter 15 *)
   (u "application of chapter", 248);
   (u "objects, authority and funding of commissions and independent offices", 249);
   (u "composition, appointment and terms of office", 250);
   (u "removal from office", 251);
   (u "general functions and powers", 252);
   (u "incorporation of commissions and independent offices", 253);
   (u "reporting by commissions and independent offices", 254);
   (* Chapter 16 *)
   (u "amendment of this constitution", 255);
   (u "amendment by parliamentary initiative", 256);
   (u "amendment by popular initiative", 257);
   (* Chapter 17 *)
   (u "enforcement of this constitution", 258);
   (u "construing this constitution", 259);
   (u "interpretation", 260);
   (* Chapter 18 *)
   (u "consequential legislation", 261);
   (u "transitional and consequential provisions", 262);
   (u "effective date", 263);
   (u "repeal of previous constitution", 264)
  ]%Z.

Definition get_article_number_map : dict := dict_of articles_literal.

(** ** normalize_title and parse_articles_improved *)

(** [re.sub(r'\s+', ' ', t)]; [in_run] tells that the previous character
    was whitespace. *)
Fixpoint collapse_spaces (in_run : bool) (t : str) : str :=
  match t with
  | [] => []
  | c :: r =>
      if isspace c then
        if in_run then collapse_spaces true r else SPACE :: collapse_spaces true r
      else c :: collapse_spaces false r
  end.

(** The tuples [(i, potential_title, article_num)] of [article_positions]. *)
Record position := mkPos { pos_line : nat; pos_title : str; pos_num : Z }.

(** The partial-matching loop over [article_map.items()]. *)
Fixpoint partial_match (items : dict) (normalized : str) : option Z :=
  match items with
  | [] => None
  | (known_title, num) :: rest =>
      if startswith known_title normalized || startswith normalized known_title
      then Some num
      else partial_match rest normalized
  end.

(** The number given to a confirmed title (the block "Get article number
    from title" of [parse_articles_improved]). *)
Definition resolve_article_num (article_map : dict) (article_positions : list position)
    (normalized : str) : Z :=
  match dict_get article_map normalized with
  | Some article_num => article_num
  | None =>
      match partial_match article_map normalized with
      | Some num => num
      | None =>
          let prev_num :=
            match rev article_positions with
            | p :: _ => pos_num p
            | [] => 0%Z
            end in
          (prev_num + 1)%Z
      end
  end.

(** A match of [Constitution of Kenya,?\s*2010\s*\d*] at the head of [s]:
    its length. *)
Definition page_marker_at (s : str) : option nat :=
  let lit := u "Constitution of Kenya" in
  if startswith lit s then
    let r := skipn (length lit) s in
    let comma :=
      match r with
      | c :: _ => if (c =? 44)%N then 1 else 0
      | [] => 0
      end in
    spaces_then 0 (fun j rest =>
      if startswith (u "2010") rest then
        let r2 := skipn 4 rest in
        let ws := length (takewhile isspace r2) in
        let ds := length (takewhile isdecimal (dropwhile isspace r2)) in
        Some (length lit + comma + j + 4 + ws + ds)
      else None) (skipn comma r)
  else None.

(** [re.sub(pattern, '', s)] for a pattern without empty matches: [skip]
    characters of a match remain to be deleted. *)
Fixpoint remove_matches (at_head : str -> option nat) (s : str) (skip : nat) : str :=
  match s with
  | [] => []
  | c :: r =>
      match skip with
      | S k => remove_matches at_head r k
      | 0 =>
          match at_head s with
          | Some (S k) => remove_matches at_head r k
          | _ => c :: remove_matches at_head r 0
          end
      end
  end.

(** [re.match(r'^\d+\.', line)] *)
Definition digits_dot (line : str) : bool :=
  match takewhile isdecimal line, dropwhile isdecimal line with
  | _ :: _, c :: _ => (c =? DOT)%N
  | _, _ => false
  end.

(** The test "Check if this is an article title". *)
Definition is_candidate (line : str) : bool :=
  endswith [DOT] line && negb (startswith [LPAREN] line) && negb (digits_dot line)
  && (3 <? length line) && (length line <? 150).

(** The test on the next non-blank line. *)
Definition confirms (next_line : str) : bool :=
  startswith (u "(1)") next_line || startswith [LPAREN] next_line
  || (negb (is_empty next_line) && negb (endswith [DOT] next_line)
      && negb (startswith (u "Part ") next_line)
      && negb (startswith (u "PART ") next_line)).

Definition nonblank (l : str) : bool := negb (is_empty (strip l)).

(** [seq[a:b]] for indices within the natural numbers. *)
Definition slice {A} (l : list A) (a b : nat) : list A := firstn (b - a) (skipn a l).

Section Runtime.

(** [str.lower] of the Python runtime. *)
Variable lower : str -> str.

Definition normalize_title (title : str) : str :=
  let t := strip (lower title) in
  let t := replace EN_DASH [HYPHEN] (replace EM_DASH [HYPHEN] t) in
  let t := replace APOSTROPHE [APOSTROPHE] (replace APOSTROPHE [APOSTROPHE] t) in
  let t := replace LIGATURE_FL (u "fl") (replace LIGATURE_FI (u "fi") t) in
  collapse_spaces false t.

(** First pass of [parse_articles_improved]: [lines] is [lines[i:]]. *)
Fixpoint find_titles (article_map : dict) (lines : list str) (i : nat)
    (article_positions : list position) : list position :=
  match lines with
  | [] => article_positions
  | raw :: rest =>
      let line := strip raw in
      if is_empty line || startswith (u "Part ") line || startswith (u "PART ") line
      then find_titles article_map rest (S i) article_positions
      else if is_candidate line then
        let potential_title := strip (drop_last line) in
        match find nonblank rest with
        | Some next_raw =>
            if confirms (strip next_raw) then
              let normalized := normalize_title potential_title in
              let article_num :=
                resolve_article_num article_map article_positions normalized in
              find_titles article_map rest (S i)
                (article_positions ++ [mkPos i potential_title article_num])
            else find_titles article_map rest (S i) article_positions
        | None => find_titles article_map rest (S i) article_positions
        end
      else find_titles article_map rest (S i) article_positions
  end.

(** Second pass: [positions] is [article_positions[idx:]]. *)
Fixpoint extract_articles (lines : list str) (positions : list position)
    : result (list Article.t) :=
  match positions with
  | [] => Ok []
  | p :: rest =>
      let end_line :=
        match rest with
        | next :: _ => pos_line next
        | [] => length lines
        end in
      let article_lines := slice lines (pos_line p + 1) end_line in
      clauses <- parse_clauses article_lines ;;
      articles <- extract_articles lines rest ;;
      Ok (Article.mk (pos_num p) (pos_title p) clauses :: articles)
  end.

Definition parse_articles_improved (chapter_content : str) (chapter_num : Z)
    : result (list Article.t) :=
  let chapter_content := remove_matches page_marker_at chapter_content 0 in
  let article_map := get_article_number_map in
  let lines := split_nl chapter_content in
  let article_positions := find_titles article_map lines 0 [] in
  extract_articles lines article_positions.

End Runtime.

(** ** parse_schedules *)

Inductive json :=
| JString (s : str)
| JNumber (n : Z)
| JArray (items : list json)
| JObject (members : list (str * json)).
Arguments JNumber n%_Z.

Module County.
Record t := mk { number : Z; name : str }.
End County.

(** The [content] of a schedule: the parsed list of counties of schedule 1,
    or a fixed payload. *)
Inductive content :=
| Counties (counties : list County.t)
| Fixed (payload : json).

Module Schedule.
Record t := mk { number : Z; title : str; reference : str; content : content }.
End Schedule.

Definition schedule_2_content : json :=
  JObject
    [(u "nationalFlag", JObject
       [(u "description", JString (u "Three major strips of equal width coloured from top to bottom black, red and green and separated by narrow white strips, with a symmetrical shield and white spears superimposed centrally."))]);
     (u "nationalAnthem", JObject
       [(u "verses", JArray
          [JObject
             [(u "number", JNumber 1);
              (u "kiswahili", JString (u "Ee Mungu nguvu yetu, Ilete baraka kwetu. Haki iwe ngao na mlinzi, Natukae na undugu. Amani na uhuru, Raha tupate na ustawi."));
              (u "english", JString (u "O God of all creation, Bless this our land and nation. Justice be our shield and defender, May we dwell in unity. Peace and liberty, Plenty be found within our borders."))];
           JObject
             [(u "number", JNumber 2);
              (u "kiswahili", JString (u "Amkeni ndugu zetu, Tufanye sote bidii. Nasi tujitoe kwa nguvu, Nchi yetu ya Kenya. Tunayoipenda, Tuwe tayari kuilinda."));
              (u "english", JString (u "Let one and all arise, With hearts both strong and true. Service be our earnest endeavour, And our Homeland of Kenya. Heritage of splendour, Firm may we stand to defend."))];
           JObject
             [(u "number", JNumber 3);
              (u "kiswahili", JString (u "Natujenge taifa letu, Ee, ndio wajibu wetu. Kenya istahili heshima, Tuungane mikono. Pamoja kazini, Kila siku tuwe na shukrani."));
              (u "english", JString (u "Let all with one accord, In common bond united. Build this our nation together, And the glory of Kenya. The fruit of our labour, Fill every heart with thanksgiving."))]])]);
     (u "coatOfArms", JObject
       [(u "description", JString (u "The Coat of Arms features two lions holding spears, a shield with colors of the Kenyan flag, and a rooster holding an axe."))]);
     (u "publicSeal", JObject
       [(u "description", JString (u "The Public Seal of Kenya."))])].

Definition schedule_3_content : json :=
  JObject
    [(u "oaths", JArray
       [JObject
          [(u "title", JString (u "Oath/Affirmation of Office of President"));
           (u "reference", JString (u "Article 141(3)"))];
        JObject
          [(u "title", JString (u "Oath/Affirmation of Office of Deputy President"));
           (u "reference", JString (u "Article 148(5)"))];
        JObject
          [(u "title", JString (u "Oath/Affirmation of Office of Cabinet Secretary"));
           (u "reference", JString (u "Article 152(4)"))];
        JObject
          [(u "title", JString (u "Oath/Affirmation of Office of Member of Parliament"));
           (u "reference", JString (u "Article 74"))];
        JObject
          [(u "title", JString (u "Oath/Affirmation of Office of State Officer"));
           (u "reference", JString (u "Article 74"))]])].

Definition schedule_4_content : json :=
  JObject
    [(u "nationalGovernment", JString (u "Functions assigned to the National Government"));
     (u "countyGovernments", JString (u "Functions assigned to the County Governments"))].

Definition schedule_5_content : json :=
  JObject
    [(u "description", JString (u "List of legislation required to be enacted by Parliament"))].

Definition schedule_6_content : json :=
  JObject
    [(u "description", JString (u "Transitional and consequential provisions for the implementation of this Constitution"))].

Definition schedule_info : list (Z * str * str) :=
  [(1%Z, u "COUNTIES", u "Article 6(1)");
   (2%Z, u "NATIONAL SYMBOLS", u "Article 9(2)");
   (3%Z, u "NATIONAL OATHS AND AFFIRMATIONS", u "Articles 74, 141(3), 148(5), 152(4)");
   (4%Z, u "DISTRIBUTION OF FUNCTIONS BETWEEN NATIONAL AND COUNTY GOVERNMENTS", u "Articles 185(2), 186(1), 187(2)");
   (5%Z, u "LEGISLATION TO BE ENACTED BY PARLIAMENT", u "Article 261(1)");
   (6%Z, u "TRANSITIONAL AND CONSEQUENTIAL PROVISIONS", u "Article 262")].

Definition is_ascii_letter (c : char) : bool :=
  ((65 <=? c)%N && (c <=? 90)%N) || ((97 <=? c)%N && (c <=? 122)%N).

(** The class [[A-Za-z\s\-]]. *)
Definition is_name_char (c : char) : bool :=
  is_ascii_letter c || isspace c || (c =? HYPHEN)%N.

(** The lookahead [(?=\n|\d+\.|$)]. *)
Definition county_lookahead (s : str) : bool :=
  match s with
  | [] => true
  | c :: _ => (c =? LF)%N || digits_dot s
  end.

(** The lazy group [([A-Za-z\s\-]+?)] followed by the lookahead: the
    shortest non-empty run of name characters after which the lookahead
    holds. *)
Fixpoint lazy_name (s : str) : option str :=
  match s with
  | [] => None
  | c :: r =>
      if is_name_char c then
        if county_lookahead r then Some [c]
        else match lazy_name r with
             | Some w => Some (c :: w)
             | None => None
             end
      else None
  end.

(** A match of [county_pattern] at the head of [s]: its length and its
    groups 1 and 2. *)
Definition county_at (s : str) : option (nat * (str * str)) :=
  match takewhile isdecimal s, dropwhile isdecimal s with
  | d :: ds, c :: r =>
      if (c =? DOT)%N then
        spaces_then 1 (fun j rest =>
          match lazy_name rest with
          | Some w => Some (length (d :: ds) + 1 + j + length w, (d :: ds, w))
          | None => None
          end) r
      else None
  | _, _ => None
  end.

(** A match object: [m.start()], [m.end()] and the groups. *)
Record re_match := mkMatch {
  m_start : nat;
  m_end : nat;
  group1 : str;
  group2 : str
}.

(** [re.finditer] for a pattern without empty matches; [s] is the input
    from position [pos] on, and [skip] characters of the last match remain to
    be passed. *)
Fixpoint finditer (at_head : str -> option (nat * (str * str))) (s : str)
    (pos skip : nat) : list re_match :=
  match s with
  | [] => []
  | _ :: r =>
      match skip with
      | S k => finditer at_head r (S pos) k
      | 0 =>
          match at_head s with
          | Some (S k, (g1, g2)) =>
              mkMatch pos (pos + S k) g1 g2 :: finditer at_head r (S pos) k
          | _ => finditer at_head r (S pos) 0
          end
      end
  end.

(** The body of the loop over the county matches, with its [try]. *)
Definition county_step (counties : list County.t) (m : re_match) : list County.t :=
  match py_int (group1 m) with
  | Ok county_num =>
      let county_name := strip (group2 m) in
      if (county_num <=? 47)%Z && negb (is_empty county_name)
      then counties ++ [County.mk county_num county_name]
      else counties
  | Raise _ => counties
  end.

Definition parse_counties (schedule_text : str) : list County.t :=
  fold_left county_step (finditer county_at (firstn 8000 schedule_text) 0 0) [].

Definition schedule_content (number : Z) (schedule_text : str) : content :=
  if (number =? 1)%Z then Counties (parse_counties schedule_text)
  else if (number =? 2)%Z then Fixed schedule_2_content
  else if (number =? 3)%Z then Fixed schedule_3_content
  else if (number =? 4)%Z then Fixed schedule_4_content
  else if (number =? 5)%Z then Fixed schedule_5_content
  else if (number =? 6)%Z then Fixed schedule_6_content
  else Fixed (JObject []).

Definition parse_schedules (content_text : str) : list Schedule.t :=
  match find_sub (u "FIRST SCHEDULE") content_text 0 with
  | None => []
  | Some start =>
      let schedule_text := skipn start content_text in
      map (fun info =>
             match info with
             | (number, title, reference) =>
                 Schedule.mk number title reference (schedule_content number schedule_text)
             end) schedule_info
  end.

(** ** parse_constitution *)

Module Document.
Record t := mk {
  preamble : str;
  chapters : list Chapter.t;
  schedules : list Schedule.t
}.
End Document.

(** Truth value of [None] or an integer. *)
Definition truthy (o : option nat) : bool :=
  match o with
  | Some (S _) => true
  | _ => false
  end.

(** The loop that looks for the preamble: [lines] is [lines[i:]]; the
    result is [(preamble_start, preamble_end)]. *)
Fixpoint find_preamble (lines : list str) (i : nat) (preamble_start : option nat)
    : option nat * option nat :=
  match lines with
  | [] => (preamble_start, None)
  | line :: rest =>
      let preamble_start :=
        match preamble_start with
        | None =>
            if str_eqb (strip line) (u "PREAMBLE") && (200 <? i)
            then Some (i + 1) else None
        | Some _ => preamble_start
        end in
      let found_end :=
        match preamble_start with
        | Some start =>
            truthy preamble_start && startswith (u "CHAPTER ONE") (strip line)
            && (start <? i)
        | None => false
        end in
      if found_end then (preamble_start, Some i)
      else find_preamble rest (S i) preamble_start
  end.

(** [lines[i]] *)
Definition index {A} (l : list A) (i : nat) : result A :=
  match nth_error l i with
  | Some a => Ok a
  | None => Raise IndexError
  end.

(** The loop that collects the preamble lines. *)
Definition preamble_step (lines : list str) (preamble_lines : list str) (i : nat)
    : result (list str) :=
  raw <- index lines i ;;
  let line := strip raw in
  if negb (is_empty line) && negb (startswith (u "Constitution of Kenya") line)
     && negb (str_eqb line (u "THE CONSTITUTION OF KENYA"))
  then Ok (preamble_lines ++ [line])
  else Ok preamble_lines.

(** The text of the preamble ("Extract preamble text"). *)
Definition preamble_text (lines : list str) (preamble_start preamble_end : option nat)
    : result str :=
  match preamble_start, preamble_end with
  | Some s, Some e =>
      if truthy preamble_start && truthy preamble_end then
        preamble_lines <- foldM (preamble_step lines) (seq s (e - s)) [] ;;
        Ok (join [SPACE] preamble_lines)
      else Ok []
  | _, _ => Ok []
  end.

(** [content_start] and [content_text]. *)
Definition content_start (preamble_end : option nat) : nat :=
  match preamble_end with
  | Some e => if truthy preamble_end then e else 0
  | None => 0
  end.

Definition content_text_of (lines : list str) (preamble_end : option nat) : str :=
  join [LF] (skipn (content_start preamble_end) lines).

Definition chapter_words : list str :=
  [u "ONE"; u "TWO"; u "THREE"; u "FOUR"; u "FIVE"; u "SIX"; u "SEVEN"; u "EIGHT";
   u "NINE"; u "TEN"; u "ELEVEN"; u "TWELVE"; u "THIRTEEN"; u "FOURTEEN";
   u "FIFTEEN"; u "SIXTEEN"; u "SEVENTEEN"; u "EIGHTEEN"].

Definition word_to_num : dict :=
  dict_of
    [(u "ONE", 1); (u "TWO", 2); (u "THREE", 3); (u "FOUR", 4); (u "FIVE", 5);
     (u "SIX", 6); (u "SEVEN", 7); (u "EIGHT", 8); (u "NINE", 9); (u "TEN", 10);
     (u "ELEVEN", 11); (u "TWELVE", 12); (u "THIRTEEN", 13); (u "FOURTEEN", 14);
     (u "FIFTEEN", 15); (u "SIXTEEN", 16); (u "SEVENTEEN", 17); (u "EIGHTEEN", 18)]%Z.

(** The class of the separator: an em dash or a hyphen. *)
Definition is_dash (c : char) : bool := (c =? EM_DASH)%N || (c =? HYPHEN)%N.

(** The alternation of the ordinal words, then the separator and the title
    [([^\n]+)]: the first alternative with which the rest of the pattern
    matches. *)
Fixpoint word_dash_title (words : list str) (s : str) : option (str * str) :=
  match words with
  | [] => None
  | w :: ws =>
      let this :=
        if startswith w s then
          match skipn (length w) s with
          | d :: r =>
              if is_dash d then
                match takewhile not_lf r with
                | [] => None
                | t => Some (w, t)
                end
              else None
          | [] => None
          end
        else None in
      match this with
      | Some g => Some g
      | None => word_dash_title ws s
      end
  end.

(** A match of [chapter_pattern] at the head of [s]. *)
Definition chapter_at (s : str) : option (nat * (str * str)) :=
  if startswith (u "CHAPTER") s then
    spaces_then 1 (fun j rest =>
      match word_dash_title chapter_words rest with
      | Some (w, t) => Some (7 + j + length w + 1 + length t, (w, t))
      | None => None
      end) (skipn 7 s)
  else None.

Section Segmenter.

Variable lower : str -> str.

(** The loop over [chapter_matches]: [ms] is [chapter_matches[idx:]]. *)
Fixpoint parse_chapters (content_text : str) (ms : list re_match)
    : result (list Chapter.t) :=
  match ms with
  | [] => Ok []
  | m :: rest =>
      let chapter_title := strip (group2 m) in
      chapter_num <- dict_index word_to_num (group1 m) ;;
      let chapter_start := m_end m in
      let chapter_end :=
        match rest with
        | next :: _ => m_start next
        | [] =>
            match find_sub (u "FIRST SCHEDULE") (skipn chapter_start content_text) 0 with
            | Some k => chapter_start + k
            | None => length content_text
            end
        end in
      let chapter_content := slice content_text chapter_start chapter_end in
      articles <- parse_articles_improved lower chapter_content chapter_num ;;
      chapters <- parse_chapters content_text rest ;;
      Ok (Chapter.mk chapter_num chapter_title articles :: chapters)
  end.

(** [parse_constitution], from the content of the file on. *)
Definition parse_constitution (content : str) : result Document.t :=
  let lines := split_nl content in
  let preamble_start := fst (find_preamble lines 0 None) in
  let preamble_end := snd (find_preamble lines 0 None) in
  preamble <- preamble_text lines preamble_start preamble_end ;;
  let content_text := content_text_of lines preamble_end in
  let chapter_matches := finditer chapter_at content_text 0 0 in
  chapters <- parse_chapters content_text chapter_matches ;;
  Ok (Document.mk preamble chapters (parse_schedules content_text)).

End Segmenter.

(** * Vocabulary of the properties *)

Definition is_ascii_digit (c : char) : Prop := (48 <= c <= 57)%N.

(** A non-empty string of the digits 0 to 9. *)
Definition numeric_string (s : str) : Prop :=
  s <> [] /\ Forall is_ascii_digit s.

(** A string made of exactly one letter a to z. *)
Definition lowercase_letter (s : str) : Prop :=
  exists c, s = [c] /\ (97 <= c <= 122)%N.

(** The lines that the loop of [parse_clauses] does not skip. *)
Definition body_line (raw : str) : bool :=
  negb (is_empty (strip raw))
  && negb (startswith (u "Constitution of Kenya") (strip raw)).

Definition subclause_ok (sc : SubClause.t) : Prop :=
  lowercase_letter (SubClause.label sc).

Definition clause_ok (c : Clause.t) : Prop :=
  numeric_string (Clause.number c) /\ Forall subclause_ok (Clause.subClauses c).

Record state_ok (st : clause_state) : Prop := {
  ok_clauses : Forall clause_ok (clauses st);
  ok_subclauses : Forall subclause_ok (current_subclauses st);
  ok_current : forall n, current_clause_num st = Some n -> (0 <= n)%Z;
  ok_implicit : (0 <= implicit_clause_num st)%Z
}.


(** ** Vocabulary for the clause parser *)

(** The body lines of the worked example of the clause parser, and the
    result the specification announces for them. *)
Definition sample_body : list str :=
  [u "(1) First part."; u "(2) (a) alpha text"; u "(b) beta text"; u "(i) sub-i text"].

Definition sample_announced : list Clause.t :=
  [Clause.mk (u "1") (u "First part.") [];
   Clause.mk (u "2") []
     [SubClause.mk (u "a") (u "alpha text");
      SubClause.mk (u "b") (u "beta text (i) sub-i text")]].

(** The state of the parser after the line [(1) x]. *)
Definition after_clause_one : clause_state :=
  mkState [] (Some 1%Z) [u "x"] [] 2%Z.

(** The number of the clause that an explicit marker line opens, if [raw] is
    such a line and [int] reads its number. *)
Definition marker_number (raw : str) : option str :=
  match clause_match (strip raw) with
  | Some (g1, _) =>
      match py_int g1 with
      | Ok n => Some (py_str n)
      | Raise _ => None
      end
  | None => None
  end.

Definition option_list {A} (o : option A) : list A :=
  match o with
  | Some a => [a]
  | None => []
  end.

(** The numbers of the explicit marker lines, in order. *)
Definition explicit_numbers (lines : list str) : list str :=
  flat_map (fun raw => option_list (marker_number raw)) lines.

(** The number of the implicit clause: there is one when the first line
    that is not skipped is not an explicit marker. *)
Definition implicit_numbers (lines : list str) : list str :=
  match filter body_line lines with
  | raw :: _ =>
      match marker_number raw with
      | Some _ => []
      | None => [u "1"]
      end
  | [] => []
  end.

(** The clause numbers that the state of the parser stands for. *)
Definition numbers_of (st : clause_state) : list str :=
  map Clause.number (flush st).

(** An explicit marker line whose number has more digits than [int]
    converts. *)
Definition overlong_marker (raw : str) : bool :=
  match clause_match (strip raw) with
  | Some (g1, _) => int_max_str_digits <? length g1
  | None => false
  end.

(** A marker line whose number has 4301 digits. *)
Definition overlong_marker_line : str :=
  LPAREN :: repeat 49%N 4301 ++ u ") All sovereign power belongs to the people.".


(** ** Vocabulary for the title resolver *)

(** One title is a prefix of the other. *)
Definition related (known_title normalized : str) : bool :=
  startswith known_title normalized || startswith normalized known_title.

(** [str.lower] on strings of ASCII characters. *)
Definition ascii_lower (s : str) : str :=
  map (fun c => if (65 <=? c)%N && (c <=? 90)%N then (c + 32)%N else c) s.

Definition entry_eqb (a b : str * Z) : bool :=
  str_eqb (fst a) (fst b) && (snd a =? snd b)%Z.

(** Two entries with the same key have the same value, unless the key is
    [k0]. *)
Definition agree_except (k0 : str) (a b : str * Z) : bool :=
  negb (str_eqb (fst a) (fst b)) || (snd a =? snd b)%Z || str_eqb (fst a) k0.

(** ** Vocabulary for the schedule extractor *)

(** The entries of the county list: the matches of [county_pattern] in the
    first 8000 characters of the schedule section. *)
Definition schedule_entries (schedule_text : str) : list re_match :=
  finditer county_at (firstn 8000 schedule_text) 0 0.

Definition parsed_number (m : re_match) : option Z :=
  match py_int (group1 m) with
  | Ok n => Some n
  | Raise _ => None
  end.


(** The same, for the entries whose trimmed name is not empty. *)
Definition entry_accepted (m : re_match) : list County.t :=
  match parsed_number m with
  | Some n =>
      if (n <=? 47)%Z && negb (is_empty (strip (group2 m)))
      then [County.mk n (strip (group2 m))] else []
  | None => []
  end.

(** The content of schedule 1 among the schedules. *)
Definition schedule_1_content (schedules : list Schedule.t) : list content :=
  map Schedule.content (filter (fun s => (Schedule.number s =? 1)%Z) schedules).



(** A schedule section whose first entry has the number 1 written with 4301
    digits, 4300 zeros before the 1. *)
Definition long_number_section : str :=
  u "FIRST SCHEDULE
" ++ repeat 48%N 4300 ++ u "1. Mombasa
2. Kwale
".

(** ** Vocabulary for the document segmenter *)

Definition is_preamble_line (line : str) : bool :=
  str_eqb (strip line) (u "PREAMBLE").

Definition starts_chapter_one (line : str) : bool :=
  startswith (u "CHAPTER ONE") (strip line).

(** The index of the first line, at index [from] or later, that satisfies
    [f]; [lines] is the list from index [i] on. *)
Fixpoint first_from (f : str -> bool) (lines : list str) (i from : nat) : option nat :=
  match lines with
  | [] => None
  | line :: rest =>
      if (from <=? i) && f line then Some i else first_from f rest (S i) from
  end.

(** The end of the preamble as C5 states it: the first line that begins with
    "CHAPTER ONE" after the accepted "PREAMBLE" line. *)
Definition preamble_end_as_stated (lines : list str) : Prop :=
  forall p,
    first_from is_preamble_line lines 0 201 = Some p ->
    snd (find_preamble lines 0 None) = first_from starts_chapter_one lines 0 (p + 1).

(** A document where "CHAPTER ONE" follows the "PREAMBLE" line at once. *)
Definition early_chapter_lines : list str :=
  repeat [] 201 ++
  [u "PREAMBLE"; u "CHAPTER ONE"; u "We, the people"; u "CHAPTER ONE-SOVEREIGNTY"].

(** A content whose "PREAMBLE" line, at index 201, is followed by no
    "CHAPTER ONE" line. *)
Definition unfinished_preamble : str :=
  repeat LF 201 ++ u "PREAMBLE
We, the people of Kenya".

(** The number of the ordinal word of a chapter header. *)
Definition header_number (m : re_match) : Z :=
  match dict_get word_to_num (group1 m) with
  | Some n => n
  | None => 0%Z
  end.

Definition chapter_numbers (r : result Document.t) : list Z :=
  match r with
  | Ok doc => map Chapter.number (Document.chapters doc)
  | Raise _ => []
  end.

(** A document with the header of chapter two before that of chapter one. *)
Definition swapped_chapters : str :=
  u "CHAPTER TWO-A
CHAPTER ONE-B".

Definition article_ok (a : Article.t) : Prop :=
  Forall clause_ok (Article.clauses a).

Definition chapter_ok (c : Chapter.t) : Prop :=
  Forall article_ok (Chapter.articles c).

Definition document_ok (d : Document.t) : Prop :=
  Forall chapter_ok (Document.chapters d).

(** A small document with a preamble, one chapter of two articles and a
    schedule section with three counties. *)
Definition minimal_document : str :=
  repeat LF 201 ++ u "PREAMBLE
We, the people of Kenya
Constitution of Kenya, 2010
ADOPT this Constitution.
CHAPTER ONE-SOVEREIGNTY OF THE PEOPLE
Sovereignty of the people.
(1) All sovereign power belongs to the people.
(2) The people may exercise their power
(a) directly; or
(b) through representatives.
Defence of this Constitution.
Any attempt to establish a government otherwise
is unlawful.
FIRST SCHEDULE
1. Mombasa
2. Kwale
3. Kilifi
".

(** The tree of that document. *)
Definition minimal_clause : Clause.t :=
  Clause.mk (u "2") (u "The people may exercise their power")
    [SubClause.mk (u "a") (u "directly; or");
     SubClause.mk (u "b") (u "through representatives.")].

Definition minimal_article : Article.t :=
  Article.mk 1%Z (u "Sovereignty of the people")
    [Clause.mk (u "1") (u "All sovereign power belongs to the people.") [];
     minimal_clause].

Definition minimal_chapter : Chapter.t :=
  Chapter.mk 1%Z (u "SOVEREIGNTY OF THE PEOPLE")
    [minimal_article;
     Article.mk 3%Z (u "Defence of this Constitution")
       [Clause.mk (u "1")
          (u "Any attempt to establish a government otherwise is unlawful.") []]].

(** A document with one chapter and one article, whose only body line is a
    marker with a number of 4301 digits. *)
Definition overlong_marker_document : str :=
  u "CHAPTER ONE-SOVEREIGNTY OF THE PEOPLE
Sovereignty of the people.
" ++ overlong_marker_line.

(** The preamble, the chapter and article numbers and the counties of a
    document. *)
Definition outline (r : result Document.t)
    : option (str * list (Z * list (Z * list str)) * list content) :=
  match r with
  | Ok doc =>
      Some (Document.preamble doc,
            map (fun c =>
                   (Chapter.number c,
                    map (fun a => (Article.number a,
                                   map Clause.number (Article.clauses a)))
                        (Chapter.articles c)))
                (Document.chapters doc),
            schedule_1_content (Document.schedules doc))
  | Raise _ => None
  end.

(** ** Vocabulary for further properties of the parser *)

(** A string without leading and without trailing whitespace. *)
Definition trimmed (s : str) : Prop :=
  match s with
  | [] => True
  | c :: _ => isspace c = false
  end
  /\ match rev s with
     | [] => True
     | c :: _ => isspace c = false
     end.

(** A string without a line feed. *)
Definition one_line (s : str) : Prop := Forall (fun c => c <> LF) s.

(** [lit] occurs in [s]. *)
Definition occurs (lit s : str) : Prop :=
  exists before after, s = before ++ lit ++ after.

(** The texts of a clause: the text of the clause is trimmed, and the text
    of each sub-clause is not empty and holds no line feed. *)
Definition clause_texts_ok (c : Clause.t) : Prop :=
  trimmed (Clause.text c)
  /\ Forall (fun sc => SubClause.text sc <> [] /\ one_line (SubClause.text sc))
            (Clause.subClauses c).

(** The first line that [parse_clauses] does not skip is an explicit marker
    line. *)
Definition starts_with_marker (lines : list str) : Prop :=
  match filter body_line lines with
  | raw :: _ => clause_match (strip raw) <> None
  | [] => False
  end.

(** The concatenation of two results. *)
Definition result_app {A} (a b : result (list A)) : result (list A) :=
  x <- a ;; y <- b ;; Ok (x ++ y).

Definition sub_text_ok (sc : SubClause.t) : Prop :=
  SubClause.text sc <> [] /\ one_line (SubClause.text sc).

(** What [parse_clauses] builds a clause from: the decimal form of a
    non-negative integer, which is short enough for [int] to read it back,
    the trimmed join of text fragments, and sub-clauses with one-line
    texts. *)
Definition clause_shape (c : Clause.t) : Prop :=
  exists n fragments,
    (0 <= n)%Z
    /\ Clause.number c = py_str n
    /\ length (py_str n) <= int_max_str_digits
    /\ Clause.text c = strip (join [SPACE] fragments)
    /\ Forall sub_text_ok (Clause.subClauses c).

(** The number of the clause in progress, or of the implicit clause that the
    next line may open. *)
Definition pending_number (st : clause_state) : Z :=
  match current_clause_num st with
  | Some n => n
  | None => implicit_clause_num st
  end.

Record shape_inv (st : clause_state) : Prop := {
  shape_clauses : Forall clause_shape (clauses st);
  shape_subclauses : Forall sub_text_ok (current_subclauses st);
  shape_number : length (py_str (pending_number st)) <= int_max_str_digits
}.

(** The state [st] with the clauses [saved] ahead of its own. *)
Definition with_saved (saved : list Clause.t) (st : clause_state) : clause_state :=
  mkState (saved ++ clauses st) (current_clause_num st) (current_clause_text st)
          (current_subclauses st) (implicit_clause_num st).

(** The value of a decimal numeral read after the digits of value [acc]. *)
Fixpoint uint_value (d : Decimal.uint) (acc : Z) : Z :=
  match d with
  | Decimal.Nil => acc
  | Decimal.D0 d => uint_value d (10 * acc)
  | Decimal.D1 d => uint_value d (10 * acc + 1)
  | Decimal.D2 d => uint_value d (10 * acc + 2)
  | Decimal.D3 d => uint_value d (10 * acc + 3)
  | Decimal.D4 d => uint_value d (10 * acc + 4)
  | Decimal.D5 d => uint_value d (10 * acc + 5)
  | Decimal.D6 d => uint_value d (10 * acc + 6)
  | Decimal.D7 d => uint_value d (10 * acc + 7)
  | Decimal.D8 d => uint_value d (10 * acc + 8)
  | Decimal.D9 d => uint_value d (10 * acc + 9)
  end%Z.

(** A county record as the extractor accepts it. *)
Definition county_ok (c : County.t) : Prop :=
  (0 <= County.number c <= 47)%Z
  /\ County.name c <> []
  /\ trimmed (County.name c)
  /\ Forall (fun ch => is_name_char ch = true) (County.name c).

Definition schedule_ok (s : Schedule.t) : Prop :=
  match Schedule.content s with
  | Counties counties => Forall county_ok counties
  | Fixed _ => True
  end.

(** The schedules 2 to 6, which do not depend on the text. *)
Definition fixed_schedules : list Schedule.t :=
  [Schedule.mk 2%Z (u "NATIONAL SYMBOLS") (u "Article 9(2)")
     (Fixed schedule_2_content);
   Schedule.mk 3%Z (u "NATIONAL OATHS AND AFFIRMATIONS")
     (u "Articles 74, 141(3), 148(5), 152(4)") (Fixed schedule_3_content);
   Schedule.mk 4%Z
     (u "DISTRIBUTION OF FUNCTIONS BETWEEN NATIONAL AND COUNTY GOVERNMENTS")
     (u "Articles 185(2), 186(1), 187(2)") (Fixed schedule_4_content);
   Schedule.mk 5%Z (u "LEGISLATION TO BE ENACTED BY PARLIAMENT")
     (u "Article 261(1)") (Fixed schedule_5_content);
   Schedule.mk 6%Z (u "TRANSITIONAL AND CONSEQUENTIAL PROVISIONS")
     (u "Article 262") (Fixed schedule_6_content)].

(** The tree of [minimal_document]. *)
Definition minimal_tree : Document.t :=
  Document.mk (u "We, the people of Kenya ADOPT this Constitution.")
    [minimal_chapter]
    (Schedule.mk 1%Z (u "COUNTIES") (u "Article 6(1)")
       (Counties [County.mk 1%Z (u "Mombasa"); County.mk 2%Z (u "Kwale");
                  County.mk 3%Z (u "Kilifi")])
     :: fixed_schedules).

(** [s] is [before ++ lit ++ after] and [lit] does not occur earlier. *)
Definition first_occurrence (lit s before after : str) : Prop :=
  s = before ++ lit ++ after
  /\ forall before' after', s = before' ++ lit ++ after' ->
       length before <= length before'.

(** [ms] are the matches of a pattern in [text] from position [lo] on, as
    [re.finditer] returns them: each match starts at the first position, at
    or after the end of the previous one, where the pattern matches; they do
    not overlap; and the pattern matches nowhere after the last one. *)
Fixpoint leftmost_matches (at_head : str -> option (nat * (str * str)))
    (text : str) (lo : nat) (ms : list re_match) : Prop :=
  match ms with
  | [] => forall p, lo <= p < length text -> at_head (skipn p text) = None
  | m :: rest =>
      lo <= m_start m
      /\ (forall p, lo <= p < m_start m -> at_head (skipn p text) = None)
      /\ at_head (skipn (m_start m) text)
         = Some (m_end m - m_start m, (group1 m, group2 m))
      /\ m_start m < m_end m <= length text
      /\ leftmost_matches at_head text (m_end m) rest
  end.

(** The text of a chapter header: "CHAPTER", whitespace, an ordinal word, a
    dash and a title that runs to the end of the line. *)
Definition header_text (text : str) (m : re_match) : Prop :=
  exists ws d,
    slice text (m_start m) (m_end m)
    = u "CHAPTER" ++ ws ++ group1 m ++ d :: group2 m
    /\ ws <> [] /\ forallb isspace ws = true
    /\ is_dash d = true
    /\ In (group1 m) chapter_words
    /\ group2 m <> [] /\ one_line (group2 m)
    /\ match skipn (m_end m) text with
       | [] => True
       | c :: _ => c = LF
       end.

(** ** Vocabulary for the article detector *)

(** The line indices of the positions increase, from [lo] on. *)
Fixpoint lines_increasing (lo : nat) (ps : list position) : Prop :=
  match ps with
  | [] => True
  | p :: rest => lo <= pos_line p /\ lines_increasing (S (pos_line p)) rest
  end.

(** A position points to a candidate title line of [lines] that the next
    non-blank line confirms, and holds the title of that line. *)
Definition title_position (lines : list str) (p : position) : Prop :=
  exists raw next_raw,
    nth_error lines (pos_line p) = Some raw
    /\ is_candidate (strip raw) = true
    /\ pos_title p = strip (drop_last (strip raw))
    /\ find nonblank (skipn (S (pos_line p)) lines) = Some next_raw
    /\ confirms (strip next_raw) = true.

(** The title line and the body lines of each article, one article after
    the other; the body lines are the [article_lines] of the second pass. *)
Fixpoint articles_cover (lines : list str) (positions : list position) : list str :=
  match positions with
  | [] => []
  | p :: rest =>
      let end_line :=
        match rest with
        | next :: _ => pos_line next
        | [] => length lines
        end in
      option_list (nth_error lines (pos_line p))
      ++ slice lines (pos_line p + 1) end_line
      ++ articles_cover lines rest
  end.

Definition article_ok_fields (a : Article.t) : Prop :=
  (1 <= Article.number a)%Z
  /\ Article.title a <> []
  /\ trimmed (Article.title a)
  /\ length (Article.title a) < 149.

(** ** Vocabulary for normalized titles and for the table *)

(** No two spaces side by side. *)
Fixpoint single_spaced (t : str) : Prop :=
  match t with
  | c :: (d :: _) as rest => ~ (c = SPACE /\ d = SPACE) /\ single_spaced rest
  | _ => True
  end.

(** A character that [normalize_title] leaves in a title: not a dash other
    than the hyphen, not a ligature, and no whitespace other than the space. *)
Definition normalized_char (c : char) : Prop :=
  c <> EM_DASH /\ c <> EN_DASH /\ c <> LIGATURE_FI /\ c <> LIGATURE_FL
  /\ (isspace c = true -> c = SPACE).

(** The value of the last entry written with the key [k]. *)
Fixpoint last_written (entries : list (str * Z)) (k : str) : option Z :=
  match entries with
  | [] => None
  | (k', v) :: rest =>
      match last_written rest k with
      | Some v' => Some v'
      | None => if str_eqb k' k then Some v else None
      end
  end.

(** The keys in the order in which they are first written; [seen] are the
    keys written before. *)
Fixpoint first_written (seen : list str) (entries : list (str * Z)) : list str :=
  match entries with
  | [] => []
  | (k, _) :: rest =>
      if existsb (str_eqb k) seen then first_written seen rest
      else k :: first_written (seen ++ [k]) rest
  end.

(** ** Vocabulary for the document tree *)

Definition article_tree_ok (a : Article.t) : Prop :=
  article_ok_fields a /\ Forall clause_texts_ok (Article.clauses a).

Definition chapter_tree_ok (c : Chapter.t) : Prop :=
  trimmed (Chapter.title c) /\ one_line (Chapter.title c)
  /\ Forall article_tree_ok (Chapter.articles c).
(** * Properties *)

(** ** Characters, digits and integers *)

Lemma todecimal_range c d : todecimal c = Some d -> (0 <= d <= 9)%Z.
Proof.
  unfold todecimal.
  destruct (find _ _) as [z|] eqn:F; [|discriminate].
  apply find_some in F. destruct F as [_ F].
  apply andb_true_iff in F. destruct F as [F1 F2].
  apply N.leb_le in F1. apply N.ltb_lt in F2.
  intros H. injection H as <-. lia.
Qed.

Lemma takewhile_forallb f s : forallb f (takewhile f s) = true.
Proof.
  induction s as [|c r IH]; simpl; [reflexivity|].
  destruct (f c) eqn:E; simpl; [rewrite E, IH|]; reflexivity.
Qed.

Lemma takewhile_dropwhile f s : takewhile f s ++ dropwhile f s = s.
Proof.
  induction s as [|c r IH]; simpl; [reflexivity|].
  destruct (f c); simpl; [rewrite IH|]; reflexivity.
Qed.

Lemma int_digits_ok s : forall acc,
  forallb isdecimal s = true -> (0 <= acc)%Z ->
  exists n, int_digits s acc = Ok n /\ (0 <= n)%Z.
Proof.
  induction s as [|c r IH]; intros acc Hd Hacc; cbn [int_digits].
  - exists acc. split; [reflexivity|assumption].
  - simpl in Hd. apply andb_true_iff in Hd. destruct Hd as [Hc Hr].
    unfold isdecimal in Hc.
    destruct (todecimal c) as [d|] eqn:E; [|discriminate].
    apply todecimal_range in E. apply IH; [assumption|lia].
Qed.

Lemma int_digits_raises s : forall acc e,
  int_digits s acc = Raise e -> e = ValueError.
Proof.
  induction s as [|c r IH]; intros acc e; cbn [int_digits]; [discriminate|].
  destruct (todecimal c); [apply IH|]. intros H. now injection H as <-.
Qed.

Lemma int_digits_nonneg s : forall acc n,
  int_digits s acc = Ok n -> (0 <= acc)%Z -> (0 <= n)%Z.
Proof.
  induction s as [|c r IH]; intros acc n; cbn [int_digits].
  - intros H. injection H as <-. trivial.
  - destruct (todecimal c) as [d|] eqn:E; [|discriminate].
    apply todecimal_range in E. intros H Hacc. apply (IH _ _ H). lia.
Qed.

(** [int] raises nothing but [ValueError]. *)
Lemma py_int_raises s e : py_int s = Raise e -> e = ValueError.
Proof.
  unfold py_int. destruct s as [|c r]; [intros H; now injection H as <-|].
  destruct (int_max_str_digits <? length (c :: r));
    [intros H; now injection H as <-|apply int_digits_raises].
Qed.

Lemma py_int_nonneg s n : py_int s = Ok n -> (0 <= n)%Z.
Proof.
  unfold py_int. destruct s as [|c r]; [discriminate|].
  destruct (int_max_str_digits <? length (c :: r)); [discriminate|].
  intros H. apply (int_digits_nonneg _ _ _ H). lia.
Qed.

Lemma py_int_length s n : py_int s = Ok n -> length s <= int_max_str_digits.
Proof.
  unfold py_int. destruct s as [|c r]; [discriminate|].
  destruct (int_max_str_digits <? length (c :: r)) eqn:L; [discriminate|].
  intros _. now apply Nat.ltb_ge in L.
Qed.

(** On a string of digits [int] returns when the string has at most
    [int_max_str_digits] digits, and raises [ValueError] when it has more. *)
Lemma py_int_ok s :
  s <> [] -> forallb isdecimal s = true -> length s <= int_max_str_digits ->
  exists n, py_int s = Ok n /\ (0 <= n)%Z.
Proof.
  intros Hne Hd Hlen. unfold py_int. destruct s as [|c r]; [congruence|].
  apply Nat.ltb_ge in Hlen. rewrite Hlen.
  apply int_digits_ok; [assumption|lia].
Qed.

Lemma py_int_long s :
  int_max_str_digits < length s -> py_int s = Raise ValueError.
Proof.
  intros H. unfold py_int. destruct s as [|c r]; [reflexivity|].
  apply Nat.ltb_lt in H. now rewrite H.
Qed.

Lemma string_of_uint_digits d :
  Forall is_ascii_digit (u (DecimalString.NilEmpty.string_of_uint d)).
Proof.
  induction d; cbn [DecimalString.NilEmpty.string_of_uint u list_ascii_of_string map];
    constructor; try assumption; cbv; split; discriminate.
Qed.

Lemma string_of_uint_nonempty d :
  d <> Decimal.Nil -> u (DecimalString.NilEmpty.string_of_uint d) <> [].
Proof.
  destruct d; intros H; try congruence; discriminate.
Qed.

Lemma py_str_numeric n : (0 <= n)%Z -> numeric_string (py_str n).
Proof.
  intros Hn. unfold py_str, numeric_string.
  destruct n as [|p|p]; [| |lia].
  - split; [discriminate|]. constructor; [cbv; split; discriminate|constructor].
  - cbn [Z.to_int DecimalString.NilZero.string_of_int].
    unfold DecimalString.NilZero.string_of_uint.
    destruct (Pos.to_uint p) eqn:E;
      [split; [discriminate|]; constructor; [cbv; split; discriminate|constructor]|..];
      rewrite <- E;
      (split; [apply string_of_uint_nonempty; congruence|apply string_of_uint_digits]).
Qed.

(** ** The patterns *)

(** The sub-clause pattern takes a one-letter roman numeral that is followed
    by text, and nothing else that the roman-numeral pattern takes. *)
Example subclause_pattern_on_roman_numerals :
  subclause_match (u "(i) sub-i text") = Some (u "i", u "sub-i text")
  /\ subclause_match (u "(ii) y") = None
  /\ subsubclause_match (u "(ii) y") = Some (u "ii", u "y")
  /\ subclause_match (u "(i)") = None
  /\ subsubclause_match (u "(i)") = Some (u "i", []).
Proof. repeat split. Qed.

(** The remainder of an explicit marker line is the text of the clause. *)
Example clause_pattern_remainder :
  clause_match (u "(2) (a) alpha text") = Some (u "2", u "(a) alpha text")
  /\ clause_match (u "(12)") = Some (u "12", []).
Proof. repeat split. Qed.

Lemma try_down_Some {A} (k : nat -> option A) hi lo a :
  try_down k hi lo = Some a -> exists j, lo <= j <= hi /\ k j = Some a.
Proof.
  induction hi as [|hi IH]; simpl.
  - destruct (0 <? lo) eqn:L; [discriminate|]. apply Nat.ltb_ge in L.
    destruct (k 0) eqn:K; [|discriminate].
    intros H. injection H as <-. exists 0. split; [lia|assumption].
  - destruct (S hi <? lo) eqn:L; [discriminate|]. apply Nat.ltb_ge in L.
    destruct (k (S hi)) eqn:K.
    + intros H. injection H as <-. exists (S hi). split; [lia|assumption].
    + intros H. apply IH in H. destruct H as (j & Hj & Kj).
      exists j. split; [lia|assumption].
Qed.

Lemma spaces_then_Some {A} lo (k : nat -> str -> option A) s a :
  spaces_then lo k s = Some a -> exists j, lo <= j /\ k j (skipn j s) = Some a.
Proof.
  unfold spaces_then. intros H. apply try_down_Some in H.
  destruct H as (j & Hj & Kj). exists j. split; [lia|assumption].
Qed.

Lemma clause_match_group1 line g1 g2 :
  clause_match line = Some (g1, g2) ->
  g1 <> [] /\ forallb isdecimal g1 = true.
Proof.
  unfold clause_match. destruct line as [|c r]; [discriminate|].
  destruct (c =? LPAREN)%N; [|discriminate].
  destruct (takewhile isdecimal r) as [|d ds] eqn:T; [discriminate|].
  destruct (dropwhile isdecimal r) as [|c2 r2]; [discriminate|].
  destruct (c2 =? RPAREN)%N; [|discriminate].
  intros H. apply spaces_then_Some in H. destruct H as (j & _ & H).
  destruct (dot_star_eol (skipn j r2)); [|discriminate].
  injection H as <- _. split; [discriminate|].
  rewrite <- T. apply takewhile_forallb.
Qed.

(** The number of an explicit marker is read when it has at most
    [int_max_str_digits] digits; reading a longer one raises. *)
Lemma clause_match_int line g1 g2 :
  clause_match line = Some (g1, g2) ->
  if int_max_str_digits <? length g1 then py_int g1 = Raise ValueError
  else exists n, py_int g1 = Ok n /\ (0 <= n)%Z.
Proof.
  intros H. apply clause_match_group1 in H. destruct H as [H1 H2].
  destruct (int_max_str_digits <? length g1) eqn:L.
  - apply Nat.ltb_lt in L. now apply py_int_long.
  - apply Nat.ltb_ge in L. now apply py_int_ok.
Qed.

Lemma subclause_match_label line label text :
  subclause_match line = Some (label, text) -> lowercase_letter label.
Proof.
  unfold subclause_match.
  set (after_open := match line with
                     | c :: r => if (c =? LPAREN)%N then r else line
                     | [] => line
                     end).
  destruct after_open as [|c r]; [discriminate|].
  destruct (is_lower_az c) eqn:L; [|discriminate].
  intros H. apply spaces_then_Some in H. destruct H as (j & _ & H).
  destruct (dot_plus_eol _); [|discriminate].
  injection H as <- _. exists c. split; [reflexivity|].
  unfold is_lower_az in L. apply andb_true_iff in L. destruct L as [L1 L2].
  apply N.leb_le in L1. apply N.leb_le in L2. lia.
Qed.

Lemma subsubclause_match_shape line g1 g2 :
  subsubclause_match line = Some (g1, g2) ->
  exists c r, line = LPAREN :: c :: r /\ is_ivx c = true.
Proof.
  unfold subsubclause_match. destruct line as [|c0 r]; [discriminate|].
  destruct (c0 =? LPAREN)%N eqn:E; [|discriminate].
  apply N.eqb_eq in E. subst c0.
  destruct r as [|c r']; [discriminate|]. simpl.
  destruct (is_ivx c) eqn:I; [|discriminate].
  intros _. exists c, r'. split; [reflexivity|assumption].
Qed.

Lemma is_ivx_not_decimal c : is_ivx c = true -> isdecimal c = false.
Proof.
  unfold is_ivx. intros H.
  apply orb_true_iff in H. destruct H as [H|H];
    [apply orb_true_iff in H; destruct H as [H|H]|];
    apply N.eqb_eq in H; subst c; reflexivity.
Qed.

(** A line that bears a roman-numeral marker is not an explicit clause
    marker, is not blank and is not a page marker. *)
Lemma roman_line_not_clause line g1 g2 :
  subsubclause_match line = Some (g1, g2) ->
  clause_match line = None /\ is_empty line = false
  /\ startswith (u "Constitution of Kenya") line = false.
Proof.
  intros H. apply subsubclause_match_shape in H.
  destruct H as (c & r & -> & I). apply is_ivx_not_decimal in I.
  repeat split. unfold clause_match. simpl. now rewrite I.
Qed.

(** ** The clause parser, one line at a time *)

Lemma clause_match_body_line raw g1 g2 :
  clause_match (strip raw) = Some (g1, g2) -> body_line raw = true.
Proof.
  unfold body_line, clause_match. destruct (strip raw) as [|c r]; [discriminate|].
  destruct (c =? LPAREN)%N eqn:E; [|discriminate].
  apply N.eqb_eq in E. subst c. reflexivity.
Qed.

Lemma clause_step_skip st raw :
  body_line raw = false -> clause_step st raw = Ok st.
Proof.
  unfold body_line, clause_step. intros H.
  destruct (is_empty (strip raw)); [reflexivity|].
  destruct (startswith _ (strip raw)); [reflexivity|discriminate].
Qed.

Lemma clause_step_body st raw :
  body_line raw = true ->
  clause_step st raw =
  let line := strip raw in
  match clause_match line with
  | Some (g1, g2) =>
      n <- py_int g1 ;;
      Ok (mkState (flush st) (Some n) (if is_empty g2 then [] else [g2]) [] (n + 1)%Z)
  | None =>
      match subclause_match line, current_clause_num st with
      | Some (label, text), Some _ =>
          Ok (mkState (clauses st) (current_clause_num st) (current_clause_text st)
                      (current_subclauses st ++ [SubClause.mk label text])
                      (implicit_clause_num st))
      | _, _ =>
          match subsubclause_match line, current_subclauses st with
          | Some (g1, g2), _ :: _ =>
              Ok (mkState (clauses st) (current_clause_num st) (current_clause_text st)
                          (append_to_last (current_subclauses st)
                             (u " (" ++ g1 ++ u ") " ++ g2))
                          (implicit_clause_num st))
          | _, _ =>
              match current_clause_num st with
              | None =>
                  Ok (mkState (clauses st) (Some (implicit_clause_num st)) [line] []
                              (implicit_clause_num st + 1)%Z)
              | Some _ =>
                  Ok (mkState (clauses st) (current_clause_num st)
                              (current_clause_text st ++ [line])
                              (current_subclauses st) (implicit_clause_num st))
              end
          end
      end
  end.
Proof.
  unfold body_line, clause_step. intros H.
  destruct (is_empty (strip raw)); [discriminate|].
  destruct (startswith _ (strip raw)); [discriminate|reflexivity].
Qed.

(** An explicit marker saves the clause in progress and opens a new one,
    when its number can be read. *)
Lemma clause_step_explicit st raw g1 g2 :
  clause_match (strip raw) = Some (g1, g2) ->
  clause_step st raw =
  (n <- py_int g1 ;;
   Ok (mkState (flush st) (Some n) (if is_empty g2 then [] else [g2]) [] (n + 1)%Z)).
Proof.
  intros M.
  rewrite clause_step_body by (eapply clause_match_body_line; eassumption).
  cbv zeta. now rewrite M.
Qed.

(** A line raises exactly when it is a marker line with an overlong number,
    and then it raises [ValueError]. *)
Lemma clause_step_overlong st raw :
  overlong_marker raw = true -> clause_step st raw = Raise ValueError.
Proof.
  unfold overlong_marker.
  destruct (clause_match (strip raw)) as [[g1 g2]|] eqn:M; [|discriminate].
  intros L. rewrite (clause_step_explicit st raw g1 g2 M).
  pose proof (clause_match_int _ _ _ M) as I. rewrite L in I. now rewrite I.
Qed.

Lemma clause_step_returns st raw :
  overlong_marker raw = false -> exists st', clause_step st raw = Ok st'.
Proof.
  intros L. destruct (body_line raw) eqn:B.
  2:{ exists st. now apply clause_step_skip. }
  unfold overlong_marker in L.
  destruct (clause_match (strip raw)) as [[g1 g2]|] eqn:M.
  { rewrite (clause_step_explicit st raw g1 g2 M).
    pose proof (clause_match_int _ _ _ M) as I. rewrite L in I.
    destruct I as (n & -> & _). eexists. reflexivity. }
  rewrite clause_step_body by assumption. cbv zeta. rewrite M.
  destruct (subclause_match (strip raw)) as [[? ?]|];
    destruct (current_clause_num st);
    try (eexists; reflexivity);
    destruct (subsubclause_match (strip raw)) as [[? ?]|];
    destruct (current_subclauses st); eexists; reflexivity.
Qed.

Lemma clause_step_raises st raw e :
  clause_step st raw = Raise e -> e = ValueError /\ overlong_marker raw = true.
Proof.
  intros H. destruct (overlong_marker raw) eqn:L.
  - rewrite clause_step_overlong in H by assumption. injection H as <-. now split.
  - destruct (clause_step_returns st raw L) as (st' & E). congruence.
Qed.

(** ** Well-formed clauses *)

Lemma initial_state_ok : state_ok initial_state.
Proof.
  split; simpl; try constructor; try discriminate. 
Qed.

Lemma flush_ok st : state_ok st -> Forall clause_ok (flush st).
Proof.
  intros [Hc Hs Hn _]. unfold flush.
  destruct (current_clause_num st) as [n|]; [|assumption].
  apply Forall_app. split; [assumption|].
  constructor; [|constructor]. split; simpl; [|assumption].
  apply py_str_numeric. now apply Hn.
Qed.

Lemma append_to_last_ok subs suffix :
  Forall subclause_ok subs -> Forall subclause_ok (append_to_last subs suffix).
Proof.
  induction subs as [|s rest IH]; intros H; [constructor|].
  inversion H as [|? ? Hs Hrest]; subst. simpl.
  destruct rest as [|s' rest'].
  - constructor; [exact Hs|constructor].
  - constructor; [exact Hs|]. apply IH. exact Hrest.
Qed.

Lemma clause_step_ok st raw st' :
  state_ok st -> clause_step st raw = Ok st' -> state_ok st'.
Proof.
  intros Hst. destruct (body_line raw) eqn:B.
  2:{ rewrite clause_step_skip by assumption. intros H. now injection H as <-. }
  destruct (clause_match (strip raw)) as [[g1 g2]|] eqn:M.
  { rewrite (clause_step_explicit st raw g1 g2 M).
    destruct (py_int g1) as [n|e] eqn:I; [|discriminate].
    apply py_int_nonneg in I. cbn [bind]. intros H. injection H as <-.
    split; simpl; [now apply flush_ok|constructor| |lia].
    intros n' E. injection E as <-. exact I. }
  rewrite clause_step_body by assumption. cbv zeta. rewrite M.
  destruct Hst as [Hc Hs Hn Hi].
  destruct (subclause_match (strip raw)) as [[label text]|] eqn:S;
    destruct (current_clause_num st) as [n|] eqn:N;
    try (intros H; injection H as <-; split; simpl; try assumption;
         apply Forall_app; split; [assumption|];
         constructor; [|constructor];
         eapply subclause_match_label; eassumption);
    destruct (subsubclause_match (strip raw)) as [[r1 r2]|];
    destruct (current_subclauses st) as [|s0 subs] eqn:C;
    intros H; injection H as <-; split;
    cbn [clauses current_subclauses current_clause_num implicit_clause_num];
    try assumption; try constructor; try lia;
    try (intros n' E; injection E as <-; assumption).
  all: change (Forall subclause_ok
                 (append_to_last (s0 :: subs) (u " (" ++ r1 ++ u ") " ++ r2)));
    apply append_to_last_ok; assumption.
Qed.

Lemma foldM_clause_step_ok lines : forall st st',
  state_ok st -> foldM clause_step lines st = Ok st' -> state_ok st'.
Proof.
  induction lines as [|raw rest IH]; intros st st' Hst; cbn [foldM].
  - intros H. now injection H as <-.
  - destruct (clause_step st raw) as [st1|e] eqn:E; [|discriminate].
    cbn [bind]. apply IH. exact (clause_step_ok st raw st1 Hst E).
Qed.

(** The loop over the lines returns exactly when no line is a marker line
    with an overlong number; otherwise it raises [ValueError]. *)
Lemma foldM_clause_step_returns lines : forall st,
  existsb overlong_marker lines = false ->
  exists st', foldM clause_step lines st = Ok st'.
Proof.
  induction lines as [|raw rest IH]; intros st H; cbn [foldM].
  - now exists st.
  - cbn [existsb] in H. apply orb_false_iff in H. destruct H as [H1 H2].
    destruct (clause_step_returns st raw H1) as (st1 & ->). cbn [bind].
    now apply IH.
Qed.

Lemma foldM_clause_step_raises lines : forall st e,
  foldM clause_step lines st = Raise e ->
  e = ValueError /\ existsb overlong_marker lines = true.
Proof.
  induction lines as [|raw rest IH]; intros st e; cbn [foldM existsb];
    [discriminate|].
  destruct (clause_step st raw) as [st1|e1] eqn:E; cbn [bind].
  - intros H. destruct (IH _ _ H) as [-> ->]. split; [reflexivity|apply orb_true_r].
  - intros H. injection H as <-.
    destruct (clause_step_raises _ _ _ E) as [-> ->]. now split.
Qed.

(** Every clause that [parse_clauses] returns is well formed. *)
Lemma parse_clauses_ok lines cs :
  parse_clauses lines = Ok cs -> Forall clause_ok cs.
Proof.
  unfold parse_clauses.
  destruct (foldM clause_step lines initial_state) as [st|e] eqn:F; [|discriminate].
  cbn [bind]. intros H. injection H as <-.
  apply flush_ok. exact (foldM_clause_step_ok lines _ _ initial_state_ok F).
Qed.

(** [parse_clauses] returns exactly when no line is a marker line with an
    overlong number, and raises nothing but [ValueError]. *)
Lemma parse_clauses_returns lines :
  existsb overlong_marker lines = false -> exists cs, parse_clauses lines = Ok cs.
Proof.
  intros H. unfold parse_clauses.
  destruct (foldM_clause_step_returns lines initial_state H) as (st & ->).
  eexists. reflexivity.
Qed.

Lemma parse_clauses_raises lines e :
  parse_clauses lines = Raise e ->
  e = ValueError /\ existsb overlong_marker lines = true.
Proof.
  unfold parse_clauses.
  destruct (foldM clause_step lines initial_state) as [st|e1] eqn:F;
    cbn [bind]; [discriminate|].
  intros H. injection H as <-. eapply foldM_clause_step_raises. eassumption.
Qed.

(** ** The worked example of the clause parser *)

(** C1, as stated, fails: on the sample body the parser does not return the
    announced clauses. *)
Lemma C1_sample_not_as_announced :
  parse_clauses sample_body <> Ok sample_announced.
Proof. vm_compute. discriminate. Qed.

(** C1, amended: on the sample body the parser returns exactly two clauses,
    clause 1 with text "First part." and no sub-clauses, and clause 2 whose
    text is "(a) alpha text" (a marker that follows "(2)" on its line stays in
    the clause text) and whose first sub-clause is labelled b with a text
    that begins with "beta text". *)
Theorem C1_sample_body :
  exists tail more,
    parse_clauses sample_body =
    Ok [Clause.mk (u "1") (u "First part.") [];
        Clause.mk (u "2") (u "(a) alpha text")
          (SubClause.mk (u "b") (u "beta text" ++ tail) :: more)].
Proof.
  exists [], [SubClause.mk (u "i") (u "sub-i text")]. vm_compute. reflexivity.
Qed.

(** A body without markers is one implicit clause numbered 1. *)
Example plain_statements :
  parse_clauses [u "Plain statement one."; u "Plain statement two."] =
  Ok [Clause.mk (u "1") (u "Plain statement one. Plain statement two.") []].
Proof. reflexivity. Qed.

(** ** Roman-numeral lines without a sub-clause to attach to *)

(** C2, as stated, fails: after the line "(1) x" no sub-clause exists, and
    the roman-numeral line "(ii) y" is kept in the text of clause 1; with no
    clause open it becomes the text of the implicit clause. *)
Lemma C2_roman_line_not_dropped :
  let before := [u "(1) x"] in
  let raw := u "(ii) y" in
  subsubclause_match (strip raw) = Some (u "ii", u "y")
  /\ foldM clause_step before initial_state = Ok after_clause_one
  /\ current_subclauses after_clause_one = []
  /\ parse_clauses (before ++ [raw]) = Ok [Clause.mk (u "1") (u "x (ii) y") []]
  /\ parse_clauses (before ++ [raw]) <> parse_clauses before
  /\ parse_clauses [raw] = Ok [Clause.mk (u "1") (u "(ii) y") []].
Proof. vm_compute. repeat split; discriminate. Qed.

(** C2, amended: a line that bears a roman-numeral marker, met while the
    clause in progress has no sub-clause, is not dropped.  With no clause
    open it opens the implicit clause, with the whole line as its text; with
    a clause open, and unless it also matches the sub-clause pattern, the
    whole line is appended to the text of that clause. *)
Theorem C2_roman_line_kept st raw g1 g2 :
  subsubclause_match (strip raw) = Some (g1, g2) ->
  current_subclauses st = [] ->
  (current_clause_num st = None ->
   clause_step st raw =
   Ok (mkState (clauses st) (Some (implicit_clause_num st)) [strip raw] []
               (implicit_clause_num st + 1)%Z))
  /\ (forall n, current_clause_num st = Some n ->
      subclause_match (strip raw) = None ->
      clause_step st raw =
      Ok (mkState (clauses st) (Some n) (current_clause_text st ++ [strip raw]) []
                  (implicit_clause_num st))).
Proof.
  intros R C.
  destruct (roman_line_not_clause _ _ _ R) as (M & E & P).
  assert (B : body_line raw = true) by (unfold body_line; now rewrite E, P).
  rewrite clause_step_body by assumption. cbv zeta. rewrite M, R, C.
  split.
  - intros ->. destruct (subclause_match (strip raw)) as [[? ?]|]; reflexivity.
  - intros n -> ->. reflexivity.
Qed.

Lemma C2_roman_line_kept_witness :
  clause_step initial_state (u "(ii) y") =
    Ok (mkState [] (Some 1%Z) [u "(ii) y"] [] 2%Z)
  /\ clause_step after_clause_one (u "(ii) y") =
    Ok (mkState [] (Some 1%Z) [u "x"; u "(ii) y"] [] 2%Z).
Proof.
  split.
  - exact (proj1 (C2_roman_line_kept initial_state (u "(ii) y") (u "ii") (u "y")
                    eq_refl eq_refl) eq_refl).
  - exact (proj2 (C2_roman_line_kept after_clause_one (u "(ii) y") (u "ii") (u "y")
                    eq_refl eq_refl) 1%Z eq_refl eq_refl).
Defined.

(** ** Implicit and explicit clauses *)

Lemma marker_number_body_line raw s :
  marker_number raw = Some s -> body_line raw = true.
Proof.
  unfold marker_number.
  destruct (clause_match (strip raw)) as [[g1 g2]|] eqn:M; [|discriminate].
  intros _. eapply clause_match_body_line. eassumption.
Qed.

(** With a clause open, a line adds a clause number exactly when it is an
    explicit marker line. *)
Lemma clause_step_open st raw n st' :
  current_clause_num st = Some n ->
  clause_step st raw = Ok st' ->
  exists n',
    current_clause_num st' = Some n'
    /\ numbers_of st' = numbers_of st ++ option_list (marker_number raw).
Proof.
  intros N. destruct (body_line raw) eqn:B.
  2:{ rewrite clause_step_skip by assumption. intros H. injection H as <-.
      exists n. split; [assumption|].
      destruct (marker_number raw) eqn:K.
      - apply marker_number_body_line in K. congruence.
      - simpl. now rewrite app_nil_r. }
  destruct (clause_match (strip raw)) as [[g1 g2]|] eqn:M.
  - rewrite (clause_step_explicit st raw g1 g2 M).
    destruct (py_int g1) as [n'|e] eqn:I; [|discriminate]. cbn [bind].
    intros H. injection H as <-. exists n'. split; [reflexivity|].
    unfold marker_number, numbers_of. rewrite M, I. unfold flush at 1. simpl.
    now rewrite map_app.
  - assert (K : marker_number raw = None) by (unfold marker_number; now rewrite M).
    rewrite K, clause_step_body by assumption. cbv zeta. rewrite M, N.
    assert (Hsame : forall text subs,
               let st1 := mkState (clauses st) (Some n) text subs
                                  (implicit_clause_num st) in
               current_clause_num st1 = Some n
               /\ numbers_of st1 = numbers_of st ++ option_list None).
    { intros text subs. split; [reflexivity|].
      unfold numbers_of, flush. simpl. rewrite N, !map_app, app_nil_r. reflexivity. }
    destruct (subclause_match (strip raw)) as [[? ?]|];
      [intros H; injection H as <-; exists n; apply Hsame|].
    destruct (subsubclause_match (strip raw)) as [[? ?]|];
      destruct (current_subclauses st);
      intros H; injection H as <-; exists n; apply Hsame.
Qed.

Lemma foldM_clause_step_open lines : forall st n st',
  current_clause_num st = Some n ->
  foldM clause_step lines st = Ok st' ->
  numbers_of st' = numbers_of st ++ explicit_numbers lines.
Proof.
  induction lines as [|raw rest IH]; intros st n st' N; cbn [foldM].
  - intros H. injection H as <-. cbn. now rewrite app_nil_r.
  - destruct (clause_step st raw) as [st1|e] eqn:E; [|discriminate]. cbn [bind].
    destruct (clause_step_open st raw n st1 N E) as (n1 & N1 & E1).
    intros F. rewrite (IH st1 n1 st' N1 F), E1.
    unfold explicit_numbers. cbn [flat_map]. now rewrite app_assoc.
Qed.

Lemma foldM_clause_step_initial lines : forall st',
  foldM clause_step lines initial_state = Ok st' ->
  numbers_of st' = implicit_numbers lines ++ explicit_numbers lines.
Proof.
  induction lines as [|raw rest IH]; intros st'; cbn [foldM].
  - intros H. injection H as <-. reflexivity.
  - unfold implicit_numbers, explicit_numbers. cbn [filter flat_map].
    destruct (body_line raw) eqn:B.
    + destruct (clause_match (strip raw)) as [[g1 g2]|] eqn:M.
      * rewrite (clause_step_explicit initial_state raw g1 g2 M).
        destruct (py_int g1) as [n|e] eqn:I; [|discriminate]. cbn [bind].
        intros F.
        match type of F with
        | foldM _ _ ?s0 = _ =>
            rewrite (foldM_clause_step_open rest s0 n st' eq_refl F)
        end.
        unfold marker_number. rewrite M, I. reflexivity.
      * assert (K : marker_number raw = None) by (unfold marker_number; now rewrite M).
        rewrite K, clause_step_body by assumption. cbv zeta. rewrite M.
        assert (Hone : forall st0, current_clause_num st0 = Some 1%Z ->
                         numbers_of st0 = [u "1"] ->
                         foldM clause_step rest st0 = Ok st' ->
                         numbers_of st' =
                         [u "1"] ++ option_list None ++ explicit_numbers rest).
        { intros st0 N0 E0 F.
          now rewrite (foldM_clause_step_open rest st0 _ st' N0 F), E0. }
        destruct (subclause_match (strip raw)) as [[? ?]|];
          destruct (subsubclause_match (strip raw)) as [[? ?]|];
          cbn [bind]; apply Hone; reflexivity.
    + rewrite clause_step_skip by assumption. cbn [bind].
      destruct (marker_number raw) eqn:K.
      * apply marker_number_body_line in K. congruence.
      * exact (IH st').
Qed.

(** C10: the clause numbers of an article that the parser returns are those
    of its explicit marker lines, in order, preceded by "1" for the one
    implicit clause when the first line that is not skipped bears no explicit
    marker.  So at most one clause is implicit, it is the first and is
    numbered "1", and every later clause comes from an explicit marker
    line. *)
Theorem C10_implicit_clause_first lines cs :
  parse_clauses lines = Ok cs ->
  map Clause.number cs = implicit_numbers lines ++ explicit_numbers lines
  /\ length (implicit_numbers lines) <= 1
  /\ (forall s, In s (implicit_numbers lines) -> s = u "1").
Proof.
  unfold parse_clauses.
  destruct (foldM clause_step lines initial_state) as [st|e] eqn:F; [|discriminate].
  cbn [bind]. intros H. injection H as <-. repeat split.
  - exact (foldM_clause_step_initial lines st F).
  - unfold implicit_numbers. destruct (filter body_line lines) as [|raw ?]; simpl; [lia|].
    destruct (marker_number raw); simpl; lia.
  - unfold implicit_numbers. intros s.
    destruct (filter body_line lines) as [|raw ?]; simpl; [tauto|].
    destruct (marker_number raw); simpl; intuition.
Qed.

Lemma C10_implicit_clause_first_witness :
  let lines := [u "All power belongs to the people."; u "(2) It is exercised";
                u "under this Constitution."; u "(3) by the people."] in
  let cs := [Clause.mk (u "1") (u "All power belongs to the people.") [];
             Clause.mk (u "2") (u "It is exercised under this Constitution.") [];
             Clause.mk (u "3") (u "by the people.") []] in
  parse_clauses lines = Ok cs
  /\ map Clause.number cs = implicit_numbers lines ++ explicit_numbers lines
  /\ implicit_numbers lines = [u "1"]
  /\ explicit_numbers lines = [u "2"; u "3"].
Proof.
  intros lines cs.
  split; [vm_compute; reflexivity|].
  split; [|split; vm_compute; reflexivity].
  refine (proj1 (C10_implicit_clause_first lines cs _)).
  vm_compute. reflexivity.
Defined.

(** ** The table of titles *)

Lemma str_eqb_eq a : forall b, str_eqb a b = true <-> a = b.
Proof.
  induction a as [|x a IH]; intros [|y b]; simpl; split; intros H;
    try reflexivity; try discriminate.
  - apply andb_true_iff in H. destruct H as [H1 H2].
    apply N.eqb_eq in H1. apply IH in H2. now subst.
  - injection H as -> ->. rewrite N.eqb_refl. simpl. now apply IH.
Qed.

Lemma existsb_entry_In e l : existsb (entry_eqb e) l = true -> In e l.
Proof.
  intros H. apply existsb_exists in H. destruct H as ([k v] & Hin & E).
  unfold entry_eqb in E. apply andb_true_iff in E. destruct E as [E1 E2].
  simpl in E1, E2. apply str_eqb_eq in E1. apply Z.eqb_eq in E2.
  destruct e as [k' v']. simpl in *. now subst.
Qed.

Lemma dict_get_In d k v : dict_get d k = Some v -> In v (map snd d).
Proof.
  induction d as [|[k' v'] r IH]; simpl; [discriminate|].
  destruct (str_eqb k' k).
  - intros H. injection H as ->. now left.
  - intros H. right. now apply IH.
Qed.

(** The display has 270 entries for the article numbers 1 to 264, each of
    which is written at least once; the dict built from it has 268 keys. *)
Lemma articles_literal_numbers :
  length articles_literal = 270
  /\ Forall (fun e => (1 <= snd e <= 264)%Z) articles_literal
  /\ (forall n, (1 <= n <= 264)%Z -> In n (map snd articles_literal))
  /\ length get_article_number_map = 268.
Proof.
  split; [reflexivity|]. split; [|split; [|reflexivity]].
  - apply Forall_forall. intros e H.
    assert (F : forallb (fun e => (1 <=? snd e)%Z && (snd e <=? 264)%Z)
                        articles_literal = true) by (vm_compute; reflexivity).
    rewrite forallb_forall in F. specialize (F e H).
    apply andb_true_iff in F. destruct F as [F1 F2].
    apply Z.leb_le in F1. apply Z.leb_le in F2. lia.
  - intros n Hn.
    assert (F : forallb (fun k => existsb (Z.eqb (Z.of_nat k)) (map snd articles_literal))
                        (seq 1 264) = true) by (vm_compute; reflexivity).
    rewrite forallb_forall in F. specialize (F (Z.to_nat n)).
    rewrite Z2Nat.id in F by lia.
    assert (I : In (Z.to_nat n) (seq 1 264)) by (apply in_seq; lia).
    apply F in I. apply existsb_exists in I. destruct I as (x & Hx & E).
    apply Z.eqb_eq in E. now subst.
Qed.

Lemma agree_except_sound k0 (entries : list (str * Z)) :
  forallb (fun a => forallb (agree_except k0 a) entries) entries = true ->
  forall k v1 v2, In (k, v1) entries -> In (k, v2) entries -> v1 = v2 \/ k = k0.
Proof.
  intros F k v1 v2 H1 H2. rewrite forallb_forall in F. specialize (F _ H1).
  rewrite forallb_forall in F. specialize (F _ H2). unfold agree_except in F.
  cbn [fst snd] in F.
  replace (str_eqb k k) with true in F by (symmetry; now apply str_eqb_eq).
  cbn [negb orb] in F. apply orb_true_iff in F. destruct F as [F|F].
  - left. now apply Z.eqb_eq.
  - right. now apply str_eqb_eq.
Qed.

(** C3, on the code: the display writes the key "removal from office" twice,
    for the articles 168 and 251, and this is the only key written with two
    different numbers.  The dict keeps one value per key, the last one
    written, so the title resolves to 251 and no title resolves to 168
    through the table. *)
Theorem C3_removal_from_office_collides :
  In (u "removal from office", 168%Z) articles_literal
  /\ In (u "removal from office", 251%Z) articles_literal
  /\ (forall k v1 v2,
        In (k, v1) articles_literal -> In (k, v2) articles_literal ->
        v1 = v2 \/ k = u "removal from office")
  /\ dict_get get_article_number_map (u "removal from office") = Some 251%Z
  /\ (forall positions,
        resolve_article_num get_article_number_map positions
          (u "removal from office") = 251%Z)
  /\ (forall title, dict_get get_article_number_map title <> Some 168%Z).
Proof.
  split; [apply existsb_entry_In; vm_compute; reflexivity|].
  split; [apply existsb_entry_In; vm_compute; reflexivity|].
  split; [apply agree_except_sound; vm_compute; reflexivity|].
  split; [vm_compute; reflexivity|].
  split.
  - intros positions. unfold resolve_article_num.
    replace (dict_get get_article_number_map (u "removal from office"))
      with (Some 251%Z) by (vm_compute; reflexivity).
    reflexivity.
  - intros title H. apply dict_get_In in H.
    assert (F : existsb (Z.eqb 168) (map snd get_article_number_map) = false)
      by (vm_compute; reflexivity).
    assert (T : existsb (Z.eqb 168) (map snd get_article_number_map) = true).
    { apply existsb_exists. exists 168%Z. split; [assumption|apply Z.eqb_refl]. }
    congruence.
Qed.

(** ** The title resolver *)

Lemma partial_match_first items normalized : forall before known n after,
  items = before ++ (known, n) :: after ->
  related known normalized = true ->
  (forall k v, In (k, v) before -> related k normalized = false) ->
  partial_match items normalized = Some n.
Proof.
  intros before. revert items.
  induction before as [|[k0 v0] before IH]; intros items known n after -> R NR; simpl.
  - unfold related in R. now rewrite R.
  - assert (R0 : related k0 normalized = false) by (apply (NR k0 v0); now left).
    unfold related in R0. rewrite R0.
    eapply IH; [reflexivity|assumption|].
    intros k v H. apply (NR k v). now right.
Qed.

Lemma partial_match_none items normalized :
  (forall k v, In (k, v) items -> related k normalized = false) ->
  partial_match items normalized = None.
Proof.
  induction items as [|[k0 v0] items IH]; intros NR; simpl; [reflexivity|].
  assert (R0 : related k0 normalized = false) by (apply (NR k0 v0); now left).
  unfold related in R0. rewrite R0. apply IH.
  intros k v H. apply (NR k v). now right.
Qed.

Lemma forallb_unrelated (items : dict) normalized :
  forallb (fun e => negb (related (fst e) normalized)) items = true ->
  forall k v, In (k, v) items -> related k normalized = false.
Proof.
  intros F k v H. rewrite forallb_forall in F. specialize (F (k, v) H).
  simpl in F. now apply negb_true_iff in F.
Qed.

(** C4: the number of a confirmed title follows the three tiers.  It is the
    value of the table at the normalized title when there is one; otherwise
    the value of the first entry, in the order of the table, of which the
    normalized title is a prefix or which is a prefix of it; otherwise the
    number of the previous article of the chapter plus 1, and 1 for the first
    article.  The resolver is a total function, so every title gets a
    number. *)
Theorem C4_three_tier_resolution lower positions title :
  let normalized := normalize_title lower title in
  let resolved := resolve_article_num get_article_number_map positions normalized in
  (forall n, dict_get get_article_number_map normalized = Some n -> resolved = n)
  /\ (dict_get get_article_number_map normalized = None ->
      forall before known n after,
        get_article_number_map = before ++ (known, n) :: after ->
        related known normalized = true ->
        (forall k v, In (k, v) before -> related k normalized = false) ->
        resolved = n)
  /\ (dict_get get_article_number_map normalized = None ->
      (forall k v, In (k, v) get_article_number_map -> related k normalized = false) ->
      (positions = [] -> resolved = 1%Z)
      /\ (forall earlier prev, positions = earlier ++ [prev] ->
          resolved = (pos_num prev + 1)%Z)).
Proof.
  intros normalized resolved. subst resolved. unfold resolve_article_num.
  split; [|split].
  - intros n ->. reflexivity.
  - intros -> before known n after E R NR.
    now rewrite (partial_match_first _ _ before known n after E R NR).
  - intros -> NR. rewrite (partial_match_none _ _ NR). split.
    + intros ->. reflexivity.
    + intros earlier prev ->. rewrite rev_app_distr. reflexivity.
Qed.

Lemma C4_three_tier_resolution_witness :
  resolve_article_num get_article_number_map []
    (normalize_title ascii_lower (u "Culture")) = 11%Z
  /\ resolve_article_num get_article_number_map []
       (normalize_title ascii_lower (u "Cult")) = 11%Z
  /\ resolve_article_num get_article_number_map []
       (normalize_title ascii_lower (u "Zebra crossings")) = 1%Z
  /\ resolve_article_num get_article_number_map [mkPos 3 (u "Family") 45%Z]
       (normalize_title ascii_lower (u "Zebra crossings")) = 46%Z.
Proof.
  split; [|split; [|split]].
  - exact (proj1 (C4_three_tier_resolution ascii_lower [] (u "Culture")) 11%Z eq_refl).
  - refine (proj1 (proj2 (C4_three_tier_resolution ascii_lower [] (u "Cult"))) eq_refl
              (firstn 11 get_article_number_map) (u "culture") 11%Z
              (skipn 12 get_article_number_map) eq_refl eq_refl _).
    apply forallb_unrelated. reflexivity.
  - refine (proj1 (proj2 (proj2 (C4_three_tier_resolution ascii_lower []
                                   (u "Zebra crossings"))) eq_refl _) eq_refl).
    apply forallb_unrelated. reflexivity.
  - refine (proj2 (proj2 (proj2 (C4_three_tier_resolution ascii_lower
                                   [mkPos 3 (u "Family") 45%Z]
                                   (u "Zebra crossings"))) eq_refl _)
              [] (mkPos 3 (u "Family") 45%Z) eq_refl).
    apply forallb_unrelated. reflexivity.
Defined.

(** ** The schedule extractor *)

(** What holds of every match that [at_head] can return holds of the matches
    of [finditer]. *)
Lemma finditer_Forall at_head (P : str -> str -> Prop) :
  (forall s n g1 g2, at_head s = Some (n, (g1, g2)) -> P g1 g2) ->
  forall s pos skip,
    Forall (fun m => P (group1 m) (group2 m)) (finditer at_head s pos skip).
Proof.
  intros H s. induction s as [|c r IH]; intros pos skip; simpl; [constructor|].
  destruct skip as [|k]; [|apply IH].
  destruct (at_head (c :: r)) as [[[|k] [g1 g2]]|] eqn:E; try apply IH.
  constructor; [|apply IH]. simpl. eapply H. eassumption.
Qed.

Lemma county_at_group1 s n g1 g2 :
  county_at s = Some (n, (g1, g2)) ->
  g1 <> [] /\ forallb isdecimal g1 = true.
Proof.
  unfold county_at.
  destruct (takewhile isdecimal s) as [|d ds] eqn:T; [discriminate|].
  destruct (dropwhile isdecimal s) as [|c r]; [discriminate|].
  destruct (c =? DOT)%N; [|discriminate].
  intros H. apply spaces_then_Some in H. destruct H as (j & _ & H).
  destruct (lazy_name (skipn j r)); [|discriminate].
  injection H as _ <- _. split; [discriminate|].
  rewrite <- T. apply takewhile_forallb.
Qed.


Lemma fold_county_step ms : forall counties,
  fold_left county_step ms counties = counties ++ flat_map entry_accepted ms.
Proof.
  induction ms as [|m ms IH]; intros counties; simpl.
  - now rewrite app_nil_r.
  - rewrite IH. unfold county_step, entry_accepted, parsed_number.
    destruct (py_int (group1 m)) as [n|e]; [|reflexivity].
    destruct ((n <=? 47)%Z && negb (is_empty (strip (group2 m))));
      [now rewrite <- app_assoc|reflexivity].
Qed.

Lemma parse_counties_accepted schedule_text :
  parse_counties schedule_text =
  flat_map entry_accepted (schedule_entries schedule_text).
Proof. unfold parse_counties. now rewrite fold_county_step. Qed.




(** The entry "0...01. Mombasa", whose number has 4301 digits, matches the
    pattern; its number does not parse and the entry is left out. *)
Example long_number_entry_omitted :
  map (fun m => (length (group1 m), group2 m, parsed_number m))
      (schedule_entries long_number_section)
    = [(4301, u "Mombasa", None); (1, u "Kwale", Some 2%Z)]
  /\ schedule_1_content (parse_schedules long_number_section)
    = [Counties [County.mk 2%Z (u "Kwale")]].
Proof. vm_compute. split; reflexivity. Qed.

(** ** The preamble *)

Lemma first_from_ge f lines : forall i from p,
  first_from f lines i from = Some p -> i <= p /\ from <= p.
Proof.
  induction lines as [|line rest IH]; intros i from p; simpl; [discriminate|].
  destruct ((from <=? i) && f line) eqn:E.
  - intros H. injection H as <-. apply andb_true_iff in E. destruct E as [E _].
    apply Nat.leb_le in E. lia.
  - intros H. apply IH in H. lia.
Qed.

(** [first_from] returns the least index at or after [from] whose line
    satisfies [f]. *)
Lemma first_from_Some f lines : forall i from p,
  first_from f lines i from = Some p ->
  (exists line, nth_error lines (p - i) = Some line /\ f line = true)
  /\ (forall k line, from <= k -> i <= k < p ->
        nth_error lines (k - i) = Some line -> f line = false).
Proof.
  induction lines as [|line rest IH]; intros i from p; simpl; [discriminate|].
  destruct ((from <=? i) && f line) eqn:E.
  - intros H. injection H as <-. apply andb_true_iff in E. destruct E as [_ E].
    split; [|intros; lia]. exists line. now rewrite Nat.sub_diag.
  - intros H. destruct (first_from_ge _ _ _ _ _ H) as [G _].
    apply IH in H. destruct H as ((l & Hl & Fl) & Hmin). split.
    + exists l. split; [|assumption].
      replace (p - i) with (S (p - S i)) by lia. exact Hl.
    + intros k l' Hfrom Hk Hn. destruct (Nat.eq_dec k i) as [->|Hne].
      * rewrite Nat.sub_diag in Hn. simpl in Hn. injection Hn as <-.
        apply andb_false_iff in E. destruct E as [E|E]; [|assumption].
        apply Nat.leb_gt in E. lia.
      * apply (Hmin k l'); [assumption|lia|].
        replace (k - i) with (S (k - S i)) in Hn by lia. exact Hn.
Qed.

Lemma first_from_None f lines : forall i from,
  first_from f lines i from = None ->
  forall k line, from <= k -> i <= k ->
    nth_error lines (k - i) = Some line -> f line = false.
Proof.
  induction lines as [|line rest IH]; intros i from H k l Hfrom Hk Hn.
  - destruct (k - i); discriminate.
  - simpl in H. destruct ((from <=? i) && f line) eqn:E; [discriminate|].
    destruct (Nat.eq_dec k i) as [->|Hne].
    + rewrite Nat.sub_diag in Hn. simpl in Hn. injection Hn as <-.
      apply andb_false_iff in E. destruct E as [E|E]; [|assumption].
      apply Nat.leb_gt in E. lia.
    + apply (IH (S i) from H k l); [assumption|lia|].
      replace (k - i) with (S (k - S i)) in Hn by lia. exact Hn.
Qed.

(** Once the start is set, the loop looks for the first "CHAPTER ONE" line
    whose index exceeds it. *)
Lemma find_preamble_started lines : forall i s,
  0 < s ->
  find_preamble lines i (Some s) =
  (Some s, first_from starts_chapter_one lines i (s + 1)).
Proof.
  induction lines as [|line rest IH]; intros i s Hs; [reflexivity|].
  cbn [find_preamble first_from].
  destruct s as [|s']; [lia|]. cbn [truthy andb].
  fold (starts_chapter_one line).
  replace (S s' + 1 <=? i) with (S s' <? i)
    by (destruct (Nat.ltb_spec (S s') i), (Nat.leb_spec (S s' + 1) i); lia || reflexivity).
  rewrite (andb_comm (starts_chapter_one line)).
  destruct ((S s' <? i) && starts_chapter_one line); [reflexivity|].
  now apply IH.
Qed.

Lemma find_preamble_fresh lines : forall i,
  find_preamble lines i None =
  match first_from is_preamble_line lines i 201 with
  | None => (None, None)
  | Some p => (Some (p + 1), first_from starts_chapter_one lines i (p + 2))
  end.
Proof.
  induction lines as [|line rest IH]; intros i; [reflexivity|].
  cbn [find_preamble first_from].
  fold (is_preamble_line line). fold (starts_chapter_one line).
  replace (201 <=? i) with (200 <? i) by reflexivity.
  rewrite (andb_comm (200 <? i)).
  destruct (is_preamble_line line && (200 <? i)) eqn:E.
  - replace (i + 1) with (S i) by lia. cbn [truthy andb].
    replace (S i <? i) with false by (symmetry; apply Nat.ltb_ge; lia).
    rewrite andb_false_r.
    replace (i + 2 <=? i) with false by (symmetry; apply Nat.leb_gt; lia).
    cbn [andb]. rewrite find_preamble_started by lia.
    replace (S i + 1) with (i + 2) by lia. reflexivity.
  - rewrite IH.
    destruct (first_from is_preamble_line rest (S i) 201) as [p|] eqn:F;
      [|reflexivity].
    apply first_from_ge in F.
    replace (p + 2 <=? i) with false by (symmetry; apply Nat.leb_gt; lia).
    reflexivity.
Qed.

Lemma find_preamble_end_bound lines : forall i ps s e,
  find_preamble lines i ps = (s, Some e) -> i <= e < i + length lines.
Proof.
  induction lines as [|line rest IH]; intros i ps s e; simpl; [discriminate|].
  match goal with
  | |- (if ?b then _ else _) = _ -> _ => destruct b
  end.
  - intros H. injection H as _ <-. lia.
  - intros H. apply IH in H. lia.
Qed.

Lemma preamble_fold_ok lines idxs :
  (forall k, In k idxs -> k < length lines) ->
  forall acc, exists r, foldM (preamble_step lines) idxs acc = Ok r.
Proof.
  induction idxs as [|k idxs IH]; intros H acc; simpl.
  - now exists acc.
  - assert (Hk : k < length lines) by (apply H; now left).
    unfold preamble_step at 1, index.
    destruct (nth_error lines k) as [raw|] eqn:N.
    2:{ apply nth_error_None in N. lia. }
    simpl.
    match goal with
    | |- context [if ?b then _ else _] => destruct b
    end; simpl; apply IH; intros; apply H; now right.
Qed.

(** The loop over the lines of the preamble does not raise. *)
Lemma preamble_text_ok lines :
  exists text,
    preamble_text lines (fst (find_preamble lines 0 None))
                        (snd (find_preamble lines 0 None)) = Ok text.
Proof.
  destruct (find_preamble lines 0 None) as [[s|] [e|]] eqn:F;
    cbn [fst snd preamble_text]; try (now exists []).
  destruct (truthy (Some s) && truthy (Some e)); [|now exists []].
  apply find_preamble_end_bound in F.
  destruct (preamble_fold_ok lines (seq s (e - s))) with (acc := @nil str) as (r & ->).
  - intros k Hk. apply in_seq in Hk. lia.
  - simpl. now eexists.
Qed.

Lemma preamble_text_no_end lines start : preamble_text lines start None = Ok [].
Proof. destruct start; reflexivity. Qed.

Lemma split_nl_cons s : exists l ls, split_nl s = l :: ls.
Proof.
  destruct s as [|c r]; simpl; [now exists [], []|].
  destruct (c =? LF)%N; [now eexists; eexists|].
  destruct (split_nl r); now eexists; eexists.
Qed.

(** Joining the lines of a text gives the text back. *)
Lemma join_split_nl s : join [LF] (split_nl s) = s.
Proof.
  induction s as [|c r IH]; [reflexivity|]. cbn [split_nl].
  destruct (split_nl_cons r) as (l & ls & S). rewrite S in *.
  destruct (c =? LF)%N eqn:E.
  - apply N.eqb_eq in E. subst c.
    change (join [LF] ([] :: l :: ls)) with (LF :: join [LF] (l :: ls)).
    now rewrite IH.
  - destruct ls as [|l' ls]; [simpl in *; now rewrite IH|].
    change (join [LF] ((c :: l) :: l' :: ls))
      with (c :: l ++ [LF] ++ join [LF] (l' :: ls)).
    change (join [LF] (l :: l' :: ls))
      with (l ++ [LF] ++ join [LF] (l' :: ls)) in IH.
    now rewrite IH.
Qed.

(** ** Chapters and articles *)

Lemma word_dash_title_In words s w t :
  word_dash_title words s = Some (w, t) -> In w words.
Proof.
  induction words as [|w0 ws IH]; simpl; [discriminate|].
  destruct (startswith w0 s).
  - destruct (skipn (length w0) s) as [|d r]; [intros H; right; now apply IH|].
    destruct (is_dash d); [|intros H; right; now apply IH].
    destruct (takewhile not_lf r); [intros H; right; now apply IH|].
    intros H. injection H as <- _. now left.
  - intros H. right. now apply IH.
Qed.

Lemma chapter_at_word s n g1 g2 :
  chapter_at s = Some (n, (g1, g2)) -> In g1 chapter_words.
Proof.
  unfold chapter_at. destruct (startswith (u "CHAPTER") s); [|discriminate].
  intros H. apply spaces_then_Some in H. destruct H as (j & _ & H).
  destruct (word_dash_title chapter_words (skipn j (skipn 7 s))) as [[w t]|] eqn:W;
    [|discriminate].
  injection H as _ <- _. eapply word_dash_title_In. eassumption.
Qed.

(** Every ordinal word of the pattern is a key of [word_to_num]. *)
Lemma chapter_word_number w :
  In w chapter_words ->
  exists n, dict_get word_to_num w = Some n /\ (1 <= n <= 18)%Z.
Proof.
  intros H.
  assert (F : forallb (fun w => match dict_get word_to_num w with
                                | Some n => (1 <=? n)%Z && (n <=? 18)%Z
                                | None => false
                                end) chapter_words = true) by (vm_compute; reflexivity).
  rewrite forallb_forall in F. specialize (F w H).
  destruct (dict_get word_to_num w) as [n|]; [|discriminate].
  apply andb_true_iff in F. destruct F as [F1 F2].
  apply Z.leb_le in F1. apply Z.leb_le in F2. exists n. split; [reflexivity|lia].
Qed.

Lemma chapter_matches_words s pos skip :
  Forall (fun m => In (group1 m) chapter_words) (finditer chapter_at s pos skip).
Proof.
  apply (finditer_Forall chapter_at (fun g1 _ => In g1 chapter_words)).
  intros s0 n g1 g2 H. eapply chapter_at_word. eassumption.
Qed.

Lemma extract_articles_ok lines positions : forall articles,
  extract_articles lines positions = Ok articles -> Forall article_ok articles.
Proof.
  induction positions as [|p rest IH]; intros articles; cbn [extract_articles].
  - intros H. injection H as <-. constructor.
  - destruct (parse_clauses _) as [cs|e] eqn:P; [|discriminate]. cbn [bind].
    destruct (extract_articles lines rest) as [arts|e]; [|discriminate].
    cbn [bind]. intros H. injection H as <-.
    constructor; [|now apply IH]. exact (parse_clauses_ok _ _ P).
Qed.

Lemma extract_articles_raises lines positions : forall e,
  extract_articles lines positions = Raise e -> e = ValueError.
Proof.
  induction positions as [|p rest IH]; intros e; cbn [extract_articles];
    [discriminate|].
  destruct (parse_clauses _) as [cs|e1] eqn:P; cbn [bind].
  - destruct (extract_articles lines rest) as [arts|e2]; cbn [bind]; [discriminate|].
    intros H. injection H as <-. now apply IH.
  - intros H. injection H as <-. now apply parse_clauses_raises in P.
Qed.

Lemma parse_articles_improved_ok lower chapter_content chapter_num articles :
  parse_articles_improved lower chapter_content chapter_num = Ok articles ->
  Forall article_ok articles.
Proof. unfold parse_articles_improved. apply extract_articles_ok. Qed.

Lemma parse_articles_improved_raises lower chapter_content chapter_num e :
  parse_articles_improved lower chapter_content chapter_num = Raise e ->
  e = ValueError.
Proof. unfold parse_articles_improved. apply extract_articles_raises. Qed.

Lemma parse_chapters_ok lower content_text ms : forall chapters,
  Forall (fun m => In (group1 m) chapter_words) ms ->
  parse_chapters lower content_text ms = Ok chapters ->
  map Chapter.number chapters = map header_number ms
  /\ Forall chapter_ok chapters
  /\ Forall (fun c => (1 <= Chapter.number c <= 18)%Z) chapters.
Proof.
  induction ms as [|m rest IH]; intros chapters H; cbn [parse_chapters].
  - intros E. injection E as <-. repeat split; constructor.
  - inversion H as [|? ? Hm Hrest]; subst.
    destruct (chapter_word_number _ Hm) as (n & D & Hn).
    unfold dict_index. rewrite D. cbn [bind].
    destruct (parse_articles_improved lower _ n) as [arts|e] eqn:A; [|discriminate].
    cbn [bind].
    destruct (parse_chapters lower content_text rest) as [chs|e] eqn:C; [|discriminate].
    cbn [bind]. intros E. injection E as <-.
    destruct (IH chs Hrest eq_refl) as (Hnum & Hok & Hrange).
    repeat split; try (constructor; try assumption).
    + cbn [map Chapter.number]. unfold header_number at 1. rewrite D. now rewrite Hnum.
    + exact (parse_articles_improved_ok _ _ _ _ A).
Qed.

(** The lookup of the ordinal word never raises: the loop over the chapters
    raises nothing but the [ValueError] of an article body. *)
Lemma parse_chapters_raises lower content_text ms : forall e,
  Forall (fun m => In (group1 m) chapter_words) ms ->
  parse_chapters lower content_text ms = Raise e -> e = ValueError.
Proof.
  induction ms as [|m rest IH]; intros e H; cbn [parse_chapters]; [discriminate|].
  inversion H as [|? ? Hm Hrest]; subst.
  destruct (chapter_word_number _ Hm) as (n & D & Hn).
  unfold dict_index. rewrite D. cbn [bind].
  destruct (parse_articles_improved lower _ n) as [arts|e1] eqn:A; cbn [bind].
  - destruct (parse_chapters lower content_text rest) as [chs|e2] eqn:C; cbn [bind];
      [discriminate|].
    intros E. injection E as <-. now apply IH.
  - intros E. injection E as <-. now apply parse_articles_improved_raises in A.
Qed.

(** The document that [parse_constitution] returns. *)
Lemma parse_constitution_ok lower content doc :
  let lines := split_nl content in
  let bounds := find_preamble lines 0 None in
  let content_text := content_text_of lines (snd bounds) in
  let chapter_matches := finditer chapter_at content_text 0 0 in
  parse_constitution lower content = Ok doc ->
  preamble_text lines (fst bounds) (snd bounds) = Ok (Document.preamble doc)
  /\ parse_chapters lower content_text chapter_matches = Ok (Document.chapters doc)
  /\ Document.schedules doc = parse_schedules content_text
  /\ map Chapter.number (Document.chapters doc) = map header_number chapter_matches
  /\ Forall chapter_ok (Document.chapters doc)
  /\ Forall (fun c => (1 <= Chapter.number c <= 18)%Z) (Document.chapters doc).
Proof.
  intros lines bounds content_text chapter_matches.
  unfold parse_constitution. cbv zeta.
  fold lines. fold bounds. fold content_text. fold chapter_matches.
  destruct (preamble_text lines (fst bounds) (snd bounds)) as [preamble|e];
    [|discriminate].
  cbn [bind].
  destruct (parse_chapters lower content_text chapter_matches) as [chapters|e] eqn:C;
    [|discriminate].
  cbn [bind]. intros E. injection E as <-.
  cbn [Document.preamble Document.chapters Document.schedules].
  split; [reflexivity|]. split; [reflexivity|]. split; [reflexivity|].
  exact (parse_chapters_ok lower content_text chapter_matches chapters
           (chapter_matches_words _ _ _) C).
Qed.

(** [parse_constitution] raises nothing but the [ValueError] of an article
    body: the list index of the preamble loop and the lookup of the ordinal
    word never raise. *)
Lemma parse_constitution_raises lower content e :
  parse_constitution lower content = Raise e -> e = ValueError.
Proof.
  unfold parse_constitution. cbv zeta.
  destruct (preamble_text_ok (split_nl content)) as (preamble & ->). cbn [bind].
  destruct (parse_chapters lower _ _) as [chapters|e1] eqn:C; cbn [bind];
    [discriminate|].
  intros E. injection E as <-.
  exact (parse_chapters_raises lower _ _ _ (chapter_matches_words _ _ _) C).
Qed.

(** Without a chapter header [parse_constitution] returns. *)
Lemma parse_constitution_no_chapters lower content :
  let lines := split_nl content in
  let bounds := find_preamble lines 0 None in
  let content_text := content_text_of lines (snd bounds) in
  finditer chapter_at content_text 0 0 = [] ->
  exists preamble,
    preamble_text lines (fst bounds) (snd bounds) = Ok preamble
    /\ parse_constitution lower content =
       Ok (Document.mk preamble [] (parse_schedules content_text)).
Proof.
  intros lines bounds content_text H.
  destruct (preamble_text_ok lines) as (preamble & P).
  exists preamble. split; [exact P|].
  unfold parse_constitution. cbv zeta.
  subst content_text bounds lines.
  rewrite P. cbn [bind]. rewrite H. reflexivity.
Qed.

Example minimal_document_outline :
  outline (parse_constitution ascii_lower minimal_document) =
  Some (u "We, the people of Kenya ADOPT this Constitution.",
        [(1%Z, [(1%Z, [u "1"; u "2"]); (3%Z, [u "1"])])],
        [Counties [County.mk 1%Z (u "Mombasa"); County.mk 2%Z (u "Kwale");
                   County.mk 3%Z (u "Kilifi")]]).
Proof. vm_compute. reflexivity. Qed.

Example minimal_document_tree :
  parse_constitution ascii_lower minimal_document = Ok minimal_tree.
Proof. vm_compute. reflexivity. Qed.

(** ** The preamble of the document *)

(** C5, as stated, fails: in this document the first "PREAMBLE" line after
    index 200 is line 201 and the first later line that begins with
    "CHAPTER ONE" is line 202, but the preamble ends at line 204. *)
Lemma C5_end_not_first_later_line : ~ preamble_end_as_stated early_chapter_lines.
Proof.
  intros H. specialize (H 201 eq_refl). vm_compute in H. discriminate.
Qed.

(** C5, amended: the preamble starts after the first line equal to
    "PREAMBLE" whose index is greater than 200, a line at index 200 or less
    is never accepted, and the preamble ends at the first line that begins
    with "CHAPTER ONE" and whose index is greater than the start, that is at
    least two lines after the "PREAMBLE" line.  When there is no such line
    the preamble of every document that the parser returns is empty. *)
Theorem C5_preamble_bounds lower content :
  let lines := split_nl content in
  find_preamble lines 0 None =
    match first_from is_preamble_line lines 0 201 with
    | None => (None, None)
    | Some p => (Some (p + 1), first_from starts_chapter_one lines 0 (p + 2))
    end
  /\ (forall start,
        fst (find_preamble lines 0 None) = Some start ->
        201 < start
        /\ exists line,
             nth_error lines (start - 1) = Some line
             /\ is_preamble_line line = true)
  /\ (forall doc,
        parse_constitution lower content = Ok doc ->
        snd (find_preamble lines 0 None) = None -> Document.preamble doc = []).
Proof.
  intros lines. split; [apply find_preamble_fresh|]. split.
  - intros start. rewrite find_preamble_fresh.
    destruct (first_from is_preamble_line lines 0 201) as [p|] eqn:F;
      [|discriminate].
    cbn [fst]. intros H. injection H as <-.
    destruct (first_from_ge _ _ _ _ _ F) as [_ G].
    destruct (first_from_Some _ _ _ _ _ F) as ((line & N & P) & _).
    split; [lia|]. exists line. split; [|exact P].
    now replace (p + 1 - 1) with (p - 0) by lia.
  - intros doc E N.
    destruct (parse_constitution_ok lower content doc E) as (P & _).
    fold lines in P. rewrite N in P.
    rewrite preamble_text_no_end in P. now injection P as <-.
Qed.

Lemma C5_preamble_bounds_witness :
  parse_constitution ascii_lower unfinished_preamble = Ok (Document.mk [] [] [])
  /\ fst (find_preamble (split_nl unfinished_preamble) 0 None) = Some 202
  /\ 201 < 202
  /\ Document.preamble (Document.mk [] [] []) = [].
Proof.
  destruct (C5_preamble_bounds ascii_lower unfinished_preamble) as (_ & Hs & Hd).
  assert (E : parse_constitution ascii_lower unfinished_preamble
              = Ok (Document.mk [] [] [])) by (vm_compute; reflexivity).
  split; [exact E|]. split; [vm_compute; reflexivity|].
  split; [refine (proj1 (Hs 202 _)); vm_compute; reflexivity|].
  apply (Hd _ E). vm_compute. reflexivity.
Defined.

(** ** The order of the chapters *)

(** C6, as stated, fails: the chapters follow the order of their headers. *)
Lemma C6_chapters_not_increasing :
  chapter_numbers (parse_constitution ascii_lower swapped_chapters) = [2; 1]%Z
  /\ ~ StronglySorted Z.lt
         (chapter_numbers (parse_constitution ascii_lower swapped_chapters)).
Proof.
  assert (E : chapter_numbers (parse_constitution ascii_lower swapped_chapters)
              = [2; 1]%Z) by (vm_compute; reflexivity).
  split; [exact E|]. rewrite E. intros S.
  inversion S as [|? ? _ F]; subst. inversion F as [|? ? L _]; subst. lia.
Qed.

(** C6, amended: the chapter numbers of every document that the parser
    returns are the numbers, 1 to 18, of the ordinal words of the chapter
    headers, in the order in which the headers are found in the content. *)
Theorem C6_chapter_numbers_follow_headers lower content doc :
  let lines := split_nl content in
  let content_text := content_text_of lines (snd (find_preamble lines 0 None)) in
  parse_constitution lower content = Ok doc ->
  map Chapter.number (Document.chapters doc)
  = map header_number (finditer chapter_at content_text 0 0)
  /\ Forall (fun c => (1 <= Chapter.number c <= 18)%Z) (Document.chapters doc).
Proof.
  intros lines content_text E.
  destruct (parse_constitution_ok lower content doc E)
    as (_ & _ & _ & Hn & _ & Hr).
  split; assumption.
Qed.

Lemma C6_chapter_numbers_follow_headers_witness :
  let doc := Document.mk [] [Chapter.mk 2%Z (u "A") []; Chapter.mk 1%Z (u "B") []] [] in
  parse_constitution ascii_lower swapped_chapters = Ok doc
  /\ map Chapter.number (Document.chapters doc)
     = map header_number (finditer chapter_at swapped_chapters 0 0)
  /\ map Chapter.number (Document.chapters doc) = [2; 1]%Z.
Proof.
  intros doc.
  assert (E : parse_constitution ascii_lower swapped_chapters = Ok doc)
    by (vm_compute; reflexivity).
  split; [exact E|]. split; [|reflexivity].
  exact (proj1 (C6_chapter_numbers_follow_headers ascii_lower swapped_chapters doc E)).
Defined.

(** ** Clause numbers and sub-clause labels *)

(** C8: in every document that the parser returns, every clause has a number
    that is a non-empty string of decimal digits, and every sub-clause has a
    label made of one lowercase letter. *)
Theorem C8_numbers_and_labels lower content doc :
  parse_constitution lower content = Ok doc ->
  forall chapter article clause,
    In chapter (Document.chapters doc) ->
    In article (Chapter.articles chapter) ->
    In clause (Article.clauses article) ->
    numeric_string (Clause.number clause)
    /\ forall sub, In sub (Clause.subClauses clause) ->
         lowercase_letter (SubClause.label sub).
Proof.
  intros E.
  destruct (parse_constitution_ok lower content doc E)
    as (_ & _ & _ & _ & Hok & _).
  intros chapter article clause Hc Ha Hcl.
  rewrite Forall_forall in Hok. specialize (Hok chapter Hc).
  unfold chapter_ok in Hok. rewrite Forall_forall in Hok. specialize (Hok article Ha).
  unfold article_ok in Hok. rewrite Forall_forall in Hok. specialize (Hok clause Hcl).
  destruct Hok as [Hnum Hsubs]. split; [exact Hnum|].
  intros sub Hs. rewrite Forall_forall in Hsubs. exact (Hsubs sub Hs).
Qed.

Lemma C8_numbers_and_labels_witness :
  parse_constitution ascii_lower minimal_document = Ok minimal_tree
  /\ numeric_string (u "2")
  /\ lowercase_letter (u "a")
  /\ lowercase_letter (u "b").
Proof.
  assert (E : parse_constitution ascii_lower minimal_document = Ok minimal_tree)
    by (vm_compute; reflexivity).
  destruct (C8_numbers_and_labels ascii_lower minimal_document minimal_tree E
              minimal_chapter minimal_article minimal_clause)
    as [Hnum Hsubs].
  - left. reflexivity.
  - left. reflexivity.
  - right. left. reflexivity.
  - split; [exact E|]. split; [exact Hnum|]. split.
    + apply (Hsubs (SubClause.mk (u "a") (u "directly; or"))). left. reflexivity.
    + apply (Hsubs (SubClause.mk (u "b") (u "through representatives."))).
      right. left. reflexivity.
Defined.

(** ** Missing structure, and the one fatal line *)

(** C9: parsing does not complete on every text.  A clause marker whose
    number has more than 4300 digits makes [int] raise [ValueError] in
    [parse_clauses], outside any [try], and the exception leaves
    [parse_constitution]; it is the only exception that does.  Missing
    structure is not fatal: without a chapter header parsing returns, with
    no chapter and the schedules found by searching the content from its
    start, and without an accepted preamble start or end the preamble is
    empty and the content searched is the whole text. *)
Theorem C9_overlong_marker_is_fatal :
  overlong_marker overlong_marker_line = true
  /\ parse_clauses [overlong_marker_line] = Raise ValueError
  /\ parse_constitution ascii_lower overlong_marker_document = Raise ValueError
  /\ (forall lower content e,
        parse_constitution lower content = Raise e -> e = ValueError)
  /\ (forall lower content,
        let lines := split_nl content in
        let bounds := find_preamble lines 0 None in
        let content_text := content_text_of lines (snd bounds) in
        finditer chapter_at content_text 0 0 = [] ->
        exists doc,
          parse_constitution lower content = Ok doc
          /\ Document.chapters doc = []
          /\ Document.schedules doc = parse_schedules content_text
          /\ (fst bounds = None \/ snd bounds = None ->
              Document.preamble doc = [] /\ content_text = content)).
Proof.
  split; [vm_compute; reflexivity|].
  split; [vm_compute; reflexivity|].
  split; [vm_compute; reflexivity|].
  split; [exact parse_constitution_raises|].
  intros lower content lines bounds content_text H.
  destruct (parse_constitution_no_chapters lower content H) as (preamble & P & E).
  fold lines in P, E. fold bounds in P, E. fold content_text in E.
  eexists. split; [exact E|].
  cbn [Document.preamble Document.chapters Document.schedules].
  split; [reflexivity|]. split; [reflexivity|].
  intros H0.
  assert (N : snd bounds = None).
  { destruct H0 as [H0|H0]; [|exact H0]. unfold bounds in *.
    rewrite find_preamble_fresh in *.
    destruct (first_from is_preamble_line lines 0 201); [discriminate|reflexivity]. }
  rewrite N in P. rewrite preamble_text_no_end in P. injection P as <-.
  split; [reflexivity|]. unfold content_text, content_text_of. rewrite N.
  simpl. apply join_split_nl.
Qed.

(** * Further properties *)

(** ** Trimming *)

Lemma dropwhile_head f s :
  match dropwhile f s with
  | [] => True
  | c :: _ => f c = false
  end.
Proof.
  induction s as [|c r IH]; simpl; [exact I|].
  destruct (f c) eqn:E; [exact IH|exact E].
Qed.

Lemma dropwhile_fixed f s :
  match s with
  | [] => True
  | c :: _ => f c = false
  end -> dropwhile f s = s.
Proof. destruct s as [|c r]; simpl; [reflexivity|]. now intros ->. Qed.

Lemma dropwhile_suffix f s :
  exists w, s = w ++ dropwhile f s /\ forallb f w = true.
Proof.
  induction s as [|c r IH]; simpl; [now exists []|].
  destruct (f c) eqn:E.
  - destruct IH as (w & H & F). exists (c :: w). simpl. rewrite E, F.
    split; [now rewrite <- H|reflexivity].
  - now exists [].
Qed.

Lemma forallb_rev_eq {A} (f : A -> bool) l : forallb f (rev l) = forallb f l.
Proof.
  induction l as [|a l IH]; simpl; [reflexivity|].
  rewrite forallb_app, IH. simpl. rewrite andb_true_r. apply andb_comm.
Qed.

(** [strip] removes a run of whitespace at each end and nothing else. *)
Lemma strip_decompose s :
  exists w1 w2,
    s = w1 ++ strip s ++ w2
    /\ forallb isspace w1 = true /\ forallb isspace w2 = true.
Proof.
  unfold strip, rstrip, lstrip.
  destruct (dropwhile_suffix isspace s) as (w1 & H1 & F1).
  destruct (dropwhile_suffix isspace (rev (dropwhile isspace s))) as (w2 & H2 & F2).
  exists w1, (rev w2). repeat split; [|assumption|now rewrite forallb_rev_eq].
  rewrite <- rev_app_distr, <- H2, rev_involutive. exact H1.
Qed.

Lemma strip_trimmed s : trimmed (strip s).
Proof.
  unfold trimmed, strip, rstrip, lstrip. rewrite rev_involutive.
  split; [|apply dropwhile_head].
  pose proof (dropwhile_head isspace s) as Hh.
  set (a := dropwhile isspace s) in *.
  destruct (dropwhile_suffix isspace (rev a)) as (w & H & _).
  set (b := dropwhile isspace (rev a)) in *.
  destruct b as [|c0 b0] eqn:B; [exact I|].
  assert (Ha : a = rev (c0 :: b0) ++ rev w).
  { rewrite <- rev_app_distr, <- H. now rewrite rev_involutive. }
  destruct (rev (c0 :: b0)) as [|c r] eqn:R.
  - apply (f_equal (@length _)) in R. rewrite length_rev in R. discriminate.
  - rewrite Ha in Hh. exact Hh.
Qed.

Lemma strip_of_trimmed s : trimmed s -> strip s = s.
Proof.
  intros [H1 H2]. unfold strip, rstrip, lstrip.
  rewrite (dropwhile_fixed _ s H1), (dropwhile_fixed _ (rev s) H2).
  apply rev_involutive.
Qed.

Lemma strip_idempotent s : strip (strip s) = strip s.
Proof. apply strip_of_trimmed, strip_trimmed. Qed.

Lemma strip_incl s c : In c (strip s) -> In c s.
Proof.
  intros H. destruct (strip_decompose s) as (w1 & w2 & E & _).
  rewrite E. apply in_or_app. right. apply in_or_app. now left.
Qed.

Lemma strip_nonempty c r : isspace c = false -> strip (c :: r) <> [].
Proof.
  intros Hc E. destruct (strip_decompose (c :: r)) as (w1 & w2 & H & F1 & F2).
  rewrite E in H. simpl in H.
  assert (F : forallb isspace (c :: r) = true).
  { rewrite H. rewrite forallb_app. now rewrite F1, F2. }
  simpl in F. rewrite Hc in F. discriminate.
Qed.

Lemma takewhile_not_lf_one_line s : one_line (takewhile not_lf s).
Proof.
  induction s as [|c r IH]; simpl; [constructor|].
  destruct (not_lf c) eqn:E; [|constructor].
  constructor; [|exact IH]. unfold not_lf in E.
  apply negb_true_iff in E. now apply N.eqb_neq in E.
Qed.

(** ** Decimal numbers *)

Lemma int_digits_string_of_uint d : forall acc,
  int_digits (u (DecimalString.NilEmpty.string_of_uint d)) acc
  = Ok (uint_value d acc).
Proof.
  induction d; intros acc;
    cbn [DecimalString.NilEmpty.string_of_uint u list_ascii_of_string map
         int_digits uint_value];
    try reflexivity;
    match goal with
    | |- context [todecimal ?c] =>
        replace (todecimal c) with (Some (Z.of_N (c - 48))) by reflexivity
    end;
    rewrite IHd; f_equal; f_equal; cbn; lia.
Qed.

Lemma uint_value_pos d : forall acc,
  uint_value d (Zpos acc) = Zpos (Pos.of_uint_acc d acc).
Proof.
  induction d; intros acc; cbn [uint_value Pos.of_uint_acc];
    try reflexivity; rewrite <- IHd; f_equal; lia.
Qed.

Lemma uint_value_zero d : uint_value d 0 = Z.of_N (Pos.of_uint d).
Proof.
  induction d; cbn [uint_value Pos.of_uint]; try reflexivity;
    try exact IHd;
    change (10 * 0 + 1)%Z with 1%Z; change (10 * 0 + 2)%Z with 2%Z;
    change (10 * 0 + 3)%Z with 3%Z; change (10 * 0 + 4)%Z with 4%Z;
    change (10 * 0 + 5)%Z with 5%Z; change (10 * 0 + 6)%Z with 6%Z;
    change (10 * 0 + 7)%Z with 7%Z; change (10 * 0 + 8)%Z with 8%Z;
    change (10 * 0 + 9)%Z with 9%Z;
    rewrite uint_value_pos; reflexivity.
Qed.

Lemma pow10_succ k : (10 ^ Z.of_nat (S k) = 10 * 10 ^ Z.of_nat k)%Z.
Proof. rewrite Nat2Z.inj_succ. apply Z.pow_succ_r. lia. Qed.

Lemma pow10_pos k : (0 < 10 ^ Z.of_nat k)%Z.
Proof. apply Z.pow_pos_nonneg; lia. Qed.

(** The value of [k] digits read after [acc] is below [(acc + 1) * 10 ^ k]. *)
Lemma int_digits_below s : forall acc n,
  int_digits s acc = Ok n -> (0 <= acc)%Z ->
  (n < (acc + 1) * 10 ^ Z.of_nat (length s))%Z.
Proof.
  induction s as [|c r IH]; intros acc n; cbn [int_digits length].
  - intros H _. injection H as <-. change (10 ^ Z.of_nat 0)%Z with 1%Z. lia.
  - destruct (todecimal c) as [d|] eqn:E; [|discriminate].
    apply todecimal_range in E. intros H Hacc.
    apply IH in H; [|lia]. rewrite pow10_succ.
    pose proof (pow10_pos (length r)). nia.
Qed.

(** A decimal numeral is worth at least [acc * 10 ^ k] when its [k] digits
    are read after [acc]. *)
Lemma uint_value_above d : forall acc,
  (0 <= acc)%Z -> (acc * 10 ^ Z.of_nat (Decimal.nb_digits d) <= uint_value d acc)%Z.
Proof.
  induction d; intros acc Hacc; cbn [Decimal.nb_digits uint_value];
    [change (10 ^ Z.of_nat 0)%Z with 1%Z; lia|..];
    rewrite pow10_succ;
    (eapply Z.le_trans; [|apply IHd; lia]);
    pose proof (pow10_pos (Decimal.nb_digits d)); nia.
Qed.

Lemma string_of_uint_length d :
  length (u (DecimalString.NilEmpty.string_of_uint d)) = Decimal.nb_digits d.
Proof.
  induction d;
    cbn [DecimalString.NilEmpty.string_of_uint u list_ascii_of_string map length
         Decimal.nb_digits];
    try reflexivity; f_equal; exact IHd.
Qed.

(** The decimal numeral of a positive number has no leading zero, so a
    numeral of [k] digits is worth at least [10 ^ (k - 1)]. *)
Lemma to_uint_above p :
  (10 ^ Z.of_nat (Decimal.nb_digits (Pos.to_uint p) - 1) <= Zpos p)%Z.
Proof.
  pose proof (DecimalPos.Unsigned.of_to p) as OT.
  pose proof (DecimalPos.Unsigned.to_of (Pos.to_uint p)) as TO.
  rewrite OT in TO. cbn [N.to_uint] in TO.
  pose proof (DecimalPos.Unsigned.to_uint_nonzero p) as NZ.
  assert (V : uint_value (Pos.to_uint p) 0 = Zpos p).
  { rewrite uint_value_zero, OT. reflexivity. }
  destruct (Pos.to_uint p) as [|d|d|d|d|d|d|d|d|d|d];
    [discriminate| |
     cbn [Decimal.nb_digits]; rewrite Nat.sub_succ, Nat.sub_0_r;
     rewrite <- V; cbn [uint_value];
     match goal with
     | |- (_ <= uint_value d ?k)%Z =>
         pose proof (uint_value_above d k ltac:(lia));
         pose proof (pow10_pos (Decimal.nb_digits d)); nia
     end ..].
  exfalso. rewrite DecimalFacts.unorm_D0 in TO.
  assert (NN : d <> Decimal.Nil) by (intros ->; now apply NZ).
  pose proof (DecimalFacts.nb_digits_unorm d NN) as L.
  rewrite <- TO in L. cbn [Decimal.nb_digits] in L. lia.
Qed.

(** The decimal form of a number below [10 ^ k] has at most [k] digits. *)
Lemma py_str_length n k :
  (0 <= n < 10 ^ Z.of_nat k)%Z -> 1 <= k -> length (py_str n) <= k.
Proof.
  intros [H0 Hk] K. destruct n as [|p|p]; [exact K| |lia].
  unfold py_str. cbn [Z.to_int DecimalString.NilZero.string_of_int].
  unfold DecimalString.NilZero.string_of_uint.
  pose proof (DecimalPos.Unsigned.to_uint_nonnil p) as NN.
  pose proof (to_uint_above p) as A.
  assert (L : length (u (DecimalString.NilEmpty.string_of_uint (Pos.to_uint p))) <= k).
  { rewrite string_of_uint_length.
    assert (Decimal.nb_digits (Pos.to_uint p) - 1 < k); [|lia].
    apply Nat2Z.inj_lt. apply (Z.pow_lt_mono_r_iff 10); lia. }
  destruct (Pos.to_uint p); [congruence|exact L ..].
Qed.

(** The decimal form of what [int] reads is not longer than what it read:
    [str] stays within the limit of the conversions. *)
Lemma py_int_str_length s n :
  py_int s = Ok n -> length (py_str n) <= int_max_str_digits.
Proof.
  intros H. pose proof (py_int_length s n H) as L.
  pose proof (py_int_nonneg s n H) as N.
  apply Nat.le_trans with (length s); [|exact L].
  unfold py_int in H. destruct s as [|c r]; [discriminate|].
  destruct (int_max_str_digits <? length (c :: r)); [discriminate|].
  apply int_digits_below in H; [|lia].
  apply py_str_length; [lia|cbn [length]; lia].
Qed.

(** Reading the decimal form of a non-negative integer gives it back, when
    the form is within the limit of [int]. *)
Lemma py_int_py_str n :
  (0 <= n)%Z -> length (py_str n) <= int_max_str_digits ->
  py_int (py_str n) = Ok n.
Proof.
  intros Hn L. unfold py_int. apply Nat.ltb_ge in L. rewrite L. clear L.
  destruct n as [|p|p]; [reflexivity| |lia].
  unfold py_str. cbn [Z.to_int DecimalString.NilZero.string_of_int].
  unfold DecimalString.NilZero.string_of_uint.
  pose proof (DecimalPos.Unsigned.to_uint_nonnil p) as NN.
  pose proof (DecimalPos.Unsigned.of_to p) as OT.
  destruct (Pos.to_uint p) as [|d|d|d|d|d|d|d|d|d|d] eqn:E; [congruence|..];
    rewrite <- E in *;
    (assert (NE : u (DecimalString.NilEmpty.string_of_uint (Pos.to_uint p)) <> [])
       by (apply string_of_uint_nonempty; congruence));
    (destruct (u (DecimalString.NilEmpty.string_of_uint (Pos.to_uint p))) eqn:S;
       [congruence|]);
    rewrite <- S, int_digits_string_of_uint, uint_value_zero, OT; reflexivity.
Qed.

(** ** Lines that the clause parser skips *)

Lemma clause_step_strip st raw : clause_step st (strip raw) = clause_step st raw.
Proof. unfold clause_step. now rewrite strip_idempotent. Qed.

Lemma foldM_clause_step_body_lines lines : forall st,
  foldM clause_step (filter body_line lines) st = foldM clause_step lines st.
Proof.
  induction lines as [|raw rest IH]; intros st; [reflexivity|].
  cbn [filter foldM]. destruct (body_line raw) eqn:B.
  - cbn [foldM]. destruct (clause_step st raw); [apply IH|reflexivity].
  - rewrite clause_step_skip by assumption. apply IH.
Qed.

Lemma foldM_clause_step_strip lines : forall st,
  foldM clause_step (map strip lines) st = foldM clause_step lines st.
Proof.
  induction lines as [|raw rest IH]; intros st; [reflexivity|].
  cbn [map foldM]. rewrite clause_step_strip.
  destruct (clause_step st raw); [apply IH|reflexivity].
Qed.

(** X1: blank lines and lines that begin with "Constitution of Kenya" do not
    change the result of [parse_clauses], and neither does whitespace around
    a line. *)
Theorem parse_clauses_skips_noise lines :
  parse_clauses (filter body_line lines) = parse_clauses lines
  /\ parse_clauses (map strip lines) = parse_clauses lines.
Proof.
  unfold parse_clauses.
  now rewrite foldM_clause_step_body_lines, foldM_clause_step_strip.
Qed.


(** ** Explicit markers are clause boundaries *)

Lemma flush_with_saved saved st : flush (with_saved saved st) = saved ++ flush st.
Proof.
  unfold flush, with_saved. cbn.
  destruct (current_clause_num st); [now rewrite app_assoc|reflexivity].
Qed.

Lemma clause_step_with_saved saved st raw :
  clause_step (with_saved saved st) raw =
  match clause_step st raw with
  | Ok st' => Ok (with_saved saved st')
  | Raise e => Raise e
  end.
Proof.
  destruct (body_line raw) eqn:B.
  2:{ now rewrite !clause_step_skip by assumption. }
  rewrite !clause_step_body by assumption. cbv zeta.
  rewrite flush_with_saved.
  destruct (clause_match (strip raw)) as [[g1 g2]|].
  { destruct (py_int g1); reflexivity. }
  cbn [with_saved current_clause_num current_subclauses clauses
       current_clause_text implicit_clause_num].
  destruct (subclause_match (strip raw)) as [[? ?]|];
    destruct (current_clause_num st);
    try reflexivity;
    destruct (subsubclause_match (strip raw)) as [[? ?]|];
    destruct (current_subclauses st); reflexivity.
Qed.

Lemma foldM_with_saved saved lines : forall st,
  foldM clause_step lines (with_saved saved st) =
  match foldM clause_step lines st with
  | Ok st' => Ok (with_saved saved st')
  | Raise e => Raise e
  end.
Proof.
  induction lines as [|raw rest IH]; intros st; [reflexivity|].
  cbn [foldM]. rewrite clause_step_with_saved.
  destruct (clause_step st raw) as [st1|e]; [|reflexivity].
  cbn [bind]. apply IH.
Qed.

Lemma foldM_app {A S} (f : S -> A -> result S) l1 : forall l2 s,
  foldM f (l1 ++ l2) s = s1 <- foldM f l1 s ;; foldM f l2 s1.
Proof.
  induction l1 as [|a l1 IH]; intros l2 s; [reflexivity|].
  cbn [app foldM]. destruct (f s a); [apply IH|reflexivity].
Qed.

(** From any state, lines that begin with an explicit marker first save the
    clause in progress and then proceed as from the initial state. *)
Lemma foldM_after_marker lines : forall st,
  starts_with_marker lines ->
  foldM clause_step lines st =
  match foldM clause_step lines initial_state with
  | Ok st' => Ok (with_saved (flush st) st')
  | Raise e => Raise e
  end.
Proof.
  induction lines as [|raw rest IH]; intros st H; [contradiction|].
  unfold starts_with_marker in H. cbn [filter] in H.
  destruct (body_line raw) eqn:B.
  - destruct (clause_match (strip raw)) as [[g1 g2]|] eqn:M; [clear H|congruence].
    cbn [foldM].
    rewrite (clause_step_explicit st raw g1 g2 M),
            (clause_step_explicit initial_state raw g1 g2 M).
    destruct (py_int g1) as [n|e]; [|reflexivity]. cbn [bind].
    change (flush initial_state) with (@nil Clause.t).
    match goal with
    | |- foldM _ _ ?a = match foldM _ _ ?b with _ => _ end =>
        replace a with (with_saved (flush st) b)
          by (unfold with_saved; cbn; now rewrite app_nil_r)
    end.
    apply foldM_with_saved.
  - cbn [foldM]. rewrite !clause_step_skip by assumption. cbn [bind].
    apply IH. exact H.
Qed.

(** X3: an explicit marker is a clause boundary.  When the second part of a
    body begins (after skipped lines) with an explicit marker line, parsing
    the whole body gives the clauses of the first part followed by those of
    the second. *)
Theorem parse_clauses_app_marker l1 l2 :
  starts_with_marker l2 ->
  parse_clauses (l1 ++ l2) = result_app (parse_clauses l1) (parse_clauses l2).
Proof.
  intros H. unfold parse_clauses, result_app. rewrite foldM_app.
  destruct (foldM clause_step l1 initial_state) as [st1|e]; [|reflexivity].
  cbn [bind]. rewrite (foldM_after_marker l2 st1 H).
  destruct (foldM clause_step l2 initial_state) as [st2|e]; [|reflexivity].
  cbn [bind]. now rewrite flush_with_saved.
Qed.

Lemma parse_clauses_app_marker_witness :
  parse_clauses ([u "(1) one"; u "(a) first"] ++ [u ""; u "(2) two"; u "more"])
  = Ok [Clause.mk (u "1") (u "one") [SubClause.mk (u "a") (u "first")];
        Clause.mk (u "2") (u "two more") []].
Proof.
  rewrite (parse_clauses_app_marker [u "(1) one"; u "(a) first"]
             [u ""; u "(2) two"; u "more"]).
  - reflexivity.
  - unfold starts_with_marker. vm_compute. discriminate.
Defined.

(** ** The shape of the clauses *)

Lemma dot_plus_eol_text s g : dot_plus_eol s = Some g -> g <> [] /\ one_line g.
Proof.
  unfold dot_plus_eol. pose proof (takewhile_not_lf_one_line s) as O.
  destruct (takewhile not_lf s) as [|c w]; [discriminate|].
  destruct (at_dollar _); [|discriminate].
  intros H. injection H as <-. split; [discriminate|exact O].
Qed.

Lemma dot_star_eol_text s g : dot_star_eol s = Some g -> one_line g.
Proof.
  unfold dot_star_eol. destruct (at_dollar _); [|discriminate].
  intros H. injection H as <-. apply takewhile_not_lf_one_line.
Qed.

Lemma subclause_match_text line label text :
  subclause_match line = Some (label, text) -> text <> [] /\ one_line text.
Proof.
  unfold subclause_match.
  set (after_open := match line with
                     | c :: r => if (c =? LPAREN)%N then r else line
                     | [] => line
                     end).
  destruct after_open as [|c r]; [discriminate|].
  destruct (is_lower_az c); [|discriminate].
  intros H. apply spaces_then_Some in H. destruct H as (j & _ & H).
  destruct (dot_plus_eol _) as [g|] eqn:D; [|discriminate].
  injection H as _ <-. eapply dot_plus_eol_text. eassumption.
Qed.

Lemma subsubclause_match_groups line g1 g2 :
  subsubclause_match line = Some (g1, g2) -> one_line g1 /\ one_line g2.
Proof.
  unfold subsubclause_match. destruct line as [|c r]; [discriminate|].
  destruct (c =? LPAREN)%N; [|discriminate].
  destruct (takewhile is_ivx r) as [|d ds] eqn:T; [discriminate|].
  destruct (dropwhile is_ivx r) as [|c2 r2]; [discriminate|].
  destruct (c2 =? RPAREN)%N; [|discriminate].
  intros H. apply spaces_then_Some in H. destruct H as (j & _ & H).
  destruct (dot_star_eol (skipn j r2)) as [g|] eqn:D; [|discriminate].
  injection H as <- <-. split; [|eapply dot_star_eol_text; eassumption].
  rewrite <- T. pose proof (takewhile_forallb is_ivx r) as F.
  rewrite forallb_forall in F. apply Forall_forall. intros x Hx.
  specialize (F x Hx). unfold is_ivx in F. intros ->. discriminate.
Qed.

Lemma append_to_last_text subs suffix :
  one_line suffix ->
  Forall sub_text_ok subs -> Forall sub_text_ok (append_to_last subs suffix).
Proof.
  intros Hs. induction subs as [|s rest IH]; intros H; [constructor|].
  inversion H as [|? ? [Hne Hol] Hrest]; subst. cbn [append_to_last].
  destruct rest as [|s' rest'].
  - constructor; [|constructor]. split; cbn.
    + destruct (SubClause.text s); [congruence|discriminate].
    + apply Forall_app. now split.
  - constructor; [now split|]. now apply IH.
Qed.

Lemma flush_shape st :
  (forall n, current_clause_num st = Some n -> (0 <= n)%Z) ->
  shape_inv st -> Forall clause_shape (flush st).
Proof.
  intros Hn [Hc Hs Hl]. unfold flush. unfold pending_number in Hl.
  destruct (current_clause_num st) as [n|] eqn:N; [|assumption].
  apply Forall_app. split; [assumption|]. constructor; [|constructor].
  exists n, (current_clause_text st). cbn. repeat split; try assumption.
  now apply Hn.
Qed.

Lemma clause_step_shape st raw st' :
  state_ok st -> shape_inv st ->
  clause_step st raw = Ok st' -> shape_inv st'.
Proof.
  intros Hok Hsh. destruct (body_line raw) eqn:B.
  2:{ rewrite clause_step_skip by assumption. intros H. now injection H as <-. }
  destruct (clause_match (strip raw)) as [[g1 g2]|] eqn:M.
  { rewrite (clause_step_explicit st raw g1 g2 M).
    destruct (py_int g1) as [n|e] eqn:I; [|discriminate]. cbn [bind].
    intros H. injection H as <-. split; cbn; [|constructor|].
    - apply flush_shape; [apply Hok|assumption].
    - exact (py_int_str_length g1 n I). }
  rewrite clause_step_body by assumption. cbv zeta. rewrite M.
  destruct Hsh as [Hc Hs Hl]. unfold pending_number in Hl.
  destruct (subclause_match (strip raw)) as [[label text]|] eqn:S;
    destruct (current_clause_num st) as [n|] eqn:N;
    try (intros H; injection H as <-; split;
         cbn [clauses current_subclauses pending_number current_clause_num];
         [assumption| |rewrite ?N; assumption];
         apply Forall_app; split; [assumption|];
         constructor; [|constructor];
         eapply subclause_match_text; eassumption);
    destruct (subsubclause_match (strip raw)) as [[r1 r2]|] eqn:R;
    destruct (current_subclauses st) as [|s0 subs] eqn:C;
    intros H; injection H as <-; split;
    cbn [clauses current_subclauses pending_number current_clause_num
         implicit_clause_num];
    rewrite ?N; try assumption; try constructor.
  all: change (Forall sub_text_ok
                 (append_to_last (s0 :: subs) (u " (" ++ r1 ++ u ") " ++ r2)));
    apply append_to_last_text; [|assumption];
    destruct (subsubclause_match_groups _ _ _ R) as [O1 O2];
    unfold one_line;
    repeat (apply Forall_app; split); try assumption;
    repeat constructor; discriminate.
Qed.

Lemma initial_state_shape : shape_inv initial_state.
Proof.
  split; [apply Forall_nil|apply Forall_nil|].
  apply Nat.leb_le. vm_compute. reflexivity.
Qed.

Lemma foldM_clause_step_shape lines : forall st st',
  state_ok st -> shape_inv st ->
  foldM clause_step lines st = Ok st' -> state_ok st' /\ shape_inv st'.
Proof.
  induction lines as [|raw rest IH]; intros st st' Hok Hsh; cbn [foldM].
  - intros H. injection H as <-. now split.
  - destruct (clause_step st raw) as [st1|e] eqn:E; [|discriminate]. cbn [bind].
    apply IH; [exact (clause_step_ok st raw st1 Hok E)|].
    exact (clause_step_shape st raw st1 Hok Hsh E).
Qed.

Lemma parse_clauses_shape lines cs :
  parse_clauses lines = Ok cs -> Forall clause_shape cs.
Proof.
  unfold parse_clauses.
  destruct (foldM clause_step lines initial_state) as [st|e] eqn:F; [|discriminate].
  cbn [bind]. intros H. injection H as <-.
  destruct (foldM_clause_step_shape lines initial_state st initial_state_ok
              initial_state_shape F) as [Hok Hsh].
  apply flush_shape; [apply Hok|assumption].
Qed.

Lemma clause_shape_texts lines cs :
  parse_clauses lines = Ok cs -> Forall clause_texts_ok cs.
Proof.
  intros E. eapply Forall_impl; [|eapply parse_clauses_shape; exact E].
  intros c (n & fragments & _ & _ & _ & T & S). split; [|exact S].
  rewrite T. apply strip_trimmed.
Qed.

(** X4: in every clause that [parse_clauses] returns, the text has no
    leading and no trailing whitespace, and the text of every sub-clause is
    not empty and holds no line feed. *)
Theorem parse_clauses_texts lines cs :
  parse_clauses lines = Ok cs -> Forall clause_texts_ok cs.
Proof.
  intros E. pose proof (parse_clauses_shape lines cs E) as H. clear E.
  induction H as [|c rest (n & fragments & _ & _ & _ & T & Hsubs) _ IH];
    [constructor|].
  constructor; [|exact IH].
  split; [rewrite T; apply strip_trimmed|exact Hsubs].
Qed.

Lemma parse_clauses_texts_witness :
  let lines := [u "(1)  The people may exercise their power  "; u "(a) directly; or";
                u "(ii) through their representatives. "] in
  let cs := [Clause.mk (u "1") (u "The people may exercise their power")
               [SubClause.mk (u "a")
                  (u "directly; or (ii) through their representatives.")]] in
  parse_clauses lines = Ok cs /\ Forall clause_texts_ok cs.
Proof.
  intros lines cs.
  assert (E : parse_clauses lines = Ok cs) by (vm_compute; reflexivity).
  split; [exact E|]. exact (parse_clauses_texts lines cs E).
Defined.

(** X5: clause numbers are canonical.  Reading the number of a returned
    clause with [int] succeeds, and writing the integer read with [str] gives
    the number back; so "(007)" opens clause "7". *)
Theorem parse_clauses_numbers_canonical lines cs :
  parse_clauses lines = Ok cs ->
  Forall (fun c => exists n,
            py_int (Clause.number c) = Ok n /\ py_str n = Clause.number c) cs
  /\ parse_clauses [u "(007) x"] = Ok [Clause.mk (u "7") (u "x") []].
Proof.
  intros E. split; [|reflexivity].
  eapply Forall_impl; [|eapply parse_clauses_shape; exact E].
  intros c (n & fragments & Hn & N & L & _). exists n.
  rewrite N. split; [now apply py_int_py_str|reflexivity].
Qed.

Lemma parse_clauses_numbers_canonical_witness :
  let lines := [u "(007) x"; u "(0010) y"] in
  let cs := [Clause.mk (u "7") (u "x") []; Clause.mk (u "10") (u "y") []] in
  parse_clauses lines = Ok cs
  /\ Forall (fun c => exists n,
               py_int (Clause.number c) = Ok n /\ py_str n = Clause.number c) cs.
Proof.
  intros lines cs.
  assert (E : parse_clauses lines = Ok cs) by (vm_compute; reflexivity).
  split; [exact E|]. exact (proj1 (parse_clauses_numbers_canonical lines cs E)).
Defined.

(** ** Occurrences of a literal *)

Lemma startswith_app p : forall s,
  startswith p s = true <-> exists r, s = p ++ r.
Proof.
  induction p as [|x p IH]; intros s; cbn [startswith app].
  - split; [intros _; now exists s|reflexivity].
  - destruct s as [|y s]; [split; [discriminate|intros (r & H); discriminate]|].
    rewrite andb_true_iff, N.eqb_eq, IH. split.
    + intros (-> & r & ->). now exists r.
    + intros (r & H). injection H as -> ->. split; [reflexivity|now exists r].
Qed.

Lemma find_sub_Some lit s : forall i k,
  find_sub lit s i = Some k ->
  exists before after,
    first_occurrence lit s before after /\ k = i + length before.
Proof.
  induction s as [|c r IH]; intros i k; cbn [find_sub].
  - destruct (startswith lit []) eqn:E; [|discriminate].
    intros H. injection H as <-. apply startswith_app in E. destruct E as (a & E).
    exists [], a. split; [split; [exact E|intros; cbn; lia]|cbn; lia].
  - destruct (startswith lit (c :: r)) eqn:E.
    + intros H. injection H as <-. apply startswith_app in E. destruct E as (a & E).
      exists [], a. split; [split; [exact E|intros; cbn; lia]|cbn; lia].
    + intros H. apply IH in H. destruct H as (b & a & [Hs Hmin] & ->).
      exists (c :: b), a. split; [split|cbn; lia].
      * cbn. now rewrite <- Hs.
      * intros b' a' H'. destruct b' as [|c' b'].
        -- cbn in H'. assert (T : startswith lit (c :: r) = true)
             by (apply startswith_app; now exists a').
           congruence.
        -- cbn in H'. injection H' as -> H'. cbn. apply Hmin in H'. lia.
Qed.

Lemma find_sub_None lit s : forall i,
  find_sub lit s i = None -> ~ occurs lit s.
Proof.
  induction s as [|c r IH]; intros i; cbn [find_sub].
  - destruct (startswith lit []) eqn:E; [discriminate|].
    intros _ (b & a & H). destruct b; [|discriminate]. cbn in H.
    assert (T : startswith lit [] = true) by (apply startswith_app; now exists a).
    congruence.
  - destruct (startswith lit (c :: r)) eqn:E; [discriminate|].
    intros H (b & a & H'). destruct b as [|c' b].
    + cbn in H'. assert (T : startswith lit (c :: r) = true)
        by (apply startswith_app; now exists a).
      congruence.
    + cbn in H'. injection H' as -> H'. apply (IH _ H). now exists b, a.
Qed.

(** ** The schedules *)

Lemma lazy_name_chars s : forall w,
  lazy_name s = Some w -> forallb is_name_char w = true.
Proof.
  induction s as [|c r IH]; intros w; cbn [lazy_name]; [discriminate|].
  destruct (is_name_char c) eqn:E; [|discriminate].
  destruct (county_lookahead r).
  - intros H. injection H as <-. cbn. now rewrite E.
  - destruct (lazy_name r) as [w'|]; [|discriminate].
    intros H. injection H as <-. cbn. rewrite E. now apply IH.
Qed.

Lemma county_at_group2 s n g1 g2 :
  county_at s = Some (n, (g1, g2)) -> forallb is_name_char g2 = true.
Proof.
  unfold county_at.
  destruct (takewhile isdecimal s) as [|d ds]; [discriminate|].
  destruct (dropwhile isdecimal s) as [|c r]; [discriminate|].
  destruct (c =? DOT)%N; [|discriminate].
  intros H. apply spaces_then_Some in H. destruct H as (j & _ & H).
  destruct (lazy_name (skipn j r)) as [w|] eqn:L; [|discriminate].
  injection H as _ _ <-. eapply lazy_name_chars. eassumption.
Qed.

Lemma parse_counties_ok schedule_text :
  Forall county_ok (parse_counties schedule_text).
Proof.
  rewrite parse_counties_accepted. unfold schedule_entries.
  pose proof (finditer_Forall county_at
                (fun g1 g2 => (g1 <> [] /\ forallb isdecimal g1 = true)
                              /\ forallb is_name_char g2 = true)) as F.
  specialize (F (fun s n g1 g2 H =>
                   conj (county_at_group1 s n g1 g2 H) (county_at_group2 s n g1 g2 H))
                (firstn 8000 schedule_text) 0 0).
  induction F as [|m ms [[H1 H2] H3] _ IH]; [constructor|].
  cbn [flat_map]. apply Forall_app. split; [|exact IH].
  unfold entry_accepted, parsed_number.
  destruct (py_int (group1 m)) as [n|e] eqn:I; [|constructor].
  pose proof (py_int_nonneg _ _ I) as Hn.
  destruct ((n <=? 47)%Z && negb (is_empty (strip (group2 m)))) eqn:A;
    [|constructor].
  apply andb_true_iff in A. destruct A as [A1 A2]. apply Z.leb_le in A1.
  constructor; [|constructor]. unfold county_ok. cbn.
  split; [lia|]. split; [|split].
  - destruct (strip (group2 m)); [discriminate|discriminate].
  - apply strip_trimmed.
  - apply Forall_forall. intros ch Hch. apply strip_incl in Hch.
    rewrite forallb_forall in H3. now apply H3.
Qed.

(** X6: every county record of schedule 1 has a number between 0 and 47 and
    a name that is not empty, has no whitespace at either end and is made of
    ASCII letters, whitespace and hyphens. *)
Theorem parse_schedules_counties_ok content_text :
  Forall schedule_ok (parse_schedules content_text).
Proof.
  unfold parse_schedules.
  destruct (find_sub (u "FIRST SCHEDULE") content_text 0) as [start|]; [|constructor].
  unfold schedule_info. cbn [map].
  repeat (constructor; [unfold schedule_ok; cbn; try exact I|]);
    try constructor.
  apply parse_counties_ok.
Qed.

(** X7: [parse_schedules] returns no schedule when "FIRST SCHEDULE" does not
    occur in the content.  Otherwise it returns six schedules: schedule 1,
    whose counties are parsed from the first occurrence of the marker on,
    and the schedules 2 to 6, which are the same for every content. *)
Theorem parse_schedules_none_or_six content_text :
  (~ occurs (u "FIRST SCHEDULE") content_text
   /\ parse_schedules content_text = [])
  \/ (exists before after,
        first_occurrence (u "FIRST SCHEDULE") content_text before after
        /\ parse_schedules content_text =
           Schedule.mk 1%Z (u "COUNTIES") (u "Article 6(1)")
             (Counties (parse_counties (u "FIRST SCHEDULE" ++ after)))
           :: fixed_schedules).
Proof.
  unfold parse_schedules.
  destruct (find_sub (u "FIRST SCHEDULE") content_text 0) as [start|] eqn:F.
  - right. apply find_sub_Some in F. destruct F as (b & a & [Hs Hmin] & ->).
    exists b, a. split; [now split|].
    assert (E : skipn (0 + length b) content_text = u "FIRST SCHEDULE" ++ a).
    { rewrite Hs. cbn [Nat.add]. now rewrite skipn_app, skipn_all, Nat.sub_diag. }
    rewrite E. reflexivity.
  - left. split; [eapply find_sub_None; eassumption|reflexivity].
Qed.

(** ** The bounds and the text of the preamble *)

(** The end of the preamble is the index of a line that begins with
    "CHAPTER ONE", and is not the first line. *)
Lemma find_preamble_end_line lines s e :
  find_preamble lines 0 None = (s, Some e) ->
  0 < e /\ exists line,
    nth_error lines e = Some line /\ starts_chapter_one line = true.
Proof.
  rewrite find_preamble_fresh.
  destruct (first_from is_preamble_line lines 0 201) as [p|]; [|discriminate].
  intros H. injection H as _ E.
  destruct (first_from_ge _ _ _ _ _ E) as [_ Ge].
  destruct (first_from_Some _ _ _ _ _ E) as ((line & N & C) & _).
  rewrite Nat.sub_0_r in N. split; [lia|]. now exists line.
Qed.

(** X8: when the loop finds an end of the preamble it has found a start
    before: the start is greater than 201, the end is greater than the
    start, and the end is the index of a line of the document that begins
    with "CHAPTER ONE". *)
Theorem find_preamble_bounds lines s e :
  find_preamble lines 0 None = (s, Some e) ->
  exists start line,
    s = Some start /\ 201 < start < e /\ e < length lines
    /\ nth_error lines e = Some line /\ starts_chapter_one line = true.
Proof.
  intros F. pose proof (find_preamble_end_bound lines 0 None s e F) as B.
  rewrite find_preamble_fresh in F.
  destruct (first_from is_preamble_line lines 0 201) as [p|] eqn:P; [|discriminate].
  injection F as <- E.
  destruct (first_from_ge _ _ _ _ _ P) as [_ Gp].
  destruct (first_from_ge _ _ _ _ _ E) as [_ Ge].
  destruct (first_from_Some _ _ _ _ _ E) as ((line & N & C) & _).
  rewrite Nat.sub_0_r in N.
  exists (p + 1), line. split; [reflexivity|]. split; [lia|].
  split; [lia|now split].
Qed.

Lemma find_preamble_bounds_witness :
  exists start line,
    Some 202 = Some start /\ 201 < start < 204 /\ 204 < length early_chapter_lines
    /\ nth_error early_chapter_lines 204 = Some line
    /\ starts_chapter_one line = true.
Proof.
  exact (find_preamble_bounds early_chapter_lines (Some 202) 204 eq_refl).
Defined.

Lemma split_nl_one_line s : Forall one_line (split_nl s).
Proof.
  induction s as [|c r IH]; cbn [split_nl]; [repeat constructor|].
  destruct (c =? LF)%N eqn:E.
  - constructor; [constructor|exact IH].
  - destruct (split_nl r) as [|l ls]; [repeat constructor; now apply N.eqb_neq|].
    inversion IH as [|? ? Hl Hls]; subst.
    constructor; [|exact Hls]. constructor; [now apply N.eqb_neq|exact Hl].
Qed.

Lemma strip_one_line s : one_line s -> one_line (strip s).
Proof.
  unfold one_line. rewrite !Forall_forall. intros H c Hc.
  apply H. now apply strip_incl.
Qed.

(** A line as the preamble loop collects it. *)
Lemma preamble_fold_lines lines idxs : forall acc r,
  Forall one_line lines ->
  Forall (fun l => l <> [] /\ trimmed l /\ one_line l) acc ->
  foldM (preamble_step lines) idxs acc = Ok r ->
  Forall (fun l => l <> [] /\ trimmed l /\ one_line l) r.
Proof.
  induction idxs as [|k idxs IH]; intros acc r Hl Hacc; cbn [foldM].
  - intros H. now injection H as <-.
  - unfold preamble_step at 1, index.
    destruct (nth_error lines k) as [raw|] eqn:N; [|discriminate].
    cbn [bind].
    destruct (negb (is_empty (strip raw))
              && negb (startswith (u "Constitution of Kenya") (strip raw))
              && negb (str_eqb (strip raw) (u "THE CONSTITUTION OF KENYA"))) eqn:B;
      cbn [bind]; apply IH; try assumption.
    apply Forall_app. split; [assumption|]. constructor; [|constructor].
    apply andb_true_iff in B. destruct B as [B _].
    apply andb_true_iff in B. destruct B as [B _].
    split; [destruct (strip raw); [discriminate|discriminate]|].
    split; [apply strip_trimmed|]. apply strip_one_line.
    rewrite Forall_forall in Hl. apply Hl. eapply nth_error_In. eassumption.
Qed.

Lemma join_nonempty sep (parts : list str) :
  parts <> [] -> Forall (fun l => l <> []) parts -> join sep parts <> [].
Proof.
  destruct parts as [|p rest]; [congruence|]. intros _ H.
  inversion H as [|? ? Hp _]; subst. cbn [join].
  destruct rest; [exact Hp|]. destruct p; [congruence|discriminate].
Qed.

Lemma join_space_paragraph (parts : list str) :
  Forall (fun l => l <> [] /\ trimmed l /\ one_line l) parts ->
  trimmed (join [SPACE] parts) /\ one_line (join [SPACE] parts).
Proof.
  induction parts as [|p rest IH]; intros H.
  - split; [split; exact I|constructor].
  - inversion H as [|? ? (Hne & [Hh Ht] & Hol) Hrest]; subst.
    destruct rest as [|q rest'].
    + cbn [join]. split; [now split|exact Hol].
    + specialize (IH Hrest). destruct IH as [[_ It] Io].
      change (join [SPACE] (p :: q :: rest'))
        with (p ++ [SPACE] ++ join [SPACE] (q :: rest')).
      split; [split|].
      * destruct p; [congruence|exact Hh].
      * rewrite !rev_app_distr.
        assert (J : join [SPACE] (q :: rest') <> []).
        { apply join_nonempty; [discriminate|].
          eapply Forall_impl; [|exact Hrest]. now intros l (? & _). }
        destruct (rev (join [SPACE] (q :: rest'))) as [|c r] eqn:R; [|exact It].
        apply (f_equal (@rev _)) in R. rewrite rev_involutive in R. now subst.
      * unfold one_line. apply Forall_app. split; [exact Hol|].
        apply Forall_app. split; [repeat constructor; discriminate|exact Io].
Qed.

(** X9: the preamble of every document that the parser returns is one
    paragraph: it holds no line feed and has no whitespace at either end. *)
Theorem preamble_is_paragraph lower content doc :
  parse_constitution lower content = Ok doc ->
  one_line (Document.preamble doc) /\ trimmed (Document.preamble doc).
Proof.
  intros E.
  destruct (parse_constitution_ok lower content doc E) as (P & _).
  cbv zeta in P. revert P. generalize (Document.preamble doc). clear E doc.
  intros preamble P. unfold preamble_text in P.
  destruct (fst (find_preamble (split_nl content) 0 None)) as [s|];
    [|injection P as <-; repeat split; constructor].
  destruct (snd (find_preamble (split_nl content) 0 None)) as [e|];
    [|injection P as <-; repeat split; constructor].
  destruct (truthy (Some s) && truthy (Some e));
    [|injection P as <-; repeat split; constructor].
  destruct (foldM (preamble_step (split_nl content)) (seq s (e - s)) [])
    as [ls|x] eqn:F; [|discriminate].
  cbn [bind] in P. injection P as <-.
  apply preamble_fold_lines in F; [|apply split_nl_one_line|constructor].
  destruct (join_space_paragraph ls F) as [T O]. now split.
Qed.

Lemma preamble_is_paragraph_witness :
  parse_constitution ascii_lower minimal_document = Ok minimal_tree
  /\ Document.preamble minimal_tree
     = u "We, the people of Kenya ADOPT this Constitution."
  /\ one_line (Document.preamble minimal_tree)
  /\ trimmed (Document.preamble minimal_tree).
Proof.
  assert (E : parse_constitution ascii_lower minimal_document = Ok minimal_tree)
    by (vm_compute; reflexivity).
  split; [exact E|]. split; [reflexivity|].
  exact (preamble_is_paragraph ascii_lower minimal_document minimal_tree E).
Defined.

(** ** The content that is searched for chapters *)

Lemma join_app sep (l1 l2 : list str) :
  l1 <> [] -> l2 <> [] -> join sep (l1 ++ l2) = join sep l1 ++ sep ++ join sep l2.
Proof.
  intros H1 H2. induction l1 as [|p rest IH]; [congruence|].
  destruct rest as [|q rest'].
  - destruct l2 as [|q l2']; [congruence|]. reflexivity.
  - change (join sep ((p :: q :: rest') ++ l2))
      with (p ++ sep ++ join sep ((q :: rest') ++ l2)).
    rewrite IH by discriminate.
    change (join sep (p :: q :: rest')) with (p ++ sep ++ join sep (q :: rest')).
    now rewrite <- !app_assoc.
Qed.

Lemma takewhile_first_line (line : str) rest :
  one_line line -> takewhile not_lf (join [LF] (line :: rest)) = line.
Proof.
  intros H.
  assert (G : forall tail, match tail with [] => True | c :: _ => c = LF end ->
                takewhile not_lf (line ++ tail) = line).
  { intros tail Ht. induction H as [|c l Hc _ IH]; cbn [app takewhile].
    - destruct tail as [|c t]; [reflexivity|]. subst c. reflexivity.
    - unfold not_lf at 1. apply N.eqb_neq in Hc. rewrite Hc. cbn [negb].
      now rewrite IH. }
  destruct rest as [|q rest'].
  - cbn [join]. rewrite <- (app_nil_r line) at 1. now apply G.
  - change (join [LF] (line :: q :: rest'))
      with (line ++ LF :: join [LF] (q :: rest')).
    now apply G.
Qed.

(** X10: the content searched for chapters and schedules is the end of the
    content of the file.  When the preamble has an end, what comes before
    that line is left out and the content searched begins with the line that
    begins with "CHAPTER ONE"; otherwise nothing is left out. *)
Theorem content_text_is_suffix content :
  let lines := split_nl content in
  let preamble_end := snd (find_preamble lines 0 None) in
  let content_text := content_text_of lines preamble_end in
  (exists dropped, content = dropped ++ content_text)
  /\ match preamble_end with
     | Some _ =>
         startswith (u "CHAPTER ONE") (strip (takewhile not_lf content_text)) = true
     | None => content_text = content
     end.
Proof.
  intros lines preamble_end content_text.
  subst content_text. unfold content_text_of, content_start.
  destruct preamble_end as [e|] eqn:PE; subst preamble_end.
  - destruct (find_preamble lines 0 None) as [s e'] eqn:F.
    cbn [snd] in PE. subst e'.
    destruct (find_preamble_end_line lines s e F) as (B & line & N & C).
    assert (L : e < length lines) by (apply nth_error_Some; congruence).
    destruct e as [|e0]; [lia|]. cbn [truthy].
    assert (Sk : skipn (S e0) lines = line :: skipn (S (S e0)) lines).
    { rewrite <- (firstn_skipn (S e0) lines) in N.
      rewrite nth_error_app2 in N by (rewrite length_firstn; lia).
      rewrite length_firstn, Nat.min_l, Nat.sub_diag in N by lia.
      destruct (skipn (S e0) lines) as [|l0 tl] eqn:K; [discriminate|].
      cbn in N. injection N as ->. f_equal.
      change (S (S e0)) with (1 + S e0). rewrite <- skipn_skipn, K. reflexivity. }
    split.
    + exists (join [LF] (firstn (S e0) lines) ++ [LF]).
      rewrite <- (join_split_nl content) at 1. fold lines.
      rewrite <- (firstn_skipn (S e0) lines) at 1.
      rewrite join_app; [now rewrite <- app_assoc| |rewrite Sk; discriminate].
      intros Z. apply (f_equal (@length _)) in Z.
      rewrite length_firstn in Z. cbn [length] in Z. lia.
    + rewrite Sk, takewhile_first_line; [exact C|].
      pose proof (split_nl_one_line content) as O. fold lines in O.
      rewrite Forall_forall in O. apply O. eapply nth_error_In. eassumption.
  - cbn [skipn]. split; [exists []|]; unfold lines; now rewrite join_split_nl.
Qed.

(** ** The matches of a pattern *)

Lemma finditer_leftmost at_head :
  (forall s n g, at_head s = Some (n, g) -> 0 < n <= length s) ->
  forall s prefix skip,
    skip <= length s ->
    leftmost_matches at_head (prefix ++ s) (length prefix + skip)
      (finditer at_head s (length prefix) skip).
Proof.
  intros Hb s. induction s as [|c r IH]; intros prefix skip Hskip.
  - cbn [finditer leftmost_matches]. intros p Hp.
    rewrite length_app in Hp. cbn [length] in *. lia.
  - cbn [finditer].
    assert (Step : forall k, k <= length r ->
              leftmost_matches at_head (prefix ++ c :: r) (length prefix + S k)
                (finditer at_head r (S (length prefix)) k)).
    { intros k Hk. specialize (IH (prefix ++ [c]) k Hk).
      rewrite <- app_assoc in IH. cbn [app] in IH.
      rewrite length_app in IH. cbn [length] in IH.
      replace (length prefix + 1) with (S (length prefix)) in IH by lia.
      now replace (length prefix + S k) with (S (length prefix) + k) by lia. }
    assert (Here : skipn (length prefix) (prefix ++ c :: r) = c :: r).
    { now rewrite skipn_app, skipn_all, Nat.sub_diag. }
    destruct skip as [|k].
    + destruct (at_head (c :: r)) as [[n [g1 g2]]|] eqn:E.
      * destruct (Hb _ _ _ E) as [Hn0 Hn]. destruct n as [|k]; [lia|].
        cbn [leftmost_matches m_start m_end group1 group2].
        split; [lia|]. split; [intros p Hp; lia|].
        rewrite Here.
        replace (length prefix + S k - length prefix) with (S k) by lia.
        split; [exact E|]. split; [rewrite length_app; lia|].
        apply Step. cbn [length] in Hn. lia.
      * specialize (Step 0 (Nat.le_0_l _)).
        assert (Ext : forall ms,
                  leftmost_matches at_head (prefix ++ c :: r) (length prefix + 1) ms ->
                  leftmost_matches at_head (prefix ++ c :: r) (length prefix + 0) ms).
        { assert (P0 : forall p lim, length prefix + 0 <= p < lim ->
                    (forall q, length prefix + 1 <= q < lim ->
                       at_head (skipn q (prefix ++ c :: r)) = None) ->
                    at_head (skipn p (prefix ++ c :: r)) = None).
          { intros p lim Hp Hq.
            destruct (Nat.eq_dec p (length prefix)) as [->|Hne];
              [now rewrite Here|apply Hq; lia]. }
          intros [|m rest]; cbn [leftmost_matches].
          - intros H p Hp. now apply (P0 p (length (prefix ++ c :: r))).
          - intros (H1 & H2 & H3). split; [lia|].
            split; [intros p Hp; now apply (P0 p (m_start m))|exact H3]. }
        apply Ext. exact Step.
    + apply Step. cbn [length] in Hskip. lia.
Qed.

(** ** Chapter headers *)

Lemma firstn_spaces j s :
  j <= length (takewhile isspace s) ->
  exists ws, s = ws ++ skipn j s /\ length ws = j /\ forallb isspace ws = true.
Proof.
  revert s. induction j as [|j IH]; intros s Hj.
  - now exists [].
  - destruct s as [|c r]; [cbn in Hj; lia|]. cbn [takewhile] in Hj.
    destruct (isspace c) eqn:E; [|cbn in Hj; lia].
    cbn [length] in Hj. destruct (IH r) as (ws & H1 & H2 & H3); [lia|].
    exists (c :: ws). cbn [skipn app length forallb]. rewrite E, H3, H2.
    now rewrite <- H1.
Qed.

Lemma spaces_then_text {A} lo (k : nat -> str -> option A) s a :
  spaces_then lo k s = Some a ->
  exists ws rest,
    s = ws ++ rest /\ lo <= length ws /\ forallb isspace ws = true
    /\ k (length ws) rest = Some a.
Proof.
  unfold spaces_then. intros H. apply try_down_Some in H.
  destruct H as (j & [Hlo Hhi] & K).
  destruct (firstn_spaces j s Hhi) as (ws & E & L & F).
  exists ws, (skipn j s). subst j. now repeat split.
Qed.

Lemma word_dash_title_text words s w t :
  word_dash_title words s = Some (w, t) ->
  In w words
  /\ exists d rest,
       s = w ++ d :: t ++ rest /\ is_dash d = true /\ t <> [] /\ one_line t
       /\ match rest with [] => True | c :: _ => c = LF end.
Proof.
  induction words as [|w0 ws IH]; cbn [word_dash_title]; [discriminate|].
  assert (Next : word_dash_title ws s = Some (w, t) ->
                 In w (w0 :: ws) /\ exists d rest,
                   s = w ++ d :: t ++ rest /\ is_dash d = true /\ t <> []
                   /\ one_line t
                   /\ match rest with [] => True | c :: _ => c = LF end).
  { intros H. destruct (IH H) as [I R]. split; [now right|exact R]. }
  destruct (startswith w0 s) eqn:W; [|exact Next].
  apply startswith_app in W. destruct W as (r0 & ->).
  rewrite skipn_app, skipn_all, Nat.sub_diag. cbn [app skipn].
  destruct r0 as [|d r]; [exact Next|].
  destruct (is_dash d) eqn:D; [|exact Next].
  destruct (takewhile not_lf r) as [|c0 t0] eqn:T; [exact Next|].
  intros H. injection H as <- <-. split; [now left|].
  exists d, (dropwhile not_lf r). rewrite <- T, takewhile_dropwhile.
  split; [reflexivity|]. split; [exact D|]. split; [rewrite T; discriminate|].
  split; [apply takewhile_not_lf_one_line|].
  pose proof (dropwhile_head not_lf r) as Hd.
  destruct (dropwhile not_lf r) as [|c1 ?]; [exact I|].
  unfold not_lf in Hd. apply negb_false_iff in Hd. now apply N.eqb_eq in Hd.
Qed.

Lemma chapter_at_text s n w t :
  chapter_at s = Some (n, (w, t)) ->
  exists ws d rest,
    s = u "CHAPTER" ++ ws ++ w ++ d :: t ++ rest
    /\ n = length (u "CHAPTER" ++ ws ++ w ++ d :: t)
    /\ ws <> [] /\ forallb isspace ws = true /\ is_dash d = true
    /\ In w chapter_words /\ t <> [] /\ one_line t
    /\ match rest with [] => True | c :: _ => c = LF end.
Proof.
  unfold chapter_at. destruct (startswith (u "CHAPTER") s) eqn:C; [|discriminate].
  apply startswith_app in C. destruct C as (r0 & ->).
  change (skipn 7 (u "CHAPTER" ++ r0)) with r0.
  intros H. apply spaces_then_text in H.
  destruct H as (ws & rest & -> & Hlo & F & K).
  destruct (word_dash_title chapter_words rest) as [[w' t']|] eqn:W; [|discriminate].
  injection K as <- <- <-.
  apply word_dash_title_text in W. destruct W as (I & d & tail & -> & D & Tn & To & Tl).
  exists ws, d, tail. split; [reflexivity|].
  split; [rewrite !length_app; cbn [length];
          change (length (u "CHAPTER")) with 7; lia|].
  split; [destruct ws; [cbn in Hlo; lia|discriminate]|]. now repeat split.
Qed.

Lemma chapter_at_bound s n g : chapter_at s = Some (n, g) -> 0 < n <= length s.
Proof.
  destruct g as [w t]. intros H. apply chapter_at_text in H.
  destruct H as (ws & d & rest & -> & -> & _).
  rewrite !length_app. cbn [length]. rewrite !length_app. cbn [length].
  change (length (u "CHAPTER")) with 7. lia.
Qed.

Lemma leftmost_matches_Forall at_head text (P : re_match -> Prop) :
  (forall m, m_start m < m_end m <= length text ->
             at_head (skipn (m_start m) text)
             = Some (m_end m - m_start m, (group1 m, group2 m)) -> P m) ->
  forall ms lo, leftmost_matches at_head text lo ms -> Forall P ms.
Proof.
  intros H ms. induction ms as [|m rest IH]; intros lo L; [constructor|].
  cbn [leftmost_matches] in L. destruct L as (_ & _ & E & B & L).
  constructor; [now apply H|]. eapply IH. eassumption.
Qed.

(** X11: the chapter headers are found from left to right: each header is
    the first match of the pattern at or after the end of the previous
    header, headers do not overlap, and no match of the pattern is left
    after the last one.  The text of each header is "CHAPTER", whitespace,
    one of the eighteen ordinal words, an em dash or a hyphen, and a title
    that is not empty and runs to the end of its line. *)
Theorem chapter_headers_leftmost content_text :
  let chapter_matches := finditer chapter_at content_text 0 0 in
  leftmost_matches chapter_at content_text 0 chapter_matches
  /\ Forall (header_text content_text) chapter_matches.
Proof.
  intros chapter_matches.
  assert (L : leftmost_matches chapter_at content_text 0 chapter_matches).
  { exact (finditer_leftmost chapter_at chapter_at_bound content_text [] 0
             (Nat.le_0_l _)). }
  split; [exact L|].
  eapply leftmost_matches_Forall; [|exact L].
  intros m [B1 B2] E. apply chapter_at_text in E.
  destruct E as (ws & d & rest & Hs & Hn & W1 & W2 & D & I & T1 & T2 & Tl).
  exists ws, d. unfold slice. rewrite Hs, Hn.
  assert (Split : u "CHAPTER" ++ ws ++ group1 m ++ d :: group2 m ++ rest
                  = (u "CHAPTER" ++ ws ++ group1 m ++ d :: group2 m) ++ rest).
  { repeat rewrite <- app_assoc. reflexivity. }
  split; [rewrite Split, firstn_app, firstn_all, Nat.sub_diag; cbn [firstn];
          now rewrite app_nil_r|].
  repeat (split; [assumption|]).
  replace (m_end m) with ((m_end m - m_start m) + m_start m) by lia.
  rewrite <- skipn_skipn, Hs, Hn, Split, skipn_app, skipn_all, Nat.sub_diag.
  exact Tl.
Qed.

(** ** The article detector *)

Lemma partial_match_In items normalized n :
  partial_match items normalized = Some n -> In n (map snd items).
Proof.
  induction items as [|[k v] rest IH]; cbn [partial_match]; [discriminate|].
  destruct (startswith k normalized || startswith normalized k).
  - intros H. injection H as ->. now left.
  - intros H. right. now apply IH.
Qed.

Lemma resolve_article_num_positive article_map article_positions normalized :
  Forall (fun v => (1 <= v)%Z) (map snd article_map) ->
  Forall (fun p => (1 <= pos_num p)%Z) article_positions ->
  (1 <= resolve_article_num article_map article_positions normalized)%Z.
Proof.
  intros Hm Hp. rewrite Forall_forall in Hm. unfold resolve_article_num.
  destruct (dict_get article_map normalized) as [n|] eqn:G.
  - apply Hm. eapply dict_get_In. eassumption.
  - destruct (partial_match article_map normalized) as [n|] eqn:P.
    + apply Hm. eapply partial_match_In. eassumption.
    + destruct (rev article_positions) as [|p r] eqn:R; [lia|].
      assert (I : In p article_positions).
      { apply in_rev. rewrite R. now left. }
      rewrite Forall_forall in Hp. specialize (Hp p I). lia.
Qed.

Lemma lines_increasing_weaken ps : forall lo lo',
  lo <= lo' -> lines_increasing lo' ps -> lines_increasing lo ps.
Proof.
  destruct ps as [|p rest]; intros lo lo' H; cbn [lines_increasing]; [trivial|].
  intros [H1 H2]. split; [lia|exact H2].
Qed.

Lemma find_titles_spec lower article_map :
  Forall (fun v => (1 <= v)%Z) (map snd article_map) ->
  forall suffix prefix acc,
    Forall (fun p => (1 <= pos_num p)%Z) acc ->
    exists new,
      find_titles lower article_map suffix (length prefix) acc = acc ++ new
      /\ lines_increasing (length prefix) new
      /\ Forall (title_position (prefix ++ suffix)) new
      /\ Forall (fun p => (1 <= pos_num p)%Z) new.
Proof.
  intros Hm suffix.
  induction suffix as [|raw rest IH]; intros prefix acc Hacc.
  - exists []. cbn [find_titles]. rewrite app_nil_r.
    repeat split; constructor.
  - assert (Skip : exists new,
              find_titles lower article_map rest (S (length prefix)) acc = acc ++ new
              /\ lines_increasing (length prefix) new
              /\ Forall (title_position (prefix ++ raw :: rest)) new
              /\ Forall (fun p => (1 <= pos_num p)%Z) new).
    { destruct (IH (prefix ++ [raw]) acc Hacc) as (new & E & I & T & N).
      rewrite length_app in E, I. cbn [length] in E, I.
      replace (length prefix + 1) with (S (length prefix)) in E, I by lia.
      rewrite <- app_assoc in T. exists new. repeat split; try assumption.
      eapply lines_increasing_weaken; [|exact I]. lia. }
    cbn [find_titles].
    destruct (is_empty (strip raw) || startswith (u "Part ") (strip raw)
              || startswith (u "PART ") (strip raw)); [exact Skip|].
    destruct (is_candidate (strip raw)) eqn:C; [|exact Skip].
    destruct (find nonblank rest) as [next_raw|] eqn:F; [|exact Skip].
    destruct (confirms (strip next_raw)) eqn:K; [|exact Skip].
    set (p := mkPos (length prefix) (strip (drop_last (strip raw)))
                (resolve_article_num article_map acc
                   (normalize_title lower (strip (drop_last (strip raw)))))).
    assert (Hp : (1 <= pos_num p)%Z)
      by (now apply resolve_article_num_positive).
    destruct (IH (prefix ++ [raw]) (acc ++ [p])) as (new & E & I & T & N).
    { apply Forall_app. split; [assumption|]. now constructor. }
    rewrite length_app in E, I. cbn [length] in E, I.
    replace (length prefix + 1) with (S (length prefix)) in E, I by lia.
    rewrite <- app_assoc in T. cbn [app] in T.
    exists (p :: new). split; [now rewrite E, <- app_assoc|].
    split; [split; [cbn; lia|exact I]|].
    split; [|now constructor].
    constructor; [|exact T].
    exists raw, next_raw. cbn [pos_line pos_title p].
    split; [now rewrite nth_error_app2, Nat.sub_diag by lia|].
    split; [exact C|]. split; [reflexivity|]. split; [|exact K].
    replace (S (length prefix)) with (length (prefix ++ [raw]))
      by (rewrite length_app; cbn; lia).
    replace (prefix ++ raw :: rest) with ((prefix ++ [raw]) ++ rest)
      by now rewrite <- app_assoc.
    now rewrite skipn_app, skipn_all, Nat.sub_diag.
Qed.

Lemma table_numbers_positive :
  Forall (fun v => (1 <= v)%Z) (map snd get_article_number_map).
Proof.
  apply Forall_forall. intros v H.
  assert (F : forallb (fun v => (1 <=? v)%Z) (map snd get_article_number_map) = true)
    by (vm_compute; reflexivity).
  rewrite forallb_forall in F. apply Z.leb_le. now apply F.
Qed.

(** X12: the first pass records the titles in the order of the lines: the
    line indices of the recorded positions increase strictly, and each
    position points to a candidate title line (it ends with a period, does
    not begin with a parenthesis or a number and a period, and has between 4
    and 149 characters) that the next non-blank line confirms; its title is
    that line without the final period, trimmed. *)
Theorem find_titles_positions lower lines :
  let article_positions := find_titles lower get_article_number_map lines 0 [] in
  lines_increasing 0 article_positions
  /\ Forall (title_position lines) article_positions.
Proof.
  destruct (find_titles_spec lower _ table_numbers_positive lines [] [])
    as (new & E & I & T & _); [constructor|].
  cbn [length app] in *. cbv zeta. rewrite E. now split.
Qed.

Lemma extract_articles_fields lines positions articles :
  extract_articles lines positions = Ok articles ->
  map (fun a => (Article.number a, Article.title a)) articles
  = map (fun p => (pos_num p, pos_title p)) positions.
Proof.
  revert articles. induction positions as [|p rest IH]; intros articles;
    cbn [extract_articles].
  - intros H. now injection H as <-.
  - destruct (parse_clauses _) as [cs|e]; [|discriminate]. cbn [bind].
    destruct (extract_articles lines rest) as [arts|e]; [|discriminate].
    cbn [bind]. intros H. injection H as <-. cbn [map Article.number Article.title].
    f_equal. now apply IH.
Qed.

Lemma strip_length s : length (strip s) <= length s.
Proof.
  destruct (strip_decompose s) as (w1 & w2 & E & _).
  rewrite E at 2. rewrite !length_app. lia.
Qed.

Lemma title_position_title lines p :
  title_position lines p ->
  pos_title p <> [] /\ trimmed (pos_title p) /\ length (pos_title p) < 149.
Proof.
  intros (raw & next_raw & _ & C & -> & _).
  unfold is_candidate in C.
  repeat (apply andb_true_iff in C; destruct C as [C ?]).
  match goal with H : (3 <? _) = true |- _ => apply Nat.ltb_lt in H end.
  match goal with H : (_ <? 150) = true |- _ => apply Nat.ltb_lt in H end.
  pose proof (strip_trimmed raw) as [Hh _].
  destruct (strip raw) as [|c r] eqn:S; [cbn in *; lia|].
  unfold drop_last.
  destruct r as [|c' r']; [cbn in *; lia|].
  change (removelast (c :: c' :: r')) with (c :: removelast (c' :: r')).
  split; [now apply strip_nonempty|]. split; [apply strip_trimmed|].
  eapply Nat.le_lt_trans; [apply strip_length|].
  change (c :: removelast (c' :: r')) with (removelast (c :: c' :: r')).
  assert (L : length (removelast (c :: c' :: r')) < length (c :: c' :: r')).
  { rewrite (app_removelast_last 0%N (l := c :: c' :: r')) at 2 by discriminate.
    rewrite length_app. cbn [length]. lia. }
  lia.
Qed.

(** Articles that carry the numbers and titles of title positions have
    well-formed fields. *)
Lemma position_fields_ok lines positions : forall articles,
  map (fun a => (Article.number a, Article.title a)) articles
  = map (fun p => (pos_num p, pos_title p)) positions ->
  Forall (title_position lines) positions ->
  Forall (fun p => (1 <= pos_num p)%Z) positions ->
  Forall article_ok_fields articles.
Proof.
  induction positions as [|p rest IH]; intros articles M T N.
  - destruct articles; [constructor|discriminate].
  - destruct articles as [|a arts]; [discriminate|].
    cbn [map] in M. injection M as Hn Ht M.
    inversion T as [|? ? Tp Trest]; subst.
    inversion N as [|? ? Np Nrest]; subst.
    constructor; [|now apply IH].
    destruct (title_position_title _ _ Tp) as (T1 & T2 & T3).
    unfold article_ok_fields. rewrite Hn, Ht.
    split; [exact Np|]. split; [exact T1|]. split; [exact T2|exact T3].
Qed.

Lemma parse_articles_improved_fields lower chapter_content chapter_num articles :
  parse_articles_improved lower chapter_content chapter_num = Ok articles ->
  Forall article_ok_fields articles.
Proof.
  set (lines := split_nl (remove_matches page_marker_at chapter_content 0)).
  intros E. unfold parse_articles_improved in E. fold lines in E.
  pose proof (extract_articles_fields _ _ _ E) as M.
  destruct (find_titles_spec lower _ table_numbers_positive lines [] [])
    as (new & F & _ & T & N); [constructor|].
  cbn [length app] in F, T. rewrite F in M.
  exact (position_fields_ok lines new articles M T N).
Qed.

(** X13: [parse_articles_improved] returns one article for each recorded
    title, in the same order and with its number and title; every number is
    at least 1, and every title is not empty, has no whitespace at either
    end and has fewer than 149 characters. *)
Theorem parse_articles_improved_articles lower chapter_content chapter_num articles :
  let lines := split_nl (remove_matches page_marker_at chapter_content 0) in
  parse_articles_improved lower chapter_content chapter_num = Ok articles ->
  map (fun a => (Article.number a, Article.title a)) articles
  = map (fun p => (pos_num p, pos_title p))
        (find_titles lower get_article_number_map lines 0 [])
  /\ Forall article_ok_fields articles.
Proof.
  intros lines E. unfold parse_articles_improved in E. fold lines in E.
  pose proof (extract_articles_fields _ _ _ E) as M. split; [exact M|].
  destruct (find_titles_spec lower _ table_numbers_positive lines [] [])
    as (new & F & _ & T & N); [constructor|].
  cbn [length app] in F, T. rewrite F in M. clear E F.
  revert articles M. induction new as [|p rest IH]; intros articles M.
  - destruct articles; [constructor|discriminate].
  - destruct articles as [|a arts]; [discriminate|].
    cbn [map] in M. injection M as Hn Ht M.
    inversion T as [|? ? Tp Trest]; subst.
    inversion N as [|? ? Np Nrest]; subst.
    constructor; [|now apply IH].
    destruct (title_position_title _ _ Tp) as (T1 & T2 & T3).
    unfold article_ok_fields. rewrite Hn, Ht.
    split; [exact Np|]. split; [exact T1|]. split; [exact T2|exact T3].
Qed.

Lemma parse_articles_improved_articles_witness :
  let articles :=
    [Article.mk 1%Z (u "Sovereignty of the people")
       [Clause.mk (u "1") (u "All sovereign power belongs to the people.") []];
     Article.mk 3%Z (u "Defence of this Constitution")
       [Clause.mk (u "1") (u "Any attempt is unlawful.") []]] in
  let chapter_content := u "
Sovereignty of the people.
(1) All sovereign power belongs to the people.
Defence of this Constitution.
(1) Any attempt is unlawful.
" in
  parse_articles_improved ascii_lower chapter_content 1%Z = Ok articles
  /\ Forall article_ok_fields articles.
Proof.
  intros articles chapter_content.
  assert (E : parse_articles_improved ascii_lower chapter_content 1%Z = Ok articles)
    by (vm_compute; reflexivity).
  split; [exact E|].
  exact (proj2 (parse_articles_improved_articles ascii_lower chapter_content 1%Z
                  articles E)).
Defined.

(** ** The lines of the articles *)

Lemma title_position_in_range lines p :
  title_position lines p -> pos_line p < length lines.
Proof.
  intros (raw & _ & N & _). apply nth_error_Some. congruence.
Qed.

Lemma skipn_cons_nth {A} (l : list A) a x :
  nth_error l a = Some x -> skipn a l = x :: skipn (a + 1) l.
Proof.
  revert l. induction a as [|a IH]; intros l H.
  - destruct l; [discriminate|]. cbn in H. injection H as ->. reflexivity.
  - destruct l; [discriminate|]. cbn [skipn Nat.add]. now apply IH.
Qed.

Lemma slice_then_skipn {A} (l : list A) a b :
  a <= b -> slice l a b ++ skipn b l = skipn a l.
Proof.
  intros H. unfold slice.
  replace (skipn b l) with (skipn (b - a) (skipn a l))
    by (rewrite skipn_skipn; f_equal; lia).
  apply firstn_skipn.
Qed.

Lemma articles_cover_from lines : forall positions lo,
  lines_increasing lo positions ->
  Forall (title_position lines) positions ->
  articles_cover lines positions =
  match positions with
  | [] => []
  | p :: _ => skipn (pos_line p) lines
  end.
Proof.
  induction positions as [|p rest IH]; intros lo I T; [reflexivity|].
  cbn [lines_increasing] in I. destruct I as [_ I].
  inversion T as [|? ? Tp Trest]; subst.
  destruct Tp as (raw & next_raw & N & _).
  cbn [articles_cover]. rewrite N. cbn [option_list].
  rewrite (IH _ I Trest). rewrite (skipn_cons_nth _ _ _ N). cbn [app]. f_equal.
  destruct rest as [|next rest'].
  - rewrite app_nil_r. unfold slice. apply firstn_all2. rewrite length_skipn. lia.
  - cbn [lines_increasing] in I. destruct I as [I _].
    apply slice_then_skipn. lia.
Qed.

(** X14: the articles share out the lines of the chapter from the first
    title on.  The title line of each article followed by its body lines,
    one article after the other, are exactly the lines from the first title
    line to the end; the lines before the first title belong to no article. *)
Theorem articles_cover_lines lower lines :
  let article_positions := find_titles lower get_article_number_map lines 0 [] in
  articles_cover lines article_positions =
  match article_positions with
  | [] => []
  | first :: _ => skipn (pos_line first) lines
  end.
Proof.
  intros article_positions. subst article_positions.
  destruct (find_titles_spec lower _ table_numbers_positive lines [] [])
    as (new & E & I & T & _); [constructor|].
  cbn [length app] in *. rewrite E.
  now apply (articles_cover_from lines new 0).
Qed.

(** ** Normalized titles *)

Lemma replace_In old new s c :
  In c (replace old new s) -> (In c s /\ c <> old) \/ In c new.
Proof.
  unfold replace. intros H. apply in_flat_map in H. destruct H as (x & Hx & H).
  destruct (x =? old)%N eqn:E; [now right|].
  destruct H as [<-|[]]. left. split; [assumption|]. now apply N.eqb_neq.
Qed.

Lemma collapse_spaces_In t : forall in_run c,
  In c (collapse_spaces in_run t) -> (In c t /\ isspace c = false) \/ c = SPACE.
Proof.
  induction t as [|x r IH]; intros in_run c; cbn [collapse_spaces]; [intros []|].
  destruct (isspace x) eqn:E.
  - destruct in_run; [intros H|intros [<-|H]; [now right|]];
      (destruct (IH _ _ H) as [[I S]|S]; [left; split; [now right|exact S]|now right]).
  - intros [<-|H]; [left; split; [now left|exact E]|].
    destruct (IH _ _ H) as [[I S]|S]; [left; split; [now right|exact S]|now right].
Qed.

Lemma collapse_spaces_single t : forall in_run,
  single_spaced (collapse_spaces in_run t)
  /\ (in_run = true ->
      match collapse_spaces in_run t with
      | [] => True
      | c :: _ => c <> SPACE
      end).
Proof.
  induction t as [|x r IH]; intros in_run; cbn [collapse_spaces].
  - split; [exact I|trivial].
  - destruct (isspace x) eqn:E.
    + destruct (IH true) as [S H]. specialize (H eq_refl).
      destruct in_run; [split; [exact S|trivial]|].
      split; [|discriminate].
      destruct (collapse_spaces true r) as [|d rest]; [exact I|].
      split; [|exact S]. intros [_ ->]. now apply H.
    + destruct (IH false) as [S _]. split.
      * destruct (collapse_spaces false r) as [|d rest]; [exact I|].
        split; [|exact S]. intros [-> _]. discriminate.
      * intros _ ->. discriminate.
Qed.

(** A trimmed string is empty, or one character that is not whitespace, or
    begins and ends with such a character. *)
Lemma trimmed_ends s :
  trimmed s <->
  (s = []
   \/ (exists a, s = [a] /\ isspace a = false)
   \/ (exists a m z, s = a :: m ++ [z] /\ isspace a = false /\ isspace z = false)).
Proof.
  unfold trimmed. split.
  - intros [H1 H2]. destruct s as [|a r]; [now left|]. right.
    destruct (rev (a :: r)) as [|z m'] eqn:R.
    { apply (f_equal (@length _)) in R. rewrite length_rev in R. discriminate. }
    apply (f_equal (@rev _)) in R. rewrite rev_involutive in R. cbn [rev] in R.
    destruct (rev m') as [|a' m] eqn:M.
    + cbn in R. injection R as -> ->. left. now exists z.
    + cbn in R. injection R as -> ->. right. now exists a', m, z.
  - intros [E|[(a & E & Ha)|(a & m & z & E & Ha & Hz)]]; subst s.
    + now split.
    + now split.
    + split; [exact Ha|]. cbn [rev]. rewrite rev_app_distr. exact Hz.
Qed.

Lemma replace_app old new a b :
  replace old new (a ++ b) = replace old new a ++ replace old new b.
Proof. unfold replace. apply flat_map_app. Qed.

Lemma trimmed_cons_snoc (a z : char) (m : str) :
  isspace a = false -> isspace z = false -> trimmed (a :: m ++ [z]).
Proof.
  intros Ha Hz. apply trimmed_ends. right. right. now exists a, m, z.
Qed.

Lemma trimmed_app (x y : str) :
  x <> [] -> y <> [] -> trimmed x -> trimmed y -> trimmed (x ++ y).
Proof.
  intros Hx Hy [X1 _] [_ Y2]. split.
  - destruct x; [congruence|exact X1].
  - rewrite rev_app_distr. destruct (rev y) as [|c r] eqn:R; [|exact Y2].
    apply (f_equal (@rev _)) in R. rewrite rev_involutive in R. now subst.
Qed.

Lemma trimmed_middle (x m y : str) :
  x <> [] -> y <> [] -> trimmed x -> trimmed y -> trimmed (x ++ m ++ y).
Proof.
  intros Hx Hy [X1 _] [_ Y2]. split.
  - destruct x; [congruence|exact X1].
  - rewrite !rev_app_distr. destruct (rev y) as [|c r] eqn:R; [|exact Y2].
    apply (f_equal (@rev _)) in R. rewrite rev_involutive in R. now subst.
Qed.

Lemma replace_trimmed old new s :
  new <> [] -> trimmed new -> trimmed s -> trimmed (replace old new s).
Proof.
  intros Hn Tn Ts. apply trimmed_ends in Ts.
  destruct Ts as [E|[(z & E & Hz)|(a & m & z & E & Ha & Hz)]]; subst s.
  - split; exact I.
  - unfold replace. cbn [flat_map]. rewrite app_nil_r.
    destruct (z =? old)%N; [exact Tn|]. split; exact Hz.
  - change (a :: m ++ [z]) with ([a] ++ m ++ [z]). rewrite !replace_app.
    assert (One : forall c, isspace c = false ->
                    replace old new [c] <> [] /\ trimmed (replace old new [c])).
    { intros c Hc. unfold replace. cbn [flat_map]. rewrite app_nil_r.
      destruct (c =? old)%N; [now split|]. split; [discriminate|now split]. }
    destruct (One a Ha) as [A1 A2]. destruct (One z Hz) as [Z1 Z2].
    now apply trimmed_middle.
Qed.

Lemma collapse_spaces_snoc t z : forall in_run,
  isspace z = false ->
  collapse_spaces in_run (t ++ [z]) = collapse_spaces in_run t ++ [z].
Proof.
  induction t as [|x r IH]; intros in_run Hz; cbn [app collapse_spaces].
  - now rewrite Hz.
  - destruct (isspace x); [destruct in_run|]; now rewrite IH.
Qed.

Lemma collapse_spaces_trimmed s : trimmed s -> trimmed (collapse_spaces false s).
Proof.
  intros Ts. apply trimmed_ends in Ts.
  destruct Ts as [E|[(z & E & Hz)|(a & m & z & E & Ha & Hz)]]; subst s.
  - split; exact I.
  - cbn [collapse_spaces]. rewrite Hz. now split.
  - rewrite app_comm_cons, collapse_spaces_snoc by assumption.
    cbn [collapse_spaces]. rewrite Ha. now apply trimmed_cons_snoc.
Qed.

(** X15: whatever the title, its normalized form holds no em dash, no en
    dash and no "fi" or "fl" ligature; its only whitespace is single spaces
    inside the title.  So no title is looked up under the key of the table
    that is written with the ligature. *)
Theorem normalize_title_shape lower title :
  let normalized := normalize_title lower title in
  Forall normalized_char normalized
  /\ single_spaced normalized
  /\ trimmed normalized
  /\ normalized
     <> u "national, of" ++ [LIGATURE_FI] ++ u "cial and other languages".
Proof.
  intros normalized.
  assert (C : Forall normalized_char normalized).
  { apply Forall_forall. intros c H. subst normalized. unfold normalize_title in H.
    apply collapse_spaces_In in H.
    destruct H as [[H S]| ->];
      [|unfold normalized_char; repeat split; discriminate || reflexivity].
    assert (W : isspace c = true -> c = SPACE) by congruence.
    apply replace_In in H.
    destruct H as [[H Nfl]|H];
      [|cbn in H; destruct H as [<-|[<-|[]]]; repeat split; discriminate].
    apply replace_In in H.
    destruct H as [[H Nfi]|H];
      [|cbn in H; destruct H as [<-|[<-|[]]]; repeat split; discriminate].
    apply replace_In in H.
    destruct H as [[H _]|H];
      [|cbn in H; destruct H as [<-|[]]; repeat split; discriminate].
    apply replace_In in H.
    destruct H as [[H _]|H];
      [|cbn in H; destruct H as [<-|[]]; repeat split; discriminate].
    apply replace_In in H.
    destruct H as [[H Nen]|H];
      [|cbn in H; destruct H as [<-|[]]; repeat split; discriminate].
    apply replace_In in H.
    destruct H as [[H Nem]|H];
      [|cbn in H; destruct H as [<-|[]]; repeat split; discriminate].
    now repeat split. }
  split; [exact C|]. split; [apply collapse_spaces_single|]. split.
  - subst normalized. unfold normalize_title. apply collapse_spaces_trimmed.
    repeat (apply replace_trimmed;
            [discriminate|split; reflexivity|]).
    apply strip_trimmed.
  - intros E. rewrite E in C. rewrite Forall_forall in C.
    assert (I : In LIGATURE_FI
                  (u "national, of" ++ [LIGATURE_FI] ++ u "cial and other languages")).
    { apply in_or_app. right. now left. }
    destruct (C _ I) as (_ & _ & N & _). congruence.
Qed.

(** ** Page markers *)

Lemma page_marker_at_occurs s n :
  page_marker_at s = Some n -> startswith (u "Constitution of Kenya") s = true.
Proof.
  unfold page_marker_at.
  destruct (startswith (u "Constitution of Kenya") s); [reflexivity|discriminate].
Qed.

Lemma remove_matches_length at_head s : forall skip,
  length (remove_matches at_head s skip) <= length s.
Proof.
  induction s as [|c r IH]; intros skip; cbn [remove_matches length]; [lia|].
  destruct skip as [|k]; [|specialize (IH k); lia].
  destruct (at_head (c :: r)) as [[|k]|];
    [specialize (IH 0)|specialize (IH k)|specialize (IH 0)]; cbn [length]; lia.
Qed.

(** X16: removing the page markers never makes a text longer, and a
    text in which "Constitution of Kenya" does not occur is left as it is. *)
Theorem remove_page_markers_without_marker chapter_content :
  length (remove_matches page_marker_at chapter_content 0) <= length chapter_content
  /\ (~ occurs (u "Constitution of Kenya") chapter_content ->
      remove_matches page_marker_at chapter_content 0 = chapter_content).
Proof.
  split; [apply remove_matches_length|].
  induction chapter_content as [|c r IH]; intros H; [reflexivity|].
  cbn [remove_matches].
  destruct (page_marker_at (c :: r)) as [n|] eqn:E.
  - exfalso. apply H. apply page_marker_at_occurs in E.
    apply startswith_app in E. destruct E as (rest & E). now exists [], rest.
  - f_equal. apply IH. intros (b & a & E'). apply H.
    exists (c :: b), a. cbn. now rewrite E'.
Qed.

Lemma remove_page_markers_without_marker_witness :
  remove_matches page_marker_at (u "Sovereignty of the people.") 0
  = u "Sovereignty of the people.".
Proof.
  apply (proj2 (remove_page_markers_without_marker (u "Sovereignty of the people."))).
  apply (find_sub_None _ _ 0). reflexivity.
Defined.

(** ** The table as a dict *)

Lemma str_eqb_refl s : str_eqb s s = true.
Proof. now apply str_eqb_eq. Qed.

Lemma str_eqb_neq a b : str_eqb a b = false <-> a <> b.
Proof.
  split.
  - intros H E. apply str_eqb_eq in E. congruence.
  - intros H. destruct (str_eqb a b) eqn:E; [|reflexivity].
    apply str_eqb_eq in E. contradiction.
Qed.

Lemma dict_get_set d k v k' :
  dict_get (dict_set d k v) k' =
  if str_eqb k k' then Some v else dict_get d k'.
Proof.
  induction d as [|[k0 v0] r IH]; cbn [dict_set dict_get].
  - reflexivity.
  - destruct (str_eqb k0 k) eqn:E; cbn [dict_get].
    + apply str_eqb_eq in E. subst k0. now destruct (str_eqb k k').
    + destruct (str_eqb k0 k') eqn:E'; [|exact IH].
      apply str_eqb_eq in E'. subst k0.
      replace (str_eqb k k') with false; [reflexivity|].
      symmetry. apply str_eqb_neq. apply str_eqb_neq in E. congruence.
Qed.

Lemma dict_keys_set d k v :
  map fst (dict_set d k v) =
  if existsb (str_eqb k) (map fst d) then map fst d else map fst d ++ [k].
Proof.
  induction d as [|[k0 v0] r IH]; cbn [dict_set map fst existsb]; [reflexivity|].
  destruct (str_eqb k0 k) eqn:E.
  - apply str_eqb_eq in E. subst k0. now rewrite str_eqb_refl.
  - assert (E' : str_eqb k k0 = false).
    { apply str_eqb_neq. apply str_eqb_neq in E. congruence. }
    rewrite E'. cbn [orb map fst]. rewrite IH.
    now destruct (existsb (str_eqb k) (map fst r)).
Qed.

Lemma fold_dict_set entries : forall d k,
  dict_get (fold_left (fun d e => dict_set d (fst e) (snd e)) entries d) k =
  match last_written entries k with
  | Some v => Some v
  | None => dict_get d k
  end.
Proof.
  induction entries as [|[k0 v0] rest IH]; intros d k; cbn [fold_left last_written];
    [reflexivity|].
  rewrite IH. cbn [fst snd].
  destruct (last_written rest k); [reflexivity|].
  rewrite dict_get_set. now destruct (str_eqb k0 k).
Qed.

Lemma fold_dict_keys entries : forall d,
  map fst (fold_left (fun d e => dict_set d (fst e) (snd e)) entries d) =
  map fst d ++ first_written (map fst d) entries.
Proof.
  induction entries as [|[k0 v0] rest IH]; intros d; cbn [fold_left first_written].
  - now rewrite app_nil_r.
  - rewrite IH. cbn [fst snd]. rewrite dict_keys_set.
    destruct (existsb (str_eqb k0) (map fst d)); [reflexivity|].
    now rewrite <- app_assoc.
Qed.

(** X17: the table behaves as the dict display does.  Looking a title up
    gives the number of the last entry written with that key, and the keys
    are visited, as the prefix matching does, in the order in which they are
    first written. *)
Theorem table_last_written_wins title :
  dict_get get_article_number_map title = last_written articles_literal title
  /\ map fst get_article_number_map = first_written [] articles_literal.
Proof.
  unfold get_article_number_map, dict_of. split.
  - rewrite fold_dict_set. now destruct (last_written articles_literal title).
  - now rewrite fold_dict_keys.
Qed.

(** ** The document tree *)

Lemma extract_articles_clauses lines positions articles :
  extract_articles lines positions = Ok articles ->
  Forall (fun a => Forall clause_texts_ok (Article.clauses a)) articles.
Proof.
  revert articles. induction positions as [|p rest IH]; intros articles;
    cbn [extract_articles].
  - intros H. injection H as <-. constructor.
  - destruct (parse_clauses _) as [cs|e] eqn:P; [|discriminate]. cbn [bind].
    destruct (extract_articles lines rest) as [arts|e]; [|discriminate].
    cbn [bind]. intros H. injection H as <-.
    constructor; [|now apply IH]. cbn [Article.clauses].
    eapply clause_shape_texts. exact P.
Qed.

Lemma parse_articles_improved_tree lower chapter_content chapter_num articles :
  parse_articles_improved lower chapter_content chapter_num = Ok articles ->
  Forall article_tree_ok articles.
Proof.
  intros E.
  pose proof (parse_articles_improved_fields _ _ _ _ E) as F.
  unfold parse_articles_improved in E. apply extract_articles_clauses in E.
  clear -E F. induction F as [|a arts Ha _ IH]; [constructor|].
  inversion E as [|? ? Ca Carts]; subst. constructor; [now split|now apply IH].
Qed.

Lemma chapter_matches_titles s pos skip :
  Forall (fun m => one_line (group2 m)) (finditer chapter_at s pos skip).
Proof.
  apply (finditer_Forall chapter_at (fun _ g2 => one_line g2)).
  intros s0 n g1 g2 H. apply chapter_at_text in H.
  now destruct H as (ws & d & rest & _ & _ & _ & _ & _ & _ & _ & O & _).
Qed.

Lemma parse_chapters_tree lower content_text ms : forall chapters,
  Forall (fun m => one_line (group2 m)) ms ->
  parse_chapters lower content_text ms = Ok chapters ->
  map Chapter.title chapters = map (fun m => strip (group2 m)) ms
  /\ Forall chapter_tree_ok chapters.
Proof.
  induction ms as [|m rest IH]; intros chapters Hm; cbn [parse_chapters].
  - intros H. injection H as <-. split; [reflexivity|constructor].
  - inversion Hm as [|? ? Om Orest]; subst.
    destruct (dict_index word_to_num (group1 m)) as [n|e]; [|discriminate].
    cbn [bind].
    destruct (parse_articles_improved lower _ n) as [arts|e] eqn:A; [|discriminate].
    cbn [bind].
    destruct (parse_chapters lower content_text rest) as [chs|e] eqn:C; [|discriminate].
    cbn [bind]. intros H. injection H as <-.
    destruct (IH chs Orest eq_refl) as [T F].
    cbn [map Chapter.title]. split; [now rewrite T|].
    constructor; [|exact F]. unfold chapter_tree_ok. cbn.
    split; [apply strip_trimmed|]. split; [now apply strip_one_line|].
    eapply parse_articles_improved_tree. exact A.
Qed.

(** X18: the tree of every document that the parser returns is well formed
    throughout.  The chapter titles are the titles of the headers, trimmed,
    in the order of the headers, and hold no line feed; every article has a
    number of at least 1 and a title that is not empty, trimmed and shorter
    than 149 characters; every clause text is trimmed and every sub-clause
    text is a non-empty single line. *)
Theorem document_tree_well_formed lower content doc :
  let lines := split_nl content in
  let content_text := content_text_of lines (snd (find_preamble lines 0 None)) in
  parse_constitution lower content = Ok doc ->
  map Chapter.title (Document.chapters doc)
  = map (fun m => strip (group2 m)) (finditer chapter_at content_text 0 0)
  /\ Forall chapter_tree_ok (Document.chapters doc).
Proof.
  intros lines content_text E.
  unfold parse_constitution in E. cbv zeta in E.
  destruct (preamble_text _ _ _) as [p|x]; [|discriminate]. cbn [bind] in E.
  destruct (parse_chapters lower _ _) as [chs|x] eqn:C; [|discriminate].
  cbn [bind] in E. injection E as <-. cbn [Document.chapters].
  apply (parse_chapters_tree lower _ _ chs (chapter_matches_titles _ _ _) C).
Qed.

Lemma document_tree_well_formed_witness :
  parse_constitution ascii_lower minimal_document = Ok minimal_tree
  /\ map Chapter.title (Document.chapters minimal_tree)
     = [u "SOVEREIGNTY OF THE PEOPLE"]
  /\ Forall chapter_tree_ok (Document.chapters minimal_tree).
Proof.
  assert (E : parse_constitution ascii_lower minimal_document = Ok minimal_tree)
    by (vm_compute; reflexivity).
  split; [exact E|]. split; [reflexivity|].
  exact (proj2 (document_tree_well_formed ascii_lower minimal_document
                  minimal_tree E)).
Defined.
